(** * SimpleStockRank: the Master Scoring Model of [app.py]

    A shallow embedding of [calculate_master_score] (app.py, lines 104-235)
    together with the fragment of Python's numeric semantics the function
    relies on.

    Python numbers are dynamically typed: a JSON number reaches the function
    either as an [int] (unbounded) or as a [float] (IEEE-754 binary64).  Both
    are modelled: ints as [Z], floats as [spec_float] with the operations of
    the standard library's [SpecFloat] (round to nearest, ties to even) at
    precision 53 and maximal exponent 1024.  Mixed comparisons are exact, as
    in CPython; mixed arithmetic converts the int operand to a float first
    and raises [OverflowError] when that is impossible.

    The project store of [database.py] is embedded in [Database]: the table
    [projects] as the list of its rows, the three SQL statements as list
    functions, [json.dumps] and [json.loads] as parameters. *)

From Stdlib Require Import ZArith Lia Bool.
From Stdlib Require Import Floats.SpecFloat.
From stdpp Require Import base option strings gmap.

#[local] Open Scope Z_scope.

(** ** Exceptions and the result monad *)

Inductive pyerr : Type :=
  | OverflowError
  | ValueError
  | ZeroDivisionError.

Inductive result (A : Type) : Type :=
  | Ok (a : A)
  | Raise (e : pyerr).
Arguments Ok {A} a.
Arguments Raise {A} e.

#[global] Instance result_ret : MRet result := fun _ a => Ok a.
#[global] Instance result_bind : MBind result := fun _ _ f r =>
  match r with
  | Ok a => f a
  | Raise e => Raise e
  end.

#[global] Instance result_fmap : FMap result := fun _ _ f r =>
  match r with
  | Ok a => Ok (f a)
  | Raise e => Raise e
  end.

Definition returns {A} (r : result A) : Prop := exists a, r = Ok a.

(** ** Python numbers *)

Module PyNum.

Definition prec : Z := 53.
Definition emax : Z := 1024.

Inductive pynum : Type :=
  | PyInt (z : Z)
  | PyFloat (f : spec_float).

(** *** int -> float and int / int *)

(** [float(z)]: correctly rounded; an int whose rounding leaves the binary64
    range raises OverflowError ("int too large to convert to float"). *)
Definition int_to_float (z : Z) : result spec_float :=
  match binary_normalize prec emax z 0 false with
  | S754_infinity _ => Raise OverflowError
  | f => Ok f
  end.

(** The binary64 value nearest to [a / b], for [b <> 0]; an infinity when
    the quotient is out of range. *)
Definition nearest_quotient (a b : Z) : spec_float :=
  let s := xorb (a <? 0) (b <? 0) in
  match a with
  | 0 => S754_zero s
  | _ =>
    let '(q, e, l) := SFdiv_core_binary prec emax (Z.abs a) 0 (Z.abs b) 0 in
    binary_round_aux prec emax s q e l
  end.

(** [a / b] on two ints (true division): correctly rounded, OverflowError
    ("integer division result too large for a float") out of range. *)
Definition int_truediv (a b : Z) : result spec_float :=
  if b =? 0 then Raise ZeroDivisionError
  else match nearest_quotient a b with
       | S754_infinity _ => Raise OverflowError
       | f => Ok f
       end.

(** A float literal written [n/d] in decimal denotes the nearest binary64. *)
Definition lit (n d : Z) : spec_float := nearest_quotient n d.

Definition to_float (x : pynum) : result spec_float :=
  match x with
  | PyInt z => int_to_float z
  | PyFloat f => Ok f
  end.

(** *** Comparisons *)

(** Exact comparison of an int with the value [(-1)^s * m * 2^e]. *)
Definition Zcompare_finite (z : Z) (s : bool) (m : positive) (e : Z) : comparison :=
  let v := if s then Z.neg m else Z.pos m in
  match e with
  | Z.neg k => Z.compare (z * 2 ^ Z.pos k) v
  | _ => Z.compare z (v * 2 ^ e)
  end.

Definition int_float_compare (z : Z) (f : spec_float) : option comparison :=
  match f with
  | S754_nan => None
  | S754_infinity s => Some (if s then Gt else Lt)
  | S754_zero _ => Some (Z.compare z 0)
  | S754_finite s m e => Some (Zcompare_finite z s m e)
  end.

(** Python compares ints with floats exactly; a NaN is unordered. *)
Definition compare (x y : pynum) : option comparison :=
  match x, y with
  | PyInt a, PyInt b => Some (Z.compare a b)
  | PyFloat f, PyFloat g => SFcompare f g
  | PyInt a, PyFloat g => int_float_compare a g
  | PyFloat f, PyInt b => CompOpp <$> int_float_compare b f
  end.

Definition lt (x y : pynum) : bool :=
  match compare x y with Some Lt => true | _ => false end.
Definition le (x y : pynum) : bool :=
  match compare x y with Some (Lt | Eq) => true | _ => false end.
Definition gt (x y : pynum) : bool :=
  match compare x y with Some Gt => true | _ => false end.
Definition ge (x y : pynum) : bool :=
  match compare x y with Some (Gt | Eq) => true | _ => false end.

(** *** Arithmetic *)

Definition float_op (op : spec_float -> spec_float -> spec_float)
    (x y : pynum) : result pynum :=
  f ← to_float x; g ← to_float y; mret (PyFloat (op f g)).

Definition add (x y : pynum) : result pynum :=
  match x, y with
  | PyInt a, PyInt b => Ok (PyInt (a + b))
  | _, _ => float_op (SFadd prec emax) x y
  end.

Definition sub (x y : pynum) : result pynum :=
  match x, y with
  | PyInt a, PyInt b => Ok (PyInt (a - b))
  | _, _ => float_op (SFsub prec emax) x y
  end.

Definition mul (x y : pynum) : result pynum :=
  match x, y with
  | PyInt a, PyInt b => Ok (PyInt (a * b))
  | _, _ => float_op (SFmul prec emax) x y
  end.

Definition is_zero (f : spec_float) : bool :=
  match f with S754_zero _ => true | _ => false end.

(** [x / y]: both operands are converted first, then a zero divisor raises. *)
Definition truediv (x y : pynum) : result pynum :=
  match x, y with
  | PyInt a, PyInt b => PyFloat <$> int_truediv a b
  | _, _ =>
    f ← to_float x; g ← to_float y;
    if is_zero g then Raise ZeroDivisionError
    else mret (PyFloat (SFdiv prec emax f g))
  end.

(** *** int(x) and round(x, 1) on floats *)

(** Magnitude of a finite float, truncated to an integer. *)
Definition trunc_mag (m : positive) (e : Z) : Z :=
  match e with
  | Z.neg k => Z.pos m / 2 ^ Z.pos k
  | _ => Z.pos m * 2 ^ e
  end.

(** [int(f)]: truncation toward zero; ValueError on NaN, OverflowError on
    an infinity. *)
Definition to_int (f : spec_float) : result Z :=
  match f with
  | S754_nan => Raise ValueError
  | S754_infinity _ => Raise OverflowError
  | S754_zero _ => Ok 0
  | S754_finite s m e => Ok (if s then - trunc_mag m e else trunc_mag m e)
  end.

(** [math.floor(f)], used only to state properties. *)
Definition floor (f : spec_float) : option Z :=
  match f with
  | S754_nan | S754_infinity _ => None
  | S754_zero _ => Some 0
  | S754_finite false m e => Some (trunc_mag m e)
  | S754_finite true m e =>
    Some (match e with
          | Z.neg k => - ((Z.pos m + 2 ^ Z.pos k - 1) / 2 ^ Z.pos k)
          | _ => - (Z.pos m * 2 ^ e)
          end)
  end.

(** [n / d] rounded to the nearest integer, ties to even ([n >= 0], [d > 0]). *)
Definition div_half_even (n d : Z) : Z :=
  let q := n / d in
  let r := n mod d in
  match Z.compare (2 * r) d with
  | Lt => q
  | Gt => q + 1
  | Eq => if Z.even q then q else q + 1
  end.

(** Tenths of the magnitude [m * 2^e], rounded half to even. *)
Definition tenths (m : positive) (e : Z) : Z :=
  match e with
  | Z.neg k => div_half_even (10 * Z.pos m) (2 ^ Z.pos k)
  | _ => 10 * Z.pos m * 2 ^ e
  end.

(** [round(f, 1)]: the exact value is rounded half-even to one decimal and
    the decimal is converted back to the nearest float; NaN and infinities
    round to themselves and the sign of a zero result is kept. *)
Definition round1 (f : spec_float) : spec_float :=
  match f with
  | S754_finite s m e =>
    match tenths m e with
    | 0 => S754_zero s
    | n => nearest_quotient (if s then - n else n) 10
    end
  | _ => f
  end.

End PyNum.

(** ** The scoring engine (app.py) *)

Module Scoring.
Import PyNum.

(** [d.get(k, dflt)] on a dict with string keys. *)
Definition get (d : gmap string pynum) (k : string) (dflt : pynum) : pynum :=
  default dflt (d !! k).

(** Float literals of the source. *)
Definition f0_20 : spec_float := Eval vm_compute in lit 20 100.
Definition f0_10 : spec_float := Eval vm_compute in lit 10 100.
Definition f0_5 : spec_float := Eval vm_compute in lit 5 10.
Definition f0_6 : spec_float := Eval vm_compute in lit 6 10.
Definition f0_7 : spec_float := Eval vm_compute in lit 7 10.
Definition f0_8 : spec_float := Eval vm_compute in lit 8 10.
Definition f0_9 : spec_float := Eval vm_compute in lit 9 10.
Definition f1_0 : spec_float := Eval vm_compute in lit 10 10.
Definition f1_2 : spec_float := Eval vm_compute in lit 12 10.
Definition f1_5 : spec_float := Eval vm_compute in lit 15 10.
Definition f2_5 : spec_float := Eval vm_compute in lit 25 10.
Definition f100_0 : spec_float := Eval vm_compute in lit 1000 10.

(** The defaulted metrics, the dict [m] of lines 117-126. *)
Record Metrics : Type := {
  industry_growth_3yr : pynum;
  net_profit_growth_5yr : pynum;
  pe_ratio : pynum;
  sector_pe : pynum;
  dividend_yield : pynum;
  dividend_years_consecutive : pynum;
  company_growth_rate : pynum;
  beta : pynum
}.

Definition defaulted (metrics : gmap string pynum) : Metrics := {|
  industry_growth_3yr := get metrics "industry_growth_3yr" (PyInt 0);
  net_profit_growth_5yr := get metrics "net_profit_growth_5yr" (PyInt 0);
  pe_ratio := get metrics "pe_ratio" (PyInt 0);
  sector_pe := get metrics "sector_pe" (PyInt 0);
  dividend_yield := get metrics "dividend_yield" (PyInt 0);
  dividend_years_consecutive := get metrics "dividend_years_consecutive" (PyInt 0);
  company_growth_rate := get metrics "company_growth_rate" (PyInt 0);
  beta := get metrics "beta" (PyFloat f1_0)
|}.

(** 1. Industry growth (lines 131-135). *)
Definition industry_score (ind_growth : pynum) : Z :=
  if ge ind_growth (PyInt 20) then 100
  else if ge ind_growth (PyInt 10) then 80
  else if ge ind_growth (PyInt 0) then 60
  else 0.

(** 2. Net profit growth (lines 138-143). *)
Definition profit_score (prof_growth : pynum) : Z :=
  if ge prof_growth (PyInt 20) then 100
  else if ge prof_growth (PyInt 10) then 80
  else if ge prof_growth (PyInt 5) then 60
  else if ge prof_growth (PyInt 0) then 40
  else 0.

(** 3. Margin of safety (lines 148-161). *)
Definition mos_pct (stock_pe sect_pe : pynum) : result pynum :=
  d ← sub sect_pe stock_pe; truediv d sect_pe.

Definition mos_tier (pct : pynum) : Z :=
  if gt pct (PyFloat f0_20) then 100
  else if ge pct (PyFloat f0_10) then 80
  else if ge pct (PyFloat (SFopp f0_10)) then 50
  else 0.

Definition mos_score (stock_pe sect_pe : pynum) : result Z :=
  if gt sect_pe (PyInt 0) then
    pct ← mos_pct stock_pe sect_pe; mret (mos_tier pct)
  else
    if gt stock_pe (PyInt 0) && lt stock_pe (PyInt 20) then Ok 50
    else Ok 0.

(** 4. Dividend yield (lines 165-174). *)
Definition yield_score (div_yield div_years : pynum) : Z :=
  if lt div_years (PyInt 5) then 0
  else
    if ge div_yield (PyInt 8) then 100
    else if ge div_yield (PyInt 5) then 80
    else if ge div_yield (PyInt 3) then 60
    else 30.

(** 5. Competitiveness (lines 178-188). *)
Definition competition_tier (diff : pynum) : Z :=
  if ge diff (PyInt 15) then 100
  else if ge diff (PyInt 5) then 80
  else if ge diff (PyInt (-5)) then 50
  else 20.

Definition competition_score (comp_growth ind_growth : pynum) : result Z :=
  diff ← sub comp_growth ind_growth; mret (competition_tier diff).

(** The dict [raw_scores], filled in the order of the source. *)
Definition raw_scores (m : Metrics) : result (gmap string Z) :=
  let rs : gmap string Z := ∅ in
  let rs := <["industry" := industry_score (industry_growth_3yr m)]> rs in
  let rs := <["profit" := profit_score (net_profit_growth_5yr m)]> rs in
  mos ← mos_score (pe_ratio m) (sector_pe m);
  let rs := <["mos" := mos]> rs in
  let rs := <["yield" :=
    yield_score (dividend_yield m) (dividend_years_consecutive m)]> rs in
  comp ← competition_score (company_growth_rate m) (industry_growth_3yr m);
  mret (<["competition" := comp]> rs).

(** [raw_scores[k]]; every key read below has been written above. *)
Definition item (rs : gmap string Z) (k : string) : pynum :=
  PyInt (default 0 (rs !! k)).

(** Step A: the weighted sum divided by [100.0] (lines 192-204). *)
Definition base_score (rs : gmap string Z) (weights : gmap string pynum)
    : result spec_float :=
  let w_ind := get weights "industry" (PyInt 15) in
  let w_prof := get weights "profit" (PyInt 25) in
  let w_mos := get weights "mos" (PyInt 25) in
  let w_yield := get weights "yield_val" (PyInt 20) in
  let w_comp := get weights "competition" (PyInt 15) in
  t1 ← mul (item rs "industry") w_ind;
  t2 ← mul (item rs "profit") w_prof;
  s ← add t1 t2;
  t3 ← mul (item rs "mos") w_mos;
  s ← add s t3;
  t4 ← mul (item rs "yield") w_yield;
  s ← add s t4;
  t5 ← mul (item rs "competition") w_comp;
  s ← add s t5;
  q ← truediv s (PyFloat f100_0);
  to_float q.

(** Step B: the risk multiplier (lines 207-220). *)
Definition risk_multiplier (target_return beta : pynum) : spec_float :=
  if lt target_return (PyInt 10) then
    if lt beta (PyFloat f0_8) then f1_0
    else if le beta (PyFloat f1_2) then f0_9
    else f0_5
  else if ge target_return (PyInt 15) then
    if ge beta (PyFloat f1_2) && le beta (PyFloat f2_5) then f1_0
    else if ge beta (PyFloat f0_9) && lt beta (PyFloat f1_2) then f0_9
    else f0_6
  else
    if ge beta (PyFloat f0_7) && le beta (PyFloat f1_5) then f1_0
    else f0_8.

(** Step C: the grade of the unrounded final score (lines 225-227). *)
Definition grade_of (final_score : spec_float) : string :=
  if ge (PyFloat final_score) (PyInt 80) then "A"
  else if ge (PyFloat final_score) (PyInt 60) then "B"
  else "C".

(** The returned dict (lines 229-235). *)
Record ScoreReport : Type := {
  baseScore : spec_float;
  finalScore : Z;
  grade : string;
  riskMult : spec_float;
  rawScores : gmap string Z
}.

Definition calculate_master_score
    (metrics weights : gmap string pynum) (target_return : pynum)
    : result ScoreReport :=
  let m := defaulted metrics in
  rs ← raw_scores m;
  base ← base_score rs weights;
  let risk_mult := risk_multiplier target_return (beta m) in
  let final_score := SFmul prec emax base risk_mult in
  let grade := grade_of final_score in
  let reported := round1 base in
  final ← to_int final_score;
  mret {| baseScore := reported; finalScore := final; grade := grade;
          riskMult := risk_mult; rawScores := rs |}.

End Scoring.

Import PyNum Scoring.

(** ** Inputs and predicates of the statements *)

(** *** Recognized keys *)

Definition metric_keys : list string :=
  ["industry_growth_3yr"; "net_profit_growth_5yr"; "pe_ratio"; "sector_pe";
   "dividend_yield"; "dividend_years_consecutive"; "company_growth_rate";
   "beta"].

Definition weight_keys : list string :=
  ["industry"; "profit"; "mos"; "yield_val"; "competition"].

(** *** The dict of sub-scores a report carries *)

Definition scores_dict (ind prof mos yld comp : Z) : gmap string Z :=
  <["competition" := comp]> (<["yield" := yld]> (<["mos" := mos]>
    (<["profit" := prof]> (<["industry" := ind]> ∅)))).

(** *** Concrete inputs *)

Definition scenario1_metrics : gmap string pynum :=
  <["industry_growth_3yr" := PyInt 25]> (
  <["net_profit_growth_5yr" := PyInt 22]> (
  <["pe_ratio" := PyInt 10]> (
  <["sector_pe" := PyInt 15]> (
  <["dividend_yield" := PyInt 9]> (
  <["dividend_years_consecutive" := PyInt 6]> (
  <["company_growth_rate" := PyInt 30]> (
  <["beta" := PyFloat (lit 10 10)]> ∅))))))).

Definition default_weights : gmap string pynum :=
  <["industry" := PyInt 15]> (<["profit" := PyInt 25]> (<["mos" := PyInt 25]> (
  <["yield_val" := PyInt 20]> (<["competition" := PyInt 15]> ∅)))).

Definition zero_weights : gmap string pynum :=
  <["industry" := PyInt 0]> (<["profit" := PyInt 0]> (<["mos" := PyInt 0]> (
  <["yield_val" := PyInt 0]> (<["competition" := PyInt 0]> ∅)))).

(** Degenerate but in-range inputs: negative growth, zero P/E, negative
    sector P/E, NaN yield, infinite company growth, beta 0, weights that sum
    to 150 with a negative one. *)
Definition degenerate_metrics : gmap string pynum :=
  <["industry_growth_3yr" := PyFloat (lit (-75) 10)]> (
  <["net_profit_growth_5yr" := PyInt (-3)]> (
  <["pe_ratio" := PyInt 0]> (
  <["sector_pe" := PyInt (-4)]> (
  <["dividend_yield" := PyFloat S754_nan]> (
  <["company_growth_rate" := PyFloat (S754_infinity false)]> (
  <["beta" := PyInt 0]> ∅)))))).

Definition unbalanced_weights : gmap string pynum :=
  <["industry" := PyInt 40]> (<["profit" := PyInt 40]> (<["mos" := PyInt 40]> (
  <["yield_val" := PyInt 40]> (<["competition" := PyInt (-10)]> ∅)))).

(** *** Ranges and outcomes *)

(** An int is in range when its magnitude is below [2^1000]; floats are not
    restricted (they may be negative, zero, infinite or NaN). *)
Definition in_range (x : pynum) : Prop :=
  match x with
  | PyInt z => Z.abs z < 2 ^ 1000
  | PyFloat _ => True
  end.

Definition int_in_range (x : pynum) : Prop :=
  match x with
  | PyInt z => Z.abs z < 2 ^ 1000
  | PyFloat _ => False
  end.

Definition no_zdiv {A} (r : result A) : Prop := r <> Raise ZeroDivisionError.

(** *** Exponent function and magnitude of binary64 values *)

Definition fexp64 (e : Z) : Z := Z.max (e - 53) (-1074).

(** [small K f]: [f] is a zero or a finite float below [2^K] whose exponent
    is representable. *)
Definition small (K : Z) (f : spec_float) : Prop :=
  match f with
  | S754_zero _ => True
  | S754_finite _ m e => Zdigits2 (Z.pos m) + e <= K /\ e <= 971
  | _ => False
  end.

(** *** Inputs and predicates of the further properties *)

(** The values [calculate_master_score] reads for absent metric keys (lines
    118-125); [default_weights] above holds those of the absent weight keys
    (lines 192-196). *)
Definition default_metrics : gmap string pynum :=
  <["industry_growth_3yr" := PyInt 0]> (
  <["net_profit_growth_5yr" := PyInt 0]> (
  <["pe_ratio" := PyInt 0]> (
  <["sector_pe" := PyInt 0]> (
  <["dividend_yield" := PyInt 0]> (
  <["dividend_years_consecutive" := PyInt 0]> (
  <["company_growth_rate" := PyInt 0]> (
  <["beta" := PyFloat f1_0]> ∅))))))).

Definition nan : pynum := PyFloat S754_nan.

(** A float of the binary64 format: the mantissa of a finite value has at
    most 53 bits, and exactly 53 unless the exponent is the least one.  Every
    float of a Python program is canonical; ints are unrestricted. *)
Definition canonical (x : pynum) : Prop :=
  match x with
  | PyFloat (S754_finite _ m e) => fexp64 (Zdigits2 (Z.pos m) + e) = e
  | _ => True
  end.

(** Neither an infinity nor a NaN. *)
Definition finite_valued (x : pynum) : Prop :=
  match x with
  | PyFloat (S754_infinity _) | PyFloat S754_nan => False
  | _ => True
  end.

(** The value of a finite number, scaled by [2^E]. *)
Definition scaled (x : pynum) (E : Z) : Z :=
  match x with
  | PyInt z => z * 2 ^ E
  | PyFloat (S754_finite s m e) =>
    (if s then Z.neg m else Z.pos m) * 2 ^ (e + E)
  | PyFloat _ => 0
  end.

Definition exponent (x : pynum) : Z :=
  match x with PyFloat (S754_finite _ _ e) => e | _ => 0 end.

(** [2^E] clears the exponent of [x]: [scaled x E] is the exact value. *)
Definition clears (E : Z) (x : pynum) : Prop :=
  0 <= E /\ 0 <= exponent x + E.

(** The five values the risk multiplier takes. *)
Definition risk_values : list spec_float := [f0_5; f0_6; f0_8; f0_9; f1_0].

(** For a weighted sum [s] of sub-scores: the base score [s / 100.0] rounds
    to a value in [0, 100] and every risk-adjusted score truncates to an int
    in [0, 100]. *)
Definition in_score_range (s : Z) : bool :=
  match int_to_float s with
  | Ok f =>
    let base := SFdiv prec emax f f100_0 in
    le (PyInt 0) (PyFloat (round1 base)) &&
    le (PyFloat (round1 base)) (PyInt 100) &&
    forallb (fun c =>
      match to_int (SFmul prec emax base c) with
      | Ok n => (0 <=? n) && (n <=? 100)
      | Raise _ => false
      end) risk_values
  | Raise _ => false
  end.

(** The final score of a weighted sum [s] under the multiplier [c]:
    [int(s / 100.0 * c)], and 0 where the source raises. *)
Definition final_of (s : Z) (c : spec_float) : Z :=
  match int_to_float s with
  | Ok f =>
    match to_int (SFmul prec emax (SFdiv prec emax f f100_0) c) with
    | Ok n => n
    | Raise _ => 0
    end
  | Raise _ => 0
  end.

Fixpoint nondecreasing (l : list Z) : bool :=
  match l with
  | x :: (y :: _) as t => (x <=? y) && nondecreasing t
  | _ => true
  end.

(** ** The project store (database.py) *)

Module Database.

(** A JSON value, as the untyped fields of a project hold them. *)
#[local] Unset Elimination Schemes.
Inductive json : Type :=
  | JNull
  | JBool (b : bool)
  | JNumber (x : pynum)
  | JString (s : string)
  | JArray (l : list json)
  | JObject (o : list (string * json)).
#[local] Set Elimination Schemes.

(** The dict of a project as the endpoint [save_project] of app.py passes
    it: [model_dump()] of a [ProjectData] (app.py, lines 54-61), whose [id]
    and [name] are strings. *)
Record ProjectData : Type := {
  id : string;
  name : string;
  stocks : list json;
  weights : list (string * json);
  targetReturn : spec_float;
  chatHistory : list json;
  portfolioStrategy : option string
}.

(** A row of the table [projects] (lines 19-23): [id TEXT PRIMARY KEY],
    [name TEXT NOT NULL], [data TEXT NOT NULL]. *)
Record Row : Type := {
  row_id : string;
  row_name : string;
  row_data : string
}.

(** The table: its rows in rowid order, the order of a full scan. *)
Abbreviation Table := (list Row).

(** [DELETE FROM projects WHERE id = ?]. *)
Definition sql_delete (project_id : string) (t : Table) : Table :=
  filter (fun r => row_id r <> project_id) t.

(** [INSERT OR REPLACE INTO projects (id, name, data) VALUES (?, ?, ?)]: the
    row that holds the primary key, if any, is deleted and the new row is
    added with a fresh rowid. *)
Definition sql_insert_or_replace (r : Row) (t : Table) : Table :=
  sql_delete (row_id r) t ++ [r].

(** [SELECT data FROM projects]. *)
Definition sql_select_data (t : Table) : list string := map row_data t.

(** [init_db] (lines 12-26): [CREATE TABLE IF NOT EXISTS] on a database file
    that holds the table or not. *)
Definition init_db (file : option Table) : Table := default [] file.

Section Store.

(** [json.dumps] and [json.loads] are the library's. *)
Variable dumps : ProjectData -> string.
Variable loads : string -> result json.

(** [save_project] (lines 34-45). *)
Definition save_project (project_data : ProjectData) (t : Table) : Table :=
  let project_id := id project_data in
  let name := name project_data in
  let data_json := dumps project_data in
  sql_insert_or_replace
    {| row_id := project_id; row_name := name; row_data := data_json |} t.

(** [delete_project] (lines 47-51). *)
Definition delete_project (project_id : string) (t : Table) : Table :=
  sql_delete project_id t.

(** The list comprehension of [get_all_projects]: the first row that does
    not parse raises. *)
Fixpoint load_all (rows : list string) : result (list json) :=
  match rows with
  | [] => Ok []
  | data :: rows => p ← loads data; ps ← load_all rows; mret (p :: ps)
  end.

(** [get_all_projects] (lines 28-32). *)
Definition get_all_projects (t : Table) : result (list json) :=
  load_all (sql_select_data t).

(** The tables the functions produce from a fresh database file. *)
Inductive reachable : Table -> Prop :=
  | reach_init : reachable (init_db None)
  | reach_save p t : reachable t -> reachable (save_project p t)
  | reach_delete i t : reachable t -> reachable (delete_project i t).

End Store.

(** The primary keys of a table. *)
Definition ids (t : Table) : list string := map row_id t.

End Database.

(** A project with no stocks. *)
Definition sample_project (id name : string) : Database.ProjectData :=
  {| Database.id := id; Database.name := name; Database.stocks := [];
     Database.weights := []; Database.targetReturn := f1_0;
     Database.chatHistory := []; Database.portfolioStrategy := None |}.

(** ** Facts about comparisons *)

Module PyNumFacts.
Import PyNum.

Lemma ge_not_lt x y : ge x y = true -> lt x y = false.
Proof. unfold ge, lt. destruct (compare x y) as [[]|]; congruence. Qed.

Lemma gt_not_le x y : gt x y = true -> le x y = false.
Proof. unfold gt, le. destruct (compare x y) as [[]|]; congruence. Qed.

Lemma le_not_gt x y : le x y = true -> gt x y = false.
Proof. unfold gt, le. destruct (compare x y) as [[]|]; congruence. Qed.

Lemma lt_not_ge x y : lt x y = true -> ge x y = false.
Proof. unfold ge, lt. destruct (compare x y) as [[]|]; congruence. Qed.

Lemma pow2_pos (k : positive) : 0 < 2 ^ Z.pos k.
Proof. apply Z.pow_pos_nonneg; lia. Qed.

Lemma pow2_nonneg_pos (e : Z) : 0 <= e -> 0 < 2 ^ e.
Proof. intros. apply Z.pow_pos_nonneg; lia. Qed.

(** The exact comparison of an int with a finite float is monotone in the
    int. *)
Lemma Zcompare_finite_mono a b s m e :
  a <= b -> Zcompare_finite b s m e <> Gt -> Zcompare_finite a s m e <> Gt.
Proof.
  intros Hab. unfold Zcompare_finite.
  destruct e as [|k|k]; rewrite !Z.compare_gt_iff.
  - lia.
  - lia.
  - pose proof (pow2_pos k). nia.
Qed.

Lemma int_float_compare_mono a b f c :
  a <= b -> int_float_compare b f = Some c -> c <> Gt ->
  exists c', int_float_compare a f = Some c' /\ c' <> Gt.
Proof.
  intros Hab. destruct f as [s|s| |s m e]; simpl; intros [= <-] Hc.
  - eexists; split; [reflexivity|]. rewrite Z.compare_gt_iff in *. lia.
  - eexists; split; [reflexivity|]. exact Hc.
  - eexists; split; [reflexivity|]. eapply Zcompare_finite_mono; eauto.
Qed.

(** [x >= b] rules out [x < a] for int constants [a <= b]. *)
Lemma ge_int_not_lt_int x a b :
  a <= b -> ge x (PyInt b) = true -> lt x (PyInt a) = false.
Proof.
  intros Hab. unfold ge, lt. destruct x as [z|f]; simpl.
  - destruct (Z.compare_spec z b), (Z.compare_spec z a); try congruence; lia.
  - destruct (int_float_compare b f) as [c|] eqn:Hb; simpl; [|congruence].
    intros Hc.
    destruct (int_float_compare_mono a b f c Hab Hb) as (c' & -> & Hc').
    + destruct c; simpl in Hc; congruence.
    + simpl. destruct c'; simpl; congruence.
Qed.

End PyNumFacts.

(** ** Facts about rounding

    Digits, right shifts and the two stages of [binary_round_aux], from the
    definitions of [SpecFloat]. *)

Module RoundFacts.
Import PyNum Scoring PyNumFacts.

Lemma digits2_pos_size p : digits2_pos p = Pos.size p.
Proof. induction p; simpl; congruence. Qed.

Lemma Zdigits2_log2 m : 0 < m -> Zdigits2 m = Z.log2 m + 1.
Proof.
  destruct m as [|p|p]; try lia. intros _. simpl.
  rewrite digits2_pos_size. destruct p; simpl; lia.
Qed.

Lemma Zdigits2_nonneg m : 0 <= Zdigits2 m.
Proof. destruct m; simpl; lia. Qed.

Lemma Zdigits2_pos m : 0 < m -> 0 < Zdigits2 m.
Proof. destruct m; simpl; lia. Qed.

Lemma Zdigits2_lt_pow2 m k : 0 <= m -> 0 <= k -> m < 2 ^ k <-> Zdigits2 m <= k.
Proof.
  intros Hm Hk. destruct (Z.eq_dec m 0) as [->|Hne].
  - simpl. pose proof (Z.pow_pos_nonneg 2 k). lia.
  - rewrite Zdigits2_log2, Z.log2_lt_pow2 by lia. lia.
Qed.

Lemma Zdigits2_le_pow2 m k : 0 < m -> 0 <= k -> 2 ^ k <= m <-> k < Zdigits2 m.
Proof. intros. rewrite Zdigits2_log2, Z.log2_le_pow2 by lia. lia. Qed.

Lemma Zdigits2_mono a b : 0 <= a <= b -> Zdigits2 a <= Zdigits2 b.
Proof.
  intros [Ha Hab]. destruct (Z.eq_dec a 0) as [->|Hne].
  - apply Zdigits2_nonneg.
  - rewrite !Zdigits2_log2 by lia. pose proof (Z.log2_le_mono a b Hab). lia.
Qed.

Lemma Zdigits2_div_pow2 m n :
  0 <= m -> 0 <= n -> Zdigits2 (m / 2 ^ n) = Z.max 0 (Zdigits2 m - n).
Proof.
  intros Hm Hn. pose proof (Z.pow_pos_nonneg 2 n ltac:(lia) Hn) as Hp.
  destruct (Z.eq_dec m 0) as [->|Hne].
  { rewrite Z.div_0_l by lia. simpl. lia. }
  destruct (Z.lt_ge_cases m (2 ^ n)) as [Hlt|Hge].
  - rewrite Z.div_small by lia.
    apply Zdigits2_lt_pow2 in Hlt; try lia. simpl. lia.
  - assert (0 < m / 2 ^ n) by (apply Z.div_str_pos; lia).
    rewrite !Zdigits2_log2 by lia.
    rewrite <- Z.shiftr_div_pow2, Z.log2_shiftr by lia.
    apply Z.log2_le_pow2 in Hge; lia.
Qed.

Lemma Zdigits2_succ m : 0 <= m -> Zdigits2 (m + 1) <= Zdigits2 m + 1.
Proof.
  intros Hm. destruct (Z.eq_dec m 0) as [->|Hne]; [simpl; lia|].
  rewrite !Zdigits2_log2 by lia. pose proof (Z.log2_succ_le m) as H.
  unfold Z.succ in H. lia.
Qed.

Lemma Zdigits2_mul_pow2 m n :
  0 < m -> 0 <= n -> Zdigits2 (m * 2 ^ n) = Zdigits2 m + n.
Proof.
  intros Hm Hn. pose proof (Z.pow_pos_nonneg 2 n ltac:(lia) Hn).
  rewrite !Zdigits2_log2 by nia. rewrite Z.log2_mul_pow2 by lia. lia.
Qed.

Lemma Zdigits2_mul a b : 0 <= a -> 0 <= b -> Zdigits2 (a * b) <= Zdigits2 a + Zdigits2 b.
Proof.
  intros Ha Hb.
  destruct (Z.eq_dec a 0) as [->|Hna]; [simpl; apply Zdigits2_nonneg|].
  destruct (Z.eq_dec b 0) as [->|Hnb].
  { rewrite Z.mul_0_r. simpl. pose proof (Zdigits2_nonneg a). lia. }
  rewrite !Zdigits2_log2 by nia. pose proof (Z.log2_mul_above a b). lia.
Qed.

(** *** Right shifts *)

Lemma iter_pos_iter {A} (f : A -> A) p x :
  SpecFloat.iter_pos f p x = Pos.iter f x p.
Proof.
  revert x. induction p as [p IH|p IH|]; intros x; simpl.
  - rewrite !IH. by rewrite <- !Pos.iter_swap.
  - by rewrite !IH.
  - done.
Qed.

Lemma shr_1_m mrs : 0 <= shr_m mrs -> shr_m (shr_1 mrs) = shr_m mrs / 2.
Proof.
  destruct mrs as [m r s]. cbn [shr_m]. intros Hm.
  destruct m as [|[p|p|]|p]; try lia; cbn [shr_1 shr_m]; try reflexivity.
  - apply Z.div_unique with 1; lia.
  - apply Z.div_unique with 0; lia.
Qed.

Lemma shr_m_iter p mrs :
  0 <= shr_m mrs ->
  shr_m (SpecFloat.iter_pos shr_1 p mrs) = shr_m mrs / 2 ^ Z.pos p.
Proof.
  intros Hm. rewrite iter_pos_iter.
  induction p as [|p IH] using Pos.peano_ind.
  - simpl. by apply shr_1_m.
  - rewrite Pos.iter_succ, shr_1_m, IH.
    + rewrite Pos2Z.inj_succ, Z.pow_succ_r by lia.
      rewrite Z.div_div by (try apply Z.pow_pos_nonneg; lia).
      f_equal. lia.
    + rewrite IH. apply Z.div_pos; [lia|]. apply Z.pow_pos_nonneg; lia.
Qed.

Lemma shr_record_of_loc_m m l : shr_m (shr_record_of_loc m l) = m.
Proof. by destruct l as [|[]]. Qed.

Lemma fexp_eq e : fexp prec emax e = fexp64 e.
Proof. reflexivity. Qed.

Lemma shr_fexp_spec m e l :
  0 <= m ->
  snd (shr_fexp prec emax m e l) = Z.max e (fexp64 (Zdigits2 m + e)) /\
  shr_m (fst (shr_fexp prec emax m e l)) =
    m / 2 ^ (Z.max e (fexp64 (Zdigits2 m + e)) - e).
Proof.
  intros Hm. unfold shr_fexp, shr. rewrite fexp_eq.
  destruct (fexp64 (Zdigits2 m + e) - e) as [|n|n] eqn:Hn; simpl.
  - rewrite shr_record_of_loc_m.
    replace (Z.max e _ - e) with 0 by lia. rewrite Z.div_1_r. lia.
  - rewrite shr_m_iter by (rewrite shr_record_of_loc_m; lia).
    rewrite shr_record_of_loc_m.
    replace (Z.max e _ - e) with (Z.pos n) by lia. lia.
  - rewrite shr_record_of_loc_m.
    replace (Z.max e _ - e) with 0 by lia. rewrite Z.div_1_r. lia.
Qed.

Lemma round_nearest_even_bounds m l :
  m <= round_nearest_even m l <= m + 1.
Proof. destruct l as [|[]]; simpl; try lia. destruct (Z.even m); lia. Qed.

(** The two-stage structure of [binary_round_aux]: a first shift to the
    canonical exponent, rounding by at most one unit, a second shift. *)
Lemma binary_round_aux_spec s mx ex lx :
  0 <= mx ->
  exists m2,
    let e1 := Z.max ex (fexp64 (Zdigits2 mx + ex)) in
    let e2 := Z.max e1 (fexp64 (Zdigits2 m2 + e1)) in
    mx / 2 ^ (e1 - ex) <= m2 <= mx / 2 ^ (e1 - ex) + 1 /\
    binary_round_aux prec emax s mx ex lx =
      match m2 / 2 ^ (e2 - e1) with
      | 0 => S754_zero s
      | Z.pos m => if e2 <=? 971 then S754_finite s m e2 else S754_infinity s
      | Z.neg _ => S754_nan
      end.
Proof.
  intros Hm. unfold binary_round_aux.
  destruct (shr_fexp_spec mx ex lx Hm) as [He1 Hm1].
  destruct (shr_fexp prec emax mx ex lx) as [mrs' e'] eqn:E1. simpl in He1, Hm1.
  set (m2 := round_nearest_even (shr_m mrs') (loc_of_shr_record mrs')).
  exists m2. cbv zeta.
  pose proof (round_nearest_even_bounds (shr_m mrs') (loc_of_shr_record mrs')) as Hb.
  fold m2 in Hb. rewrite Hm1 in Hb. split; [exact Hb|].
  assert (0 <= m2).
  { assert (0 <= mx / 2 ^ (Z.max ex (fexp64 (Zdigits2 mx + ex)) - ex)); [|lia].
    apply Z.div_pos; [lia|]. apply Z.pow_pos_nonneg; lia. }
  destruct (shr_fexp_spec m2 e' loc_Exact ltac:(lia)) as [He2 Hm3].
  destruct (shr_fexp prec emax m2 e' loc_Exact) as [mrs'' e''] eqn:E2.
  simpl in He2, Hm3. subst e' e''. rewrite Hm3. reflexivity.
Qed.

(** *** Magnitude: finite results and no overflow *)

Lemma small_mono K K' f : K <= K' -> small K f -> small K' f.
Proof. destruct f; simpl; auto. lia. Qed.

Lemma small_to_int K f : small K f -> returns (to_int f).
Proof. destruct f; simpl; try done; intros _; eexists; reflexivity. Qed.

Lemma div_pow2_nonneg m n : 0 <= m -> 0 <= n -> 0 <= m / 2 ^ n.
Proof. intros. apply Z.div_pos; [lia | apply Z.pow_pos_nonneg; lia]. Qed.

Lemma binary_round_aux_small s mx ex lx K :
  0 <= mx -> ex <= 971 -> Zdigits2 mx + ex <= K -> -1074 <= K <= 1023 ->
  small (K + 1) (binary_round_aux prec emax s mx ex lx).
Proof.
  intros Hm Hex HD HK.
  destruct (binary_round_aux_spec s mx ex lx Hm) as (m2 & Hm2 & ->).
  cbv zeta in Hm2.
  set (e1 := Z.max ex (fexp64 (Zdigits2 mx + ex))) in *.
  set (e2 := Z.max e1 (fexp64 (Zdigits2 m2 + e1))).
  pose proof (Zdigits2_nonneg mx) as Hdx.
  assert (He1 : ex <= e1 /\ e1 <= 971 /\ e1 <= K) by (unfold e1, fexp64; lia).
  pose proof (div_pow2_nonneg mx (e1 - ex) Hm ltac:(lia)) as Hm1.
  pose proof (Zdigits2_div_pow2 mx (e1 - ex) Hm ltac:(lia)) as Hd1.
  assert (Hd2 : Zdigits2 m2 <= Zdigits2 (mx / 2 ^ (e1 - ex)) + 1).
  { etransitivity; [apply (Zdigits2_mono m2 (mx / 2 ^ (e1 - ex) + 1)); lia|].
    apply Zdigits2_succ; lia. }
  assert (He2 : e1 <= e2 /\ e2 <= 971) by (unfold e2, fexp64; lia).
  pose proof (div_pow2_nonneg m2 (e2 - e1) ltac:(lia) ltac:(lia)) as Hm3.
  pose proof (Zdigits2_div_pow2 m2 (e2 - e1) ltac:(lia) ltac:(lia)) as Hd3.
  destruct (m2 / 2 ^ (e2 - e1)) as [|m3|m3] eqn:E3; [exact I| |lia].
  replace (e2 <=? 971) with true by (symmetry; apply Z.leb_le; lia).
  change (Zdigits2 (Z.pos m3) + e2 <= K + 1 /\ e2 <= 971).
  pose proof (Zdigits2_pos (Z.pos m3) ltac:(lia)). lia.
Qed.

Lemma binary_round_aux_nonzero s mx ex lx :
  0 < mx -> -1074 < Zdigits2 mx + ex ->
  is_zero (binary_round_aux prec emax s mx ex lx) = false.
Proof.
  intros Hm HD.
  destruct (binary_round_aux_spec s mx ex lx ltac:(lia)) as (m2 & Hm2 & ->).
  cbv zeta in Hm2.
  set (e1 := Z.max ex (fexp64 (Zdigits2 mx + ex))) in *.
  set (e2 := Z.max e1 (fexp64 (Zdigits2 m2 + e1))).
  pose proof (Zdigits2_pos mx Hm) as Hdx.
  assert (He1 : ex <= e1 /\ -1074 <= e1 /\ e1 < Zdigits2 mx + ex)
    by (unfold e1, fexp64; lia).
  pose proof (div_pow2_nonneg mx (e1 - ex) ltac:(lia) ltac:(lia)) as Hm1.
  pose proof (Zdigits2_div_pow2 mx (e1 - ex) ltac:(lia) ltac:(lia)) as Hd1.
  assert (H1 : 0 < mx / 2 ^ (e1 - ex)).
  { destruct (Z.eq_dec (mx / 2 ^ (e1 - ex)) 0) as [E|]; [|lia].
    rewrite E in Hd1. simpl in Hd1. lia. }
  pose proof (Zdigits2_pos m2 ltac:(lia)) as Hd2.
  assert (He2 : e1 <= e2 /\ e2 < Zdigits2 m2 + e1) by (unfold e2, fexp64; lia).
  pose proof (div_pow2_nonneg m2 (e2 - e1) ltac:(lia) ltac:(lia)) as Hm3.
  pose proof (Zdigits2_div_pow2 m2 (e2 - e1) ltac:(lia) ltac:(lia)) as Hd3.
  destruct (m2 / 2 ^ (e2 - e1)) as [|m3|m3] eqn:E3; [simpl in Hd3; lia| |lia].
  by destruct (e2 <=? 971).
Qed.

(** *** int -> float *)

Lemma iter_xO p d : Z.pos (Pos.iter xO p d) = Z.pos p * 2 ^ Z.pos d.
Proof.
  induction d as [|d IH] using Pos.peano_ind.
  - simpl. lia.
  - rewrite Pos.iter_succ, Pos2Z.inj_xO, IH, Pos2Z.inj_succ, Z.pow_succ_r; lia.
Qed.

Lemma shl_align_spec mx ex ex' :
  snd (shl_align mx ex ex') = Z.min ex ex' /\
  Z.pos (fst (shl_align mx ex ex')) = Z.pos mx * 2 ^ (ex - Z.min ex ex').
Proof.
  unfold shl_align. destruct (ex' - ex) as [|d|d] eqn:E; simpl.
  - replace (ex - Z.min ex ex') with 0 by lia. lia.
  - replace (ex - Z.min ex ex') with 0 by lia. lia.
  - rewrite iter_xO. replace (ex - Z.min ex ex') with (Z.pos d) by lia. lia.
Qed.

Lemma Zdigits2_abs z : Zdigits2 (Z.abs z) = Zdigits2 z.
Proof. by destruct z. Qed.

Lemma Zdigits2_abs_lt z K : 0 <= K -> Z.abs z < 2 ^ K -> Zdigits2 z <= K.
Proof.
  intros HK Hz. rewrite <- Zdigits2_abs. apply Zdigits2_lt_pow2; lia.
Qed.

Lemma binary_round_small s m K :
  Zdigits2 (Z.pos m) <= K -> 0 <= K <= 1023 ->
  small (K + 1) (binary_round prec emax s m 0) /\
  is_zero (binary_round prec emax s m 0) = false.
Proof.
  intros Hd HK. unfold binary_round.
  destruct (shl_align_spec m 0 (fexp prec emax (Z.pos (digits2_pos m) + 0)))
    as [Hez Hmz].
  destruct (shl_align m 0 _) as [mz ez]. simpl in Hez, Hmz.
  pose proof (Zdigits2_pos (Z.pos m) ltac:(lia)) as Hpos.
  assert (Hdz : Zdigits2 (Z.pos mz) + ez = Zdigits2 (Z.pos m)).
  { rewrite Hmz, Zdigits2_mul_pow2 by lia. lia. }
  split.
  - apply binary_round_aux_small; lia.
  - apply binary_round_aux_nonzero; lia.
Qed.

Lemma int_to_float_small z K :
  Zdigits2 z <= K -> 0 <= K <= 1023 ->
  exists f, int_to_float z = Ok f /\ small (K + 1) f /\
            (z <> 0 -> is_zero f = false).
Proof.
  intros Hd HK. unfold int_to_float, binary_normalize.
  destruct z as [|m|m].
  - eexists. by repeat split.
  - destruct (binary_round_small false m K Hd HK) as [Hs Hz].
    destruct (binary_round prec emax false m 0); try done;
      (eexists; split; [reflexivity|]; by split).
  - destruct (binary_round_small true m K Hd HK) as [Hs Hz].
    destruct (binary_round prec emax true m 0); try done;
      (eexists; split; [reflexivity|]; by split).
Qed.

(** Without a bound the conversion can only overflow, and never yields a
    zero for a nonzero int. *)
Lemma int_to_float_nonzero z f :
  int_to_float z = Ok f -> z <> 0 -> is_zero f = false.
Proof.
  unfold int_to_float, binary_normalize. intros H Hz.
  assert (Hb : forall s m, is_zero (binary_round prec emax s m 0) = false).
  { intros s m. unfold binary_round.
    destruct (shl_align_spec m 0 (fexp prec emax (Z.pos (digits2_pos m) + 0)))
      as [Hez Hmz].
    destruct (shl_align m 0 _) as [mz ez]. simpl in Hez, Hmz.
    pose proof (Zdigits2_pos (Z.pos m) ltac:(lia)) as Hpos.
    apply binary_round_aux_nonzero; [lia|].
    rewrite Hmz, Zdigits2_mul_pow2 by lia. lia. }
  destruct z as [|m|m]; [done| |].
  - specialize (Hb false m). destruct (binary_round _ _ _ _ _); by inversion H; subst.
  - specialize (Hb true m). destruct (binary_round _ _ _ _ _); by inversion H; subst.
Qed.

(** *** Division *)

Lemma Zdigits2_div a b :
  0 <= a -> 0 < b -> Zdigits2 (a / b) <= Z.max 0 (Zdigits2 a - Zdigits2 b + 1).
Proof.
  intros Ha Hb.
  assert (Hq : 0 <= a / b) by (apply Z.div_pos; lia).
  destruct (Z.eq_dec (a / b) 0) as [->|Hne]; [simpl; lia|].
  assert (Hab : b <= a).
  { destruct (Z.lt_ge_cases a b); [|lia]. rewrite Z.div_small in Hne; lia. }
  pose proof (Zdigits2_mono b a ltac:(lia)) as Hmono.
  pose proof (Zdigits2_pos b Hb) as Hdb.
  assert (Hlt : a / b < 2 ^ (Zdigits2 a - Zdigits2 b + 1)).
  { apply Z.div_lt_upper_bound; [lia|].
    assert (Ha' : a < 2 ^ Zdigits2 a) by (apply Zdigits2_lt_pow2; lia).
    assert (Hb' : 2 ^ (Zdigits2 b - 1) <= b) by (apply Zdigits2_le_pow2; lia).
    replace (Zdigits2 a)
      with ((Zdigits2 b - 1) + (Zdigits2 a - Zdigits2 b + 1)) in Ha' by lia.
    rewrite Z.pow_add_r in Ha' by lia.
    pose proof (Z.pow_pos_nonneg 2 (Zdigits2 a - Zdigits2 b + 1)
                  ltac:(lia) ltac:(lia)).
    nia. }
  apply Zdigits2_lt_pow2 in Hlt; lia.
Qed.

Lemma SFdiv_core_binary_spec m1 e1 m2 e2 :
  0 < m1 -> 0 < m2 ->
  exists l,
    SFdiv_core_binary prec emax m1 e1 m2 e2 =
      (m1 * 2 ^ (e1 - e2 -
                 Z.min (fexp64 (Zdigits2 m1 + e1 - (Zdigits2 m2 + e2))) (e1 - e2))
         / m2,
       Z.min (fexp64 (Zdigits2 m1 + e1 - (Zdigits2 m2 + e2))) (e1 - e2), l).
Proof.
  intros H1 H2. unfold SFdiv_core_binary. rewrite fexp_eq.
  set (e' := Z.min (fexp64 (Zdigits2 m1 + e1 - (Zdigits2 m2 + e2))) (e1 - e2)).
  set (m' := match e1 - e2 - e' with
             | 0 => m1 | Z.pos _ => Z.shiftl m1 (e1 - e2 - e') | Z.neg _ => 0
             end).
  assert (Hm' : m' = m1 * 2 ^ (e1 - e2 - e')).
  { unfold m'. destruct (e1 - e2 - e') as [|s|s] eqn:E.
    - simpl. lia.
    - apply Z.shiftl_mul_pow2. lia.
    - unfold e' in E. lia. }
  rewrite <- Hm'. unfold Z.div.
  destruct (Z.div_eucl m' m2) as [q r]. eexists. reflexivity.
Qed.

Lemma nearest_quotient_small a b K :
  b <> 0 -> Zdigits2 a <= K -> 0 <= K <= 1023 ->
  small (K + 1) (nearest_quotient a b).
Proof.
  intros Hb Hd HK. unfold nearest_quotient.
  destruct (Z.eq_dec a 0) as [->|Ha]; [exact I|].
  assert (Hcore : small (K + 1)
            (let '(q, e, l) :=
               SFdiv_core_binary prec emax (Z.abs a) 0 (Z.abs b) 0 in
             binary_round_aux prec emax (xorb (a <? 0) (b <? 0)) q e l)).
  { destruct (SFdiv_core_binary_spec (Z.abs a) 0 (Z.abs b) 0)
      as (l & ->); [lia..|].
    rewrite !Z.add_0_r, !Zdigits2_abs, Z.sub_0_r.
    set (e' := Z.min (fexp64 (Zdigits2 a - Zdigits2 b)) 0).
    pose proof (Zdigits2_pos (Z.abs b) ltac:(lia)) as Hdb.
    pose proof (Zdigits2_pos (Z.abs a) ltac:(lia)) as Hda.
    rewrite Zdigits2_abs in Hda, Hdb.
    assert (He' : e' <= 0) by (unfold e'; lia).
    pose proof (Z.pow_pos_nonneg 2 (0 - e') ltac:(lia) ltac:(lia)) as Hp.
    pose proof (Zdigits2_div (Z.abs a * 2 ^ (0 - e')) (Z.abs b)
                  ltac:(nia) ltac:(lia)) as Hq.
    rewrite Zdigits2_mul_pow2, !Zdigits2_abs in Hq by lia.
    apply binary_round_aux_small; try lia.
    apply Z.div_pos; nia. }
  by destruct a.
Qed.

Lemma int_truediv_small a b K :
  b <> 0 -> Zdigits2 a <= K -> 0 <= K <= 1023 ->
  exists f, int_truediv a b = Ok f /\ small (K + 1) f.
Proof.
  intros Hb Hd HK. unfold int_truediv.
  replace (b =? 0) with false by (symmetry; apply Z.eqb_neq; lia).
  pose proof (nearest_quotient_small a b K Hb Hd HK) as Hs.
  destruct (nearest_quotient a b); try done; eexists; by split.
Qed.

(** Division of a float by the literal [100.0]. *)
Lemma SFdiv_100_small f K :
  small K f -> -1068 <= K <= 1024 -> small K (SFdiv prec emax f f100_0).
Proof.
  intros Hf HK. destruct f as [s|s| |s m e]; try done.
  unfold f100_0, SFdiv. destruct Hf as [Hd He].
  destruct (SFdiv_core_binary_spec (Z.pos m) e 7036874417766400 (-46))
    as (l & ->); [lia..|].
  change (Zdigits2 7036874417766400) with 53.
  set (e' := Z.min (fexp64 (Zdigits2 (Z.pos m) + e - (53 + -46))) (e - -46)).
  pose proof (Zdigits2_pos (Z.pos m) ltac:(lia)) as Hdm.
  assert (He' : e' <= e + 46 /\ e' <= 971) by (unfold e', fexp64; lia).
  pose proof (Z.pow_pos_nonneg 2 (e - -46 - e') ltac:(lia) ltac:(lia)) as Hp.
  pose proof (Zdigits2_div (Z.pos m * 2 ^ (e - -46 - e')) 7036874417766400
                ltac:(nia) ltac:(lia)) as Hq.
  rewrite Zdigits2_mul_pow2 in Hq by lia.
  change (Zdigits2 7036874417766400) with 53 in Hq.
  apply (small_mono (Z.max (K - 6) (-1074) + 1)); [lia|].
  apply binary_round_aux_small; try lia.
  - apply Z.div_pos; nia.
  - unfold e', fexp64 in *. lia.
Qed.

(** Multiplication by a positive factor not above 1. *)
Lemma SFmul_small f mc ec K :
  small K f -> Zdigits2 (Z.pos mc) + ec <= 1 -> ec <= 0 ->
  -1075 <= K <= 1022 ->
  small (K + 2) (SFmul prec emax f (S754_finite false mc ec)).
Proof.
  intros Hf Hc Hec HK. destruct f as [s|s| |s m e]; try done.
  destruct Hf as [Hd He]. unfold SFmul.
  pose proof (Zdigits2_mul (Z.pos m) (Z.pos mc) ltac:(lia) ltac:(lia)) as Hmul.
  replace (K + 2) with (K + 1 + 1) by lia.
  apply binary_round_aux_small; try lia.
  change (Z.pos (m * mc)) with (Z.pos m * Z.pos mc). lia.
Qed.

End RoundFacts.

Module RoundExact.
Import PyNum Scoring PyNumFacts RoundFacts.

(** *** The rounding bits of a right shift *)

Lemma shr_1_bits mrs :
  0 <= shr_m mrs ->
  shr_r (shr_1 mrs) = Z.odd (shr_m mrs) /\
  shr_s (shr_1 mrs) = shr_r mrs || shr_s mrs.
Proof.
  destruct mrs as [m r s]. cbn [shr_m shr_r shr_s]. intros Hm.
  destruct m as [|[p|p|]|p]; try lia; by cbn.
Qed.

Lemma shr_iter_exact p m :
  0 <= m -> m mod 2 ^ Z.pos p = 0 ->
  let mrs := SpecFloat.iter_pos shr_1 p (Build_shr_record m false false) in
  shr_r mrs = false /\ shr_s mrs = false.
Proof.
  intros Hm. cbv zeta. rewrite iter_pos_iter.
  induction p as [|p IH] using Pos.peano_ind.
  - intros Hmod. cbn [Pos.iter].
    destruct (shr_1_bits (Build_shr_record m false false) Hm) as [-> ->].
    cbn [shr_m shr_r shr_s orb]. split; [|done].
    rewrite <- Z.negb_even, Zeven_mod. change (2 ^ 1) with 2 in Hmod.
    by rewrite Hmod.
  - intros Hmod. rewrite Pos.iter_succ.
    rewrite Pos2Z.inj_succ, Z.pow_succ_r in Hmod by lia.
    pose proof (pow2_pos p) as Hp.
    assert (Hdiv : m mod 2 ^ Z.pos p = 0 /\ (m / 2 ^ Z.pos p) mod 2 = 0).
    { apply Z.mod_divide in Hmod as [j Hj]; [|lia]. subst m. split.
      - apply Z.mod_divide; [lia|]. exists (j * 2). lia.
      - replace (j * (2 * 2 ^ Z.pos p)) with (j * 2 * 2 ^ Z.pos p) by lia.
        rewrite Z.div_mul by lia. apply Z.mod_divide; [lia|]. by exists j. }
    destruct Hdiv as [Hd1 Hd2]. destruct (IH Hd1) as [Hr Hs].
    pose proof (shr_m_iter p (Build_shr_record m false false) Hm) as Hsm.
    rewrite iter_pos_iter in Hsm. cbn [shr_m] in Hsm.
    destruct (shr_1_bits (Pos.iter shr_1 (Build_shr_record m false false) p))
      as [-> ->].
    { rewrite Hsm. by apply Z.div_pos. }
    rewrite Hr, Hs, Hsm. split; [|done].
    by rewrite <- Z.negb_even, Zeven_mod, Hd2.
Qed.

Lemma shr_fexp_exact m e :
  0 <= m ->
  m mod 2 ^ (Z.max e (fexp64 (Zdigits2 m + e)) - e) = 0 ->
  loc_of_shr_record (fst (shr_fexp prec emax m e loc_Exact)) = loc_Exact.
Proof.
  intros Hm Hmod. unfold shr_fexp, shr.
  change (fexp prec emax (Zdigits2 m + e)) with (fexp64 (Zdigits2 m + e)).
  destruct (fexp64 (Zdigits2 m + e) - e) as [|n|n] eqn:Hn; cbn [fst]; try done.
  replace (Z.max e _ - e) with (Z.pos n) in Hmod by lia.
  destruct (shr_iter_exact n m Hm Hmod) as [Hr Hs].
  cbn [shr_record_of_loc].
  destruct (SpecFloat.iter_pos _ _ _) as [m' r s]. cbn in Hr, Hs. by subst.
Qed.

Lemma Zdigits2_succ_pow2 m :
  0 <= m -> Zdigits2 (m + 1) = Zdigits2 m + 1 -> m + 1 = 2 ^ Zdigits2 m.
Proof.
  intros Hm Hd. pose proof (Zdigits2_nonneg m) as Hn.
  assert (m < 2 ^ Zdigits2 m) by (apply Zdigits2_lt_pow2; lia).
  assert (2 ^ Zdigits2 m <= m + 1) by (apply Zdigits2_le_pow2; lia).
  lia.
Qed.

(** The complete description of [binary_round_aux]: the first shift and the
    rounding as before, an exact first shift of an exact input is not rounded
    up, and the second shift loses nothing. *)
Lemma binary_round_aux_exact_spec s mx ex lx :
  0 <= mx ->
  exists m2 m3,
    let e1 := Z.max ex (fexp64 (Zdigits2 mx + ex)) in
    let e2 := Z.max e1 (fexp64 (Zdigits2 m2 + e1)) in
    mx / 2 ^ (e1 - ex) <= m2 <= mx / 2 ^ (e1 - ex) + 1 /\
    (lx = loc_Exact -> mx mod 2 ^ (e1 - ex) = 0 -> m2 = mx / 2 ^ (e1 - ex)) /\
    m3 * 2 ^ (e2 - e1) = m2 /\
    binary_round_aux prec emax s mx ex lx =
      match m3 with
      | 0 => S754_zero s
      | Z.pos m => if e2 <=? 971 then S754_finite s m e2 else S754_infinity s
      | Z.neg _ => S754_nan
      end.
Proof.
  intros Hm. unfold binary_round_aux.
  destruct (shr_fexp_spec mx ex lx Hm) as [He1 Hm1].
  pose proof (shr_fexp_exact mx ex Hm) as Hex.
  destruct (shr_fexp prec emax mx ex lx) as [mrs' e'] eqn:E1.
  cbn [fst snd] in He1, Hm1.
  set (m2 := round_nearest_even (shr_m mrs') (loc_of_shr_record mrs')).
  pose proof (round_nearest_even_bounds (shr_m mrs') (loc_of_shr_record mrs')) as Hb.
  fold m2 in Hb. rewrite Hm1 in Hb.
  set (e1 := Z.max ex (fexp64 (Zdigits2 mx + ex))) in *.
  pose proof (Zdigits2_nonneg mx) as Hdx.
  assert (He1' : ex <= e1 /\ fexp64 (Zdigits2 mx + ex) <= e1 /\ -1074 <= e1)
    by (unfold e1, fexp64; lia).
  pose proof (div_pow2_nonneg mx (e1 - ex) Hm ltac:(lia)) as Hm1n.
  pose proof (Zdigits2_div_pow2 mx (e1 - ex) Hm ltac:(lia)) as Hd1.
  assert (H2 : 0 <= m2) by lia.
  destruct (shr_fexp_spec m2 e' loc_Exact H2) as [He2 Hm3].
  destruct (shr_fexp prec emax m2 e' loc_Exact) as [mrs'' e''] eqn:E2.
  cbn [fst snd] in He2, Hm3. subst e' e''. fold e1 in Hm3 |- *.
  set (e2 := Z.max e1 (fexp64 (Zdigits2 m2 + e1))) in *.
  exists m2, (m2 / 2 ^ (e2 - e1)). cbv zeta. fold e1 e2.
  split; [exact Hb|]. split.
  { intros -> Hmod. specialize (Hex Hmod). rewrite E1 in Hex. cbn [fst] in Hex.
    unfold m2. rewrite Hex. cbn [round_nearest_even]. exact Hm1. }
  split; [|by rewrite Hm3].
  (* the second shift is exact *)
  destruct (Z.eq_dec e2 e1) as [->|Hne].
  { rewrite Z.sub_diag, Z.div_1_r. lia. }
  assert (Hgt : e1 < fexp64 (Zdigits2 m2 + e1)) by (unfold e2 in Hne; lia).
  pose proof (Zdigits2_mono (mx / 2 ^ (e1 - ex)) m2 ltac:(lia)) as Hlo.
  pose proof (Zdigits2_mono m2 (mx / 2 ^ (e1 - ex) + 1) ltac:(lia)) as Hhi.
  pose proof (Zdigits2_succ (mx / 2 ^ (e1 - ex)) Hm1n) as Hsucc.
  assert (Hd2 : Zdigits2 m2 = Zdigits2 (mx / 2 ^ (e1 - ex)) + 1 /\
                1 <= Zdigits2 (mx / 2 ^ (e1 - ex)) /\ e2 = e1 + 1)
    by (unfold e2, fexp64 in *; lia).
  destruct Hd2 as (Hd2 & Hd1pos & ->).
  assert (Hm2 : m2 = mx / 2 ^ (e1 - ex) + 1).
  { destruct (Z.eq_dec m2 (mx / 2 ^ (e1 - ex))) as [E|]; [|lia].
    rewrite E in Hd2. lia. }
  rewrite Hm2 in Hd2. apply Zdigits2_succ_pow2 in Hd2; [|done].
  rewrite Hm2, Hd2. replace (e1 + 1 - e1) with 1 by lia.
  replace (Zdigits2 (mx / 2 ^ (e1 - ex)))
    with (Z.succ (Zdigits2 (mx / 2 ^ (e1 - ex)) - 1)) by lia.
  rewrite Z.pow_succ_r by lia. change (2 ^ 1) with 2.
  rewrite (Z.mul_comm 2), Z.div_mul by lia. reflexivity.
Qed.

(** *** Canonical results *)

Lemma binary_round_aux_canonical s mx ex lx s' m e :
  0 <= mx -> ex <= fexp64 (Zdigits2 mx + ex) ->
  binary_round_aux prec emax s mx ex lx = S754_finite s' m e ->
  fexp64 (Zdigits2 (Z.pos m) + e) = e.
Proof.
  intros Hm Hex.
  destruct (binary_round_aux_exact_spec s mx ex lx Hm)
    as (m2 & m3 & Hb & _ & H3 & ->).
  cbv zeta in Hb, H3.
  set (e1 := Z.max ex (fexp64 (Zdigits2 mx + ex))) in *.
  set (e2 := Z.max e1 (fexp64 (Zdigits2 m2 + e1))) in *.
  assert (He1 : ex <= e1 /\ e1 = fexp64 (Zdigits2 mx + ex)) by (unfold e1; lia).
  pose proof (Zdigits2_div_pow2 mx (e1 - ex) Hm ltac:(lia)) as Hd1.
  pose proof (div_pow2_nonneg mx (e1 - ex) Hm ltac:(lia)) as Hm1.
  destruct m3 as [|p|p]; try done.
  destruct (e2 <=? 971); [|done]. intros [= _ <- <-].
  assert (He2 : e1 <= e2) by (unfold e2; lia).
  assert (Hd2 : Zdigits2 m2 = Zdigits2 (Z.pos p) + (e2 - e1)).
  { rewrite <- H3. apply Zdigits2_mul_pow2; lia. }
  pose proof (Zdigits2_mono (mx / 2 ^ (e1 - ex)) m2 ltac:(lia)) as Hlo.
  unfold e2, fexp64 in *. lia.
Qed.

Lemma Zdigits2_div_lower a b :
  0 < a -> 0 < b -> Zdigits2 a - Zdigits2 b <= Zdigits2 (a / b).
Proof.
  intros Ha Hb. pose proof (Zdigits2_nonneg (a / b)) as Hn.
  destruct (Z.le_gt_cases (Zdigits2 a - Zdigits2 b) 0) as [|Hpos]; [lia|].
  pose proof (Zdigits2_pos b Hb) as Hdb.
  assert (Hb' : b < 2 ^ Zdigits2 b) by (apply Zdigits2_lt_pow2; lia).
  assert (Ha' : 2 ^ (Zdigits2 a - 1) <= a) by (apply Zdigits2_le_pow2; lia).
  assert (Hq : 2 ^ (Zdigits2 a - Zdigits2 b - 1) <= a / b).
  { apply Z.div_le_lower_bound; [lia|].
    replace (Zdigits2 a - 1)
      with (Zdigits2 b + (Zdigits2 a - Zdigits2 b - 1)) in Ha' by lia.
    rewrite Z.pow_add_r in Ha' by lia.
    pose proof (Z.pow_pos_nonneg 2 (Zdigits2 a - Zdigits2 b - 1)
                  ltac:(lia) ltac:(lia)).
    nia. }
  apply Zdigits2_le_pow2 in Hq; [lia| |lia].
  pose proof (Z.pow_pos_nonneg 2 (Zdigits2 a - Zdigits2 b - 1)
                ltac:(lia) ltac:(lia)). lia.
Qed.

(** A quotient of two finite floats is canonical, whatever the operands. *)
Lemma SFdiv_canonical f g s m e :
  SFdiv prec emax f g = S754_finite s m e ->
  fexp64 (Zdigits2 (Z.pos m) + e) = e.
Proof.
  destruct f as [sf|sf| |sf mf ef], g as [sg|sg| |sg mg eg]; try done.
  unfold SFdiv.
  destruct (SFdiv_core_binary_spec (Z.pos mf) ef (Z.pos mg) eg)
    as (l & ->); [lia..|].
  set (X := Zdigits2 (Z.pos mf) + ef - (Zdigits2 (Z.pos mg) + eg)).
  set (e' := Z.min (fexp64 X) (ef - eg)).
  assert (He' : 0 <= ef - eg - e') by (unfold e'; lia).
  pose proof (Z.pow_pos_nonneg 2 (ef - eg - e') ltac:(lia) He') as Hp.
  pose proof (Zdigits2_div_lower (Z.pos mf * 2 ^ (ef - eg - e')) (Z.pos mg)
                ltac:(nia) ltac:(lia)) as Hq.
  rewrite Zdigits2_mul_pow2 in Hq by lia.
  apply binary_round_aux_canonical.
  - apply Z.div_pos; nia.
  - unfold e', X, fexp64 in *. lia.
Qed.

(** *** Truncation is monotone in the value *)

Lemma trunc_mag_scaled m e e0 :
  e0 <= e -> e0 <= 0 ->
  trunc_mag m e = Z.pos m * 2 ^ (e - e0) / 2 ^ (- e0).
Proof.
  intros He H0. unfold trunc_mag.
  pose proof (Z.pow_pos_nonneg 2 (- e0) ltac:(lia) ltac:(lia)) as Hp0.
  destruct e as [|k|k].
  - rewrite Z.sub_0_l, Z.div_mul by lia. simpl. lia.
  - replace (Z.pos k - e0) with (Z.pos k + - e0) by lia.
    rewrite Z.pow_add_r, Z.mul_assoc, Z.div_mul by lia. reflexivity.
  - replace (- e0) with (Z.pos k + (Z.neg k - e0)) by lia.
    rewrite Z.pow_add_r by lia.
    rewrite Z.div_mul_cancel_r; [reflexivity|pose proof (pow2_pos k); lia|].
    pose proof (Z.pow_pos_nonneg 2 (Z.neg k - e0) ltac:(lia) ltac:(lia)). lia.
Qed.

Lemma trunc_mag_mono m e m' e' e1 :
  e1 <= e -> e1 <= e' ->
  Z.pos m * 2 ^ (e - e1) <= Z.pos m' * 2 ^ (e' - e1) ->
  trunc_mag m e <= trunc_mag m' e'.
Proof.
  intros He He' Hle.
  rewrite (trunc_mag_scaled m e (Z.min e1 0)), (trunc_mag_scaled m' e' (Z.min e1 0))
    by lia.
  apply Z.div_le_mono; [apply Z.pow_pos_nonneg; lia|].
  replace (e - Z.min e1 0) with ((e - e1) + (e1 - Z.min e1 0)) by lia.
  replace (e' - Z.min e1 0) with ((e' - e1) + (e1 - Z.min e1 0)) by lia.
  rewrite !Z.pow_add_r, !Z.mul_assoc by lia.
  apply Z.mul_le_mono_nonneg_r; [|done].
  apply Z.pow_nonneg. lia.
Qed.

(** *** Multiplying by a factor in (0, 1] does not increase the magnitude *)

Lemma SFmul_le sb mb eb mc ec :
  fexp64 (Zdigits2 (Z.pos mb) + eb) = eb ->
  ec <= 0 -> Z.pos mc <= 2 ^ (- ec) ->
  match SFmul prec emax (S754_finite sb mb eb) (S754_finite false mc ec) with
  | S754_zero s => s = sb
  | S754_finite s m e => s = sb /\ trunc_mag m e <= trunc_mag mb eb
  | S754_infinity _ => True
  | S754_nan => False
  end.
Proof.
  intros Hcan Hec Hmc. unfold SFmul. rewrite xorb_false_r.
  change (Z.pos (mb * mc)) with (Z.pos mb * Z.pos mc).
  destruct (binary_round_aux_exact_spec sb (Z.pos mb * Z.pos mc) (eb + ec)
              loc_Exact ltac:(lia)) as (m2 & m3 & Hb & Hex & H3 & ->).
  cbv zeta in Hb, Hex, H3.
  set (mx := Z.pos mb * Z.pos mc) in *.
  set (e1 := Z.max (eb + ec) (fexp64 (Zdigits2 mx + (eb + ec)))) in *.
  set (e2 := Z.max e1 (fexp64 (Zdigits2 m2 + e1))) in *.
  pose proof (Z.pow_pos_nonneg 2 (- ec) ltac:(lia) ltac:(lia)) as Hpc.
  assert (Hdx : Zdigits2 mx <= Zdigits2 (Z.pos mb) - ec).
  { pose proof (Zdigits2_mul_pow2 (Z.pos mb) (- ec) ltac:(lia) ltac:(lia)) as E.
    pose proof (Zdigits2_mono mx (Z.pos mb * 2 ^ (- ec))
                  ltac:(unfold mx; nia)). lia. }
  assert (He1 : eb + ec <= e1 /\ e1 <= eb) by (unfold e1, fexp64 in *; lia).
  assert (He2 : e1 <= e2) by (unfold e2; lia).
  pose proof (Z.pow_pos_nonneg 2 (e1 - (eb + ec)) ltac:(lia) ltac:(lia)) as Hp1.
  pose proof (Z.pow_pos_nonneg 2 (eb - e1) ltac:(lia) ltac:(lia)) as Hp2.
  (* the grid point of the first factor *)
  assert (Hgrid : mx <= Z.pos mb * 2 ^ (eb - e1) * 2 ^ (e1 - (eb + ec))).
  { rewrite <- Z.mul_assoc, <- Z.pow_add_r by lia.
    replace (eb - e1 + (e1 - (eb + ec))) with (- ec) by lia. unfold mx. nia. }
  assert (H2 : m2 <= Z.pos mb * 2 ^ (eb - e1)).
  { destruct (Z.eq_dec (mx mod 2 ^ (e1 - (eb + ec))) 0) as [Hmod|Hmod].
    - rewrite (Hex eq_refl Hmod). apply Z.div_le_upper_bound; lia.
    - assert (mx / 2 ^ (e1 - (eb + ec)) < Z.pos mb * 2 ^ (eb - e1)); [|lia].
      apply Z.div_lt_upper_bound; [lia|].
      destruct (Z.eq_dec mx (2 ^ (e1 - (eb + ec)) * (Z.pos mb * 2 ^ (eb - e1))))
        as [E|]; [|lia].
      exfalso. apply Hmod. rewrite E, Z.mul_comm. apply Z.mod_mul. lia. }
  destruct m3 as [|p|p]; [done| |].
  - destruct (e2 <=? 971); [|done]. split; [done|].
    apply (trunc_mag_mono p e2 mb eb e1); lia.
  - pose proof (Z.pow_pos_nonneg 2 (e2 - e1) ltac:(lia) ltac:(lia)).
    pose proof (div_pow2_nonneg mx (e1 - (eb + ec)) ltac:(lia) ltac:(lia)).
    nia.
Qed.

(** *** A rounded value is not below a grid point under the exact one *)

Lemma binary_round_aux_ge mx ex lx K n :
  0 <= mx -> 0 <= K ->
  K * 2 ^ (Z.max ex (fexp64 (Zdigits2 mx + ex)) - ex) <= mx ->
  (Z.max ex (fexp64 (Zdigits2 mx + ex)) <= 0 ->
     n * 2 ^ (- Z.max ex (fexp64 (Zdigits2 mx + ex))) <= K) ->
  (0 < Z.max ex (fexp64 (Zdigits2 mx + ex)) ->
     n <= K * 2 ^ Z.max ex (fexp64 (Zdigits2 mx + ex))) ->
  le (PyInt n) (PyFloat (binary_round_aux prec emax false mx ex lx)) = true.
Proof.
  intros Hm HK.
  destruct (binary_round_aux_exact_spec false mx ex lx Hm)
    as (m2 & m3 & Hb & _ & H3 & ->).
  cbv zeta in Hb, H3.
  set (e1 := Z.max ex (fexp64 (Zdigits2 mx + ex))) in *.
  set (e2 := Z.max e1 (fexp64 (Zdigits2 m2 + e1))) in *.
  intros Hgrid Hneg Hpos.
  assert (He1 : ex <= e1) by (unfold e1; lia).
  assert (He2 : e1 <= e2) by (unfold e2; lia).
  pose proof (Z.pow_pos_nonneg 2 (e1 - ex) ltac:(lia) ltac:(lia)) as Hp1.
  pose proof (Z.pow_pos_nonneg 2 (e2 - e1) ltac:(lia) ltac:(lia)) as Hp2.
  assert (H1 : K <= m2).
  { assert (K <= mx / 2 ^ (e1 - ex)); [|lia].
    apply Z.div_le_lower_bound; lia. }
  unfold le, compare, int_float_compare.
  destruct m3 as [|p|p]; [| |nia].
  - (* the result is a zero *)
    assert (K = 0) by lia. subst K.
    assert (n <= 0).
    { destruct (Z.le_gt_cases e1 0) as [H0|H0].
      - specialize (Hneg H0).
        pose proof (Z.pow_pos_nonneg 2 (- e1) ltac:(lia) ltac:(lia)). nia.
      - specialize (Hpos H0). lia. }
    destruct (Z.compare_spec n 0); (done || lia).
  - destruct (e2 <=? 971); [|done].
    assert (Hle : Zcompare_finite n false p e2 <> Gt); [|by destruct Zcompare_finite].
    unfold Zcompare_finite. rewrite <- H3 in H1.
    destruct e2 as [|k2|k2] eqn:E2; rewrite Z.compare_gt_iff.
    + (* e2 = 0, hence e1 <= 0 *)
      specialize (Hneg ltac:(lia)). rewrite Z.sub_0_l in H1.
      change (2 ^ 0) with 1. nia.
    + destruct (Z.le_gt_cases e1 0) as [H0|H0].
      * specialize (Hneg H0).
        assert (Hs : 2 ^ (Z.pos k2 - e1) = 2 ^ Z.pos k2 * 2 ^ (- e1))
          by (rewrite <- Z.pow_add_r by lia; f_equal; lia).
        pose proof (Z.pow_pos_nonneg 2 (- e1) ltac:(lia) ltac:(lia)).
        pose proof (pow2_pos k2). nia.
      * specialize (Hpos H0).
        assert (Hs : 2 ^ Z.pos k2 = 2 ^ (Z.pos k2 - e1) * 2 ^ e1)
          by (rewrite <- Z.pow_add_r by lia; f_equal; lia).
        pose proof (Z.pow_pos_nonneg 2 e1 ltac:(lia) ltac:(lia)). nia.
    + specialize (Hneg ltac:(lia)).
      assert (Hs : 2 ^ (- e1) = 2 ^ Z.pos k2 * 2 ^ (Z.neg k2 - e1))
        by (rewrite <- Z.pow_add_r by lia; f_equal; lia).
      pose proof (pow2_pos k2). nia.
Qed.

(** *** round(x, 1) is not below the integer part *)

Lemma div_half_even_bounds n d :
  n / d <= div_half_even n d <= n / d + 1.
Proof.
  unfold div_half_even. destruct (2 * (n mod d) ?= d); [|lia..].
  destruct (Z.even (n / d)); lia.
Qed.

Lemma tenths_ge m e : 10 * trunc_mag m e <= tenths m e.
Proof.
  unfold tenths, trunc_mag. destruct e as [|k|k]; try lia.
  pose proof (pow2_pos k) as Hp.
  pose proof (div_half_even_bounds (10 * Z.pos m) (2 ^ Z.pos k)) as Hb.
  assert (10 * (Z.pos m / 2 ^ Z.pos k) <= 10 * Z.pos m / 2 ^ Z.pos k); [|lia].
  apply Z.div_le_lower_bound; [lia|].
  pose proof (Z.mul_div_le (Z.pos m) (2 ^ Z.pos k) Hp). lia.
Qed.

Lemma trunc_mag_nonneg m e : 0 <= trunc_mag m e.
Proof.
  unfold trunc_mag. destruct e as [|k|k].
  - lia.
  - apply Z.mul_nonneg_nonneg; [lia|]. pose proof (pow2_pos k). lia.
  - apply Z.div_pos; [lia|apply pow2_pos].
Qed.

Lemma round1_ge_trunc mb eb n :
  fexp64 (Zdigits2 (Z.pos mb) + eb) = eb -> n <= trunc_mag mb eb ->
  le (PyInt n) (PyFloat (round1 (S754_finite false mb eb))) = true.
Proof.
  intros Hcan Hn. unfold round1.
  pose proof (tenths_ge mb eb) as H10.
  pose proof (trunc_mag_nonneg mb eb) as Ht.
  destruct (tenths mb eb) as [|N|N] eqn:EN; [| |lia].
  { unfold le, compare, int_float_compare.
    destruct (Z.compare_spec n 0); (done || lia). }
  unfold nearest_quotient.
  change (xorb (Z.pos N <? 0) (10 <? 0)) with false.
  destruct (SFdiv_core_binary_spec (Z.abs (Z.pos N)) 0 (Z.abs 10) 0)
    as (l & ->); [lia..|].
  change (Z.abs (Z.pos N)) with (Z.pos N). change (Z.abs 10) with 10.
  change (Zdigits2 10) with 4. rewrite !Z.add_0_r, Z.sub_0_r.
  set (e' := Z.min (fexp64 (Zdigits2 (Z.pos N) - 4)) 0).
  assert (He' : e' <= 0) by (unfold e'; lia).
  pose proof (Z.pow_pos_nonneg 2 (- e') ltac:(lia) ltac:(lia)) as Hpe.
  replace (0 - e') with (- e') by lia.
  set (q := Z.pos N * 2 ^ (- e') / 10).
  assert (Hq0 : 0 <= q) by (apply Z.div_pos; nia).
  assert (Hdm : Zdigits2 (Z.pos mb) <= 53) by (unfold fexp64 in Hcan; lia).
  assert (Hmb : Z.pos mb < 2 ^ 53) by (apply Zdigits2_lt_pow2; lia).
  destruct (Z.le_gt_cases 0 eb) as [Hpos|Hneg].
  - (* an integral value: the tenths are exact *)
    assert (Htr : trunc_mag mb eb = Z.pos mb * 2 ^ eb)
      by (unfold trunc_mag; by destruct eb).
    assert (HN : Z.pos N = 10 * (Z.pos mb * 2 ^ eb)).
    { rewrite <- EN. unfold tenths. destruct eb; lia. }
    pose proof (Z.pow_pos_nonneg 2 eb ltac:(lia) Hpos) as Hpb.
    assert (Hq : q = Z.pos mb * 2 ^ (eb - e')).
    { unfold q. rewrite HN.
      replace (eb - e') with (eb + - e') by lia. rewrite Z.pow_add_r by lia.
      replace (10 * (Z.pos mb * 2 ^ eb) * 2 ^ (- e'))
        with (Z.pos mb * (2 ^ eb * 2 ^ (- e')) * 10) by lia.
      apply Z.div_mul. lia. }
    assert (Hdq : Zdigits2 q + e' = Zdigits2 (Z.pos mb) + eb).
    { rewrite Hq, Zdigits2_mul_pow2 by lia. lia. }
    assert (HE1 : Z.max e' (fexp64 (Zdigits2 q + e')) = eb)
      by (rewrite Hdq, Hcan; lia).
    apply (binary_round_aux_ge q e' l (Z.pos mb) n); try lia;
      rewrite HE1.
    + rewrite Hq. lia.
    + intros H0. replace eb with 0 by lia. change (2 ^ (- 0)) with 1.
      rewrite Htr in Hn. replace eb with 0 in Hn by lia.
      change (2 ^ 0) with 1 in Hn. lia.
    + intros _. lia.
  - (* a value below 2^52 *)
    assert (HNb : Z.pos N < 10 * 2 ^ 52).
    { rewrite <- EN. unfold tenths. destruct eb as [|k|k]; try lia.
      pose proof (pow2_pos k) as Hp.
      pose proof (div_half_even_bounds (10 * Z.pos mb) (2 ^ Z.pos k)) as Hb.
      assert (10 * Z.pos mb / 2 ^ Z.pos k <= 5 * Z.pos mb); [|lia].
      apply Z.div_le_upper_bound; [lia|].
      assert (2 <= 2 ^ Z.pos k); [|nia].
      change 2 with (2 ^ 1) at 1. apply Z.pow_le_mono_r; lia. }
    assert (Hqb : q < 2 ^ (52 - e')).
    { unfold q. apply Z.div_lt_upper_bound; [lia|].
      replace (52 - e') with (52 + - e') by lia. rewrite Z.pow_add_r by lia.
      nia. }
    apply Zdigits2_lt_pow2 in Hqb; [|lia..].
    assert (HE1 : e' <= Z.max e' (fexp64 (Zdigits2 q + e')) <= 0)
      by (unfold fexp64; lia).
    set (E1 := Z.max e' (fexp64 (Zdigits2 q + e'))) in *.
    pose proof (Z.pow_pos_nonneg 2 (- E1) ltac:(lia) ltac:(lia)) as HpE.
    pose proof (Z.pow_pos_nonneg 2 (E1 - e') ltac:(lia) ltac:(lia)) as HpE'.
    assert (Hsplit : 2 ^ (- e') = 2 ^ (- E1) * 2 ^ (E1 - e')).
    { rewrite <- Z.pow_add_r by lia. f_equal. lia. }
    apply (binary_round_aux_ge q e' l (trunc_mag mb eb * 2 ^ (- E1)) n);
      fold E1; try nia.
    unfold q. apply Z.div_le_lower_bound; [lia|]. rewrite Hsplit. nia.
Qed.

End RoundExact.

(** ** Structure of a returned report *)

Section Report.
Import PyNumFacts.

Lemma bind_Ok {A B} (r : result A) (k : A -> result B) b :
  r ≫= k = Ok b -> exists a, r = Ok a /\ k a = Ok b.
Proof. destruct r as [a|e]; simpl; [eauto | discriminate]. Qed.

Lemma raw_scores_inv m rs :
  raw_scores m = Ok rs ->
  exists mos comp,
    mos_score (pe_ratio m) (sector_pe m) = Ok mos /\
    competition_score (company_growth_rate m) (industry_growth_3yr m) = Ok comp /\
    rs = scores_dict (industry_score (industry_growth_3yr m))
           (profit_score (net_profit_growth_5yr m)) mos
           (yield_score (dividend_yield m) (dividend_years_consecutive m)) comp.
Proof.
  unfold raw_scores. intros H.
  apply bind_Ok in H as (mos & Hmos & H).
  apply bind_Ok in H as (comp & Hcomp & H).
  injection H as <-. eauto.
Qed.

Lemma score_inv metrics weights target_return r :
  calculate_master_score metrics weights target_return = Ok r ->
  exists rs base,
    raw_scores (defaulted metrics) = Ok rs /\
    base_score rs weights = Ok base /\
    to_int (SFmul prec emax base
              (risk_multiplier target_return (beta (defaulted metrics))))
      = Ok (finalScore r) /\
    baseScore r = round1 base /\
    grade r = grade_of (SFmul prec emax base
                (risk_multiplier target_return (beta (defaulted metrics)))) /\
    riskMult r = risk_multiplier target_return (beta (defaulted metrics)) /\
    rawScores r = rs.
Proof.
  unfold calculate_master_score. intros H.
  apply bind_Ok in H as (rs & Hrs & H).
  apply bind_Ok in H as (base & Hbase & H).
  apply bind_Ok in H as (final & Hfinal & H).
  injection H as <-. simpl. exists rs, base. auto 10.
Qed.

Lemma scores_dict_values ind prof mos yld comp k v :
  scores_dict ind prof mos yld comp !! k = Some v ->
  v = ind \/ v = prof \/ v = mos \/ v = yld \/ v = comp.
Proof.
  unfold scores_dict. rewrite !lookup_insert, lookup_empty.
  repeat case_decide; intros [= <-]; auto 6.
Qed.

Lemma scores_dict_industry ind prof mos yld comp :
  scores_dict ind prof mos yld comp !! "industry" = Some ind.
Proof. unfold scores_dict. by simplify_map_eq. Qed.

Lemma scores_dict_profit ind prof mos yld comp :
  scores_dict ind prof mos yld comp !! "profit" = Some prof.
Proof. unfold scores_dict. by simplify_map_eq. Qed.

Lemma scores_dict_mos ind prof mos yld comp :
  scores_dict ind prof mos yld comp !! "mos" = Some mos.
Proof. unfold scores_dict. by simplify_map_eq. Qed.

Lemma scores_dict_yield ind prof mos yld comp :
  scores_dict ind prof mos yld comp !! "yield" = Some yld.
Proof. unfold scores_dict. by simplify_map_eq. Qed.

Lemma scores_dict_competition ind prof mos yld comp :
  scores_dict ind prof mos yld comp !! "competition" = Some comp.
Proof. unfold scores_dict. by simplify_map_eq. Qed.

End Report.

(** Runs a call on concrete inputs: names the report [r] and keeps the
    equation [E], or closes the goal when the call raises. *)
Ltac run_score r E :=
  match goal with
  | |- context [calculate_master_score ?m ?w ?t] =>
    destruct (calculate_master_score m w t) as [r|?] eqn:E;
    [|exfalso; vm_compute in E; discriminate E]
  end.

(** ** Scenario 1 *)

Lemma scenario1_report_value :
  calculate_master_score scenario1_metrics default_weights (PyInt 12) =
  Ok {| baseScore := lit 970 10; finalScore := 97; grade := "A";
        riskMult := lit 10 10;
        rawScores := scores_dict 100 100 100 100 80 |}.
Proof. vm_compute. reflexivity. Defined.

(** C1, as stated: Scenario 1 does not produce mos = 80, baseScore = 94.0 and
    finalScore = 94. *)
Lemma scenario1_not_94 :
  ~ exists r,
      calculate_master_score scenario1_metrics default_weights (PyInt 12) = Ok r /\
      rawScores r = scores_dict 100 100 80 100 80 /\
      baseScore r = lit 940 10 /\ riskMult r = lit 10 10 /\
      finalScore r = 94 /\ grade r = "A".
Proof.
  intros (r & Hr & _ & _ & _ & Hfinal & _).
  vm_compute in Hr. injection Hr as <-. simpl in Hfinal. discriminate.
Qed.

(** C1, amended: on the inputs of Scenario 1 the margin of safety is
    (15 - 10) / 15 > 0.20, so the mos sub-score is 100; the report has
    rawScores = {industry:100, profit:100, mos:100, yield:100, competition:80},
    baseScore = 97.0, riskMult = 1.0, finalScore = 97 and grade "A". *)
Theorem scenario1_report :
  calculate_master_score scenario1_metrics default_weights (PyInt 12) =
  Ok {| baseScore := lit 970 10; finalScore := 97; grade := "A";
        riskMult := lit 10 10;
        rawScores := scores_dict 100 100 100 100 80 |}.
Proof. exact scenario1_report_value. Qed.

(** ** The risk multiplier, Conservative band *)

Section RiskBands.
Import PyNumFacts.

Lemma gt_f1_2_not_lt_f0_8 b :
  gt b (PyFloat f1_2) = true -> lt b (PyFloat f0_8) = false.
Proof.
  unfold gt, lt, f1_2, f0_8, compare. destruct b as [z|f].
  - unfold int_float_compare, Zcompare_finite.
    destruct (Z.compare_spec (z * 2 ^ 52) 5404319552844595);
      destruct (Z.compare_spec (z * 2 ^ 53) 7205759403792794);
      try congruence; lia.
  - unfold SFcompare. destruct f as [s|s| |s m e]; try congruence.
    + destruct s; congruence.
    + destruct s; [congruence|].
      destruct (Z.compare_spec e (-52)); destruct (Z.compare_spec e (-53));
        try congruence; lia.
Qed.

Lemma risk_conservative_high t b :
  lt t (PyInt 10) = true -> gt b (PyFloat f1_2) = true ->
  risk_multiplier t b = f0_5.
Proof.
  intros Ht Hb. unfold risk_multiplier.
  by rewrite Ht, (gt_f1_2_not_lt_f0_8 _ Hb), (gt_not_le _ _ Hb).
Qed.

Lemma risk_aggressive t b :
  ge t (PyInt 15) = true ->
  risk_multiplier t b =
    if ge b (PyFloat f1_2) && le b (PyFloat f2_5) then f1_0
    else if ge b (PyFloat f0_9) && lt b (PyFloat f1_2) then f0_9
    else f0_6.
Proof.
  intros Ht. unfold risk_multiplier.
  rewrite (ge_int_not_lt_int t 10 15) by (done || lia). by rewrite Ht.
Qed.

Lemma risk_moderate t b :
  ge t (PyInt 10) = true -> lt t (PyInt 15) = true ->
  risk_multiplier t b =
    if ge b (PyFloat f0_7) && le b (PyFloat f1_5) then f1_0 else f0_8.
Proof.
  intros Hlo Hhi. unfold risk_multiplier.
  by rewrite (ge_not_lt _ _ Hlo), (lt_not_ge _ _ Hhi).
Qed.

End RiskBands.

(** C2, as stated: a Conservative target with beta = 1.2 (hence beta >= 1.2)
    is multiplied by 0.9, not by 0.5. *)
Lemma conservative_beta_1_2_is_0_9 :
  let metrics : gmap string pynum := <["beta" := PyFloat (lit 12 10)]> ∅ in
  lt (PyInt 5) (PyInt 10) = true /\
  ge (beta (defaulted metrics)) (PyFloat (lit 12 10)) = true /\
  exists r, calculate_master_score metrics ∅ (PyInt 5) = Ok r /\
            riskMult r = lit 9 10 /\ riskMult r <> lit 5 10.
Proof.
  repeat split. eexists. split; [vm_compute; reflexivity|]. by split.
Qed.

(** C2, amended: for every metrics mapping and every target_return < 10, if
    beta > 1.2 (strictly) the risk multiplier of the report is exactly 0.5. *)
Theorem conservative_beta_above_1_2 metrics weights target_return r :
  lt target_return (PyInt 10) = true ->
  gt (beta (defaulted metrics)) (PyFloat f1_2) = true ->
  calculate_master_score metrics weights target_return = Ok r ->
  riskMult r = f0_5.
Proof.
  intros Ht Hb Hr. apply score_inv in Hr as (rs & base & _ & _ & _ & _ & _ & -> & _).
  by apply risk_conservative_high.
Qed.

Lemma conservative_beta_above_1_2_witness :
  exists r,
    calculate_master_score (<["beta" := PyFloat (lit 13 10)]> ∅) ∅
      (PyFloat (lit 95 10)) = Ok r /\
    riskMult r = f0_5.
Proof.
  run_score r E. exists r. split; [reflexivity|].
  apply (conservative_beta_above_1_2 (<["beta" := PyFloat (lit 13 10)]> ∅) ∅
           (PyFloat (lit 95 10)) r); [vm_compute; reflexivity .. | exact E].
Defined.

(** ** Sub-scores *)

(** C5: with fewer than 5 consecutive dividend years the yield sub-score of
    the report is 0 whatever the yield; with at least 5 it is 100, 80, 60 or
    30 by the yield thresholds 8, 5 and 3, and never 0. *)
Theorem yield_subscore metrics weights target_return r :
  calculate_master_score metrics weights target_return = Ok r ->
  let m := defaulted metrics in
  (lt (dividend_years_consecutive m) (PyInt 5) = true ->
     rawScores r !! "yield" = Some 0) /\
  (ge (dividend_years_consecutive m) (PyInt 5) = true ->
     exists y, rawScores r !! "yield" = Some y /\ y <> 0 /\
       y = if ge (dividend_yield m) (PyInt 8) then 100
           else if ge (dividend_yield m) (PyInt 5) then 80
           else if ge (dividend_yield m) (PyInt 3) then 60
           else 30).
Proof.
  intros Hr m. subst m.
  apply score_inv in Hr as (rs & base & Hrs & _ & _ & _ & _ & _ & ->).
  apply raw_scores_inv in Hrs as (mos & comp & _ & _ & ->).
  rewrite scores_dict_yield. unfold yield_score. split.
  - by intros ->.
  - intros Hge. rewrite (PyNumFacts.ge_not_lt _ _ Hge).
    eexists. split; [reflexivity|]. split; [|reflexivity].
    repeat case_match; lia.
Qed.

(** Scenario 2 (2 consecutive years, yield 15) and a qualifying payer. *)
Lemma yield_subscore_witness :
  (exists r,
     calculate_master_score
       (<["dividend_years_consecutive" := PyInt 2]>
          (<["dividend_yield" := PyInt 15]> ∅)) ∅ (PyInt 12) = Ok r /\
     rawScores r !! "yield" = Some 0) /\
  (exists r,
     calculate_master_score
       (<["dividend_years_consecutive" := PyInt 5]>
          (<["dividend_yield" := PyFloat (lit 29 10)]> ∅)) ∅ (PyInt 12) = Ok r /\
     rawScores r !! "yield" = Some 30).
Proof.
  split.
  - run_score r E. exists r. split; [reflexivity|].
    apply (yield_subscore _ _ _ r E). vm_compute; reflexivity.
  - run_score r E. exists r. split; [reflexivity|].
    destruct (yield_subscore _ _ _ r E) as [_ H].
    destruct (H ltac:(vm_compute; reflexivity)) as (y & Hy & _ & ->).
    exact Hy.
Defined.

(** C6: without sector data (sector_pe <= 0) the mos sub-score is 50 when
    0 < pe_ratio < 20 and 0 otherwise; with sector_pe > 0 it is the tier of
    mos_pct = (sector_pe - pe_ratio) / sector_pe: above 0.20 gives 100, from
    0.10 gives 80, from -0.10 gives 50, below gives 0. *)
Theorem mos_subscore metrics weights target_return r :
  calculate_master_score metrics weights target_return = Ok r ->
  let m := defaulted metrics in
  (le (sector_pe m) (PyInt 0) = true ->
     rawScores r !! "mos" =
       Some (if gt (pe_ratio m) (PyInt 0) && lt (pe_ratio m) (PyInt 20)
             then 50 else 0)) /\
  (gt (sector_pe m) (PyInt 0) = true ->
     exists d mos_pct,
       sub (sector_pe m) (pe_ratio m) = Ok d /\
       truediv d (sector_pe m) = Ok mos_pct /\
       rawScores r !! "mos" =
         Some (if gt mos_pct (PyFloat f0_20) then 100
               else if ge mos_pct (PyFloat f0_10) then 80
               else if ge mos_pct (PyFloat (SFopp f0_10)) then 50
               else 0)).
Proof.
  intros Hr m. subst m.
  apply score_inv in Hr as (rs & base & Hrs & _ & _ & _ & _ & _ & ->).
  apply raw_scores_inv in Hrs as (mos & comp & Hmos & _ & ->).
  rewrite scores_dict_mos. unfold mos_score in Hmos. split.
  - intros Hle. rewrite (PyNumFacts.le_not_gt _ _ Hle) in Hmos.
    by destruct (_ && _); injection Hmos as <-.
  - intros Hgt. rewrite Hgt in Hmos.
    apply bind_Ok in Hmos as (pct & Hpct & [= <-]).
    apply bind_Ok in Hpct as (d & Hd & Hpct).
    by exists d, pct.
Qed.

(** Scenarios 3 and 4 (no sector data) and a stock 10% below its sector. *)
Lemma mos_subscore_witness :
  (exists r,
     calculate_master_score
       (<["sector_pe" := PyInt 0]> (<["pe_ratio" := PyInt 12]> ∅)) ∅
       (PyInt 12) = Ok r /\
     rawScores r !! "mos" = Some 50) /\
  (exists r,
     calculate_master_score
       (<["sector_pe" := PyInt 0]> (<["pe_ratio" := PyInt 25]> ∅)) ∅
       (PyInt 12) = Ok r /\
     rawScores r !! "mos" = Some 0) /\
  (exists r,
     calculate_master_score
       (<["sector_pe" := PyFloat (lit 150 10)]>
          (<["pe_ratio" := PyFloat (lit 135 10)]> ∅)) ∅ (PyInt 12) = Ok r /\
     rawScores r !! "mos" = Some 80).
Proof.
  split; [|split].
  - run_score r E. exists r. split; [reflexivity|].
    apply (mos_subscore _ _ _ r E). vm_compute; reflexivity.
  - run_score r E. exists r. split; [reflexivity|].
    apply (mos_subscore _ _ _ r E). vm_compute; reflexivity.
  - run_score r E. exists r. split; [reflexivity|].
    destruct (mos_subscore _ _ _ r E) as [_ H].
    destruct (H ltac:(vm_compute; reflexivity)) as (d & pct & Hd & Hpct & ->).
    vm_compute in Hd. injection Hd as <-.
    vm_compute in Hpct. injection Hpct as <-.
    vm_compute. reflexivity.
Defined.

(** C8: for target_return >= 15 the risk multiplier is 1.0 when
    1.2 <= beta <= 2.5, 0.9 when 0.9 <= beta < 1.2 and 0.6 otherwise; for
    10 <= target_return < 15 it is 1.0 when 0.7 <= beta <= 1.5 and 0.8
    otherwise. *)
Theorem risk_aggressive_moderate metrics weights target_return r :
  calculate_master_score metrics weights target_return = Ok r ->
  let b := beta (defaulted metrics) in
  (ge target_return (PyInt 15) = true ->
     riskMult r =
       if ge b (PyFloat f1_2) && le b (PyFloat f2_5) then f1_0
       else if ge b (PyFloat f0_9) && lt b (PyFloat f1_2) then f0_9
       else f0_6) /\
  (ge target_return (PyInt 10) = true -> lt target_return (PyInt 15) = true ->
     riskMult r =
       if ge b (PyFloat f0_7) && le b (PyFloat f1_5) then f1_0 else f0_8).
Proof.
  intros Hr b. subst b.
  apply score_inv in Hr as (rs & base & _ & _ & _ & _ & _ & -> & _).
  split; [apply risk_aggressive | apply risk_moderate].
Qed.

(** Scenario 5 (target 20, beta 0.5) and a Moderate target with beta 1.6. *)
Lemma risk_aggressive_moderate_witness :
  (exists r,
     calculate_master_score (<["beta" := PyFloat (lit 5 10)]> ∅) ∅ (PyInt 20)
       = Ok r /\
     riskMult r = f0_6) /\
  (exists r,
     calculate_master_score (<["beta" := PyFloat (lit 16 10)]> ∅) ∅
       (PyFloat (lit 125 10)) = Ok r /\
     riskMult r = f0_8).
Proof.
  split.
  - run_score r E. exists r. split; [reflexivity|].
    destruct (risk_aggressive_moderate _ _ _ r E) as [H _].
    exact (H ltac:(vm_compute; reflexivity)).
  - run_score r E. exists r. split; [reflexivity|].
    destruct (risk_aggressive_moderate _ _ _ r E) as [_ H].
    exact (H ltac:(vm_compute; reflexivity) ltac:(vm_compute; reflexivity)).
Defined.

(** ** Tier sets and grading *)

Section Grading.
Import PyNumFacts.

(** For a positive int [k], the float comparison [f >= k] agrees with the
    comparison of [int(f)] with [k]. *)
Lemma ge_int_to_int f n k :
  0 < k -> to_int f = Ok n -> ge (PyFloat f) (PyInt k) = true <-> k <= n.
Proof.
  intros Hk. unfold ge, compare.
  destruct f as [s|s| |s m e]; simpl; try discriminate.
  - intros [= <-]. destruct (Z.compare_spec k 0); simpl; split; (congruence || lia).
  - intros [= <-]. unfold Zcompare_finite, trunc_mag.
    destruct s.
    + assert (Hneg : forall a b : Z, 0 < a -> b <= 0 -> CompOpp (a ?= b) = Lt).
      { intros a b Ha Hb. destruct (Z.compare_spec a b); simpl; auto; lia. }
      destruct e as [|p|p].
      * rewrite Hneg by lia. split; (congruence || lia).
      * pose proof (pow2_pos p). rewrite Hneg by nia.
        split; [congruence|]. nia.
      * pose proof (pow2_pos p). rewrite Hneg by nia.
        split; [congruence|].
        pose proof (Z.div_pos (Z.pos m) (2 ^ Z.pos p)). lia.
    + destruct e as [|p|p].
      * destruct (Z.compare_spec k (Z.pos m * 2 ^ 0)); simpl;
          split; (congruence || lia).
      * destruct (Z.compare_spec k (Z.pos m * 2 ^ Z.pos p)); simpl;
          split; (congruence || lia).
      * pose proof (pow2_pos p) as Hp.
        pose proof (Z.div_le_lower_bound (Z.pos m) (2 ^ Z.pos p) k Hp).
        pose proof (Z.mul_div_le (Z.pos m) (2 ^ Z.pos p) Hp).
        destruct (Z.compare_spec (k * 2 ^ Z.pos p) (Z.pos m)); simpl;
          split; try congruence; try nia.
Qed.

Lemma grade_of_spec f n :
  to_int f = Ok n ->
  (grade_of f = "A" <-> 80 <= n) /\
  (grade_of f = "B" <-> 60 <= n < 80) /\
  (grade_of f = "C" <-> n < 60).
Proof.
  intros Hn. unfold grade_of.
  pose proof (ge_int_to_int f n 80 ltac:(lia) Hn) as H80.
  pose proof (ge_int_to_int f n 60 ltac:(lia) Hn) as H60.
  destruct (ge (PyFloat f) (PyInt 80)), (ge (PyFloat f) (PyInt 60));
    repeat split; intros; try discriminate; try lia;
    try (exfalso; intuition (lia || congruence)).
Qed.

Lemma industry_score_tier x : industry_score x ∈ [0; 60; 80; 100].
Proof. unfold industry_score. repeat case_match; set_solver. Qed.

Lemma profit_score_tier x : profit_score x ∈ [0; 40; 60; 80; 100].
Proof. unfold profit_score. repeat case_match; set_solver. Qed.

Lemma mos_score_tier x y v : mos_score x y = Ok v -> v ∈ [0; 50; 80; 100].
Proof.
  unfold mos_score, mos_tier. destruct (gt y (PyInt 0)).
  - intros H. apply bind_Ok in H as (pct & _ & [= <-]).
    repeat case_match; set_solver.
  - destruct (_ && _); intros [= <-]; set_solver.
Qed.

Lemma yield_score_tier x y : yield_score x y ∈ [0; 30; 60; 80; 100].
Proof. unfold yield_score. repeat case_match; set_solver. Qed.

Lemma competition_score_tier x y v :
  competition_score x y = Ok v -> v ∈ [20; 50; 80; 100].
Proof.
  unfold competition_score, competition_tier.
  intros H. apply bind_Ok in H as (d & _ & [= <-]).
  repeat case_match; set_solver.
Qed.

Lemma risk_multiplier_set t b :
  risk_multiplier t b ∈ [f0_5; f0_6; f0_8; f0_9; f1_0].
Proof. unfold risk_multiplier. repeat case_match; set_solver. Qed.

End Grading.

(** C9: in every report each raw sub-score lies in the tier set of its axis
    (all of them within {0,20,30,40,50,60,80,100}), riskMult is one of 0.5,
    0.6, 0.8, 0.9, 1.0, and the grade partitions finalScore: "A" iff
    finalScore >= 80, "B" iff 60 <= finalScore < 80, "C" iff finalScore < 60. *)
Theorem report_tiers_and_grade metrics weights target_return r :
  calculate_master_score metrics weights target_return = Ok r ->
  (exists ind prof mos yld comp,
     rawScores r = scores_dict ind prof mos yld comp /\
     ind ∈ [0; 60; 80; 100] /\ prof ∈ [0; 40; 60; 80; 100] /\
     mos ∈ [0; 50; 80; 100] /\ yld ∈ [0; 30; 60; 80; 100] /\
     comp ∈ [20; 50; 80; 100]) /\
  (forall k v, rawScores r !! k = Some v ->
     v ∈ [0; 20; 30; 40; 50; 60; 80; 100]) /\
  riskMult r ∈ [f0_5; f0_6; f0_8; f0_9; f1_0] /\
  (grade r = "A" <-> 80 <= finalScore r) /\
  (grade r = "B" <-> 60 <= finalScore r < 80) /\
  (grade r = "C" <-> finalScore r < 60).
Proof.
  intros Hr.
  apply score_inv in Hr as (rs & base & Hrs & _ & Hfinal & _ & -> & -> & ->).
  apply raw_scores_inv in Hrs as (mos & comp & Hmos & Hcomp & ->).
  pose proof (industry_score_tier (industry_growth_3yr (defaulted metrics))) as Hi.
  pose proof (profit_score_tier (net_profit_growth_5yr (defaulted metrics))) as Hp.
  pose proof (mos_score_tier _ _ _ Hmos) as Hm.
  pose proof (yield_score_tier (dividend_yield (defaulted metrics))
                (dividend_years_consecutive (defaulted metrics))) as Hy.
  pose proof (competition_score_tier _ _ _ Hcomp) as Hc.
  split; [by eauto 12|]. split; [|split; [apply risk_multiplier_set|]].
  - intros k v Hv.
    rewrite !elem_of_cons, elem_of_nil in Hi.
    rewrite !elem_of_cons, elem_of_nil in Hp.
    rewrite !elem_of_cons, elem_of_nil in Hm.
    rewrite !elem_of_cons, elem_of_nil in Hy.
    rewrite !elem_of_cons, elem_of_nil in Hc.
    rewrite !elem_of_cons.
    destruct (scores_dict_values _ _ _ _ _ _ _ Hv) as [->|[->|[->|[->| ->]]]];
      lia.
  - by apply grade_of_spec.
Qed.

Lemma report_tiers_and_grade_witness :
  exists r,
    calculate_master_score scenario1_metrics default_weights (PyInt 12) = Ok r /\
    riskMult r ∈ [f0_5; f0_6; f0_8; f0_9; f1_0] /\
    (grade r = "A" <-> 80 <= finalScore r).
Proof.
  run_score r E. exists r. split; [reflexivity|].
  destruct (report_tiers_and_grade _ _ _ r E) as (_ & _ & Hm & Hg & _).
  exact (conj Hm Hg).
Defined.

(** ** Dependence on the recognized keys only *)

Lemma get_agree (d1 d2 : gmap string pynum) k dflt :
  d1 !! k = d2 !! k -> get d1 k dflt = get d2 k dflt.
Proof. unfold get. by intros ->. Qed.

Lemma defaulted_agree (m1 m2 : gmap string pynum) :
  (forall k, k ∈ metric_keys -> m1 !! k = m2 !! k) ->
  defaulted m1 = defaulted m2.
Proof.
  intros H. unfold defaulted.
  f_equal; apply get_agree, H; unfold metric_keys;
    rewrite !elem_of_cons; auto 10.
Qed.

Lemma base_score_agree rs (w1 w2 : gmap string pynum) :
  (forall k, k ∈ weight_keys -> w1 !! k = w2 !! k) ->
  base_score rs w1 = base_score rs w2.
Proof.
  intros H. unfold base_score.
  rewrite (get_agree w1 w2 "industry"), (get_agree w1 w2 "profit"),
    (get_agree w1 w2 "mos"), (get_agree w1 w2 "yield_val"),
    (get_agree w1 w2 "competition");
    [reflexivity | apply H; unfold weight_keys; rewrite !elem_of_cons;
                   auto 10 ..].
Qed.

(** C10: two calls whose metrics agree on the eight recognized metric keys,
    whose weights agree on the five recognized weight keys and whose
    target_return is the same have the same outcome; other keys (such as a
    weight stored under "yield" instead of "yield_val") are never read. *)
Theorem recognized_keys_only (m1 m2 w1 w2 : gmap string pynum) target_return :
  (forall k, k ∈ metric_keys -> m1 !! k = m2 !! k) ->
  (forall k, k ∈ weight_keys -> w1 !! k = w2 !! k) ->
  calculate_master_score m1 w1 target_return =
  calculate_master_score m2 w2 target_return.
Proof.
  intros Hm Hw. unfold calculate_master_score.
  rewrite (defaulted_agree m1 m2 Hm).
  destruct (raw_scores (defaulted m2)) as [rs|e]; [simpl|reflexivity].
  by rewrite (base_score_agree rs w1 w2 Hw).
Qed.

(** A weight under "yield" and an unknown metric change nothing: the yield
    weight stays the default 20 of the absent key "yield_val". *)
Lemma recognized_keys_only_witness :
  calculate_master_score
    (<["ticker_id" := PyInt 7]> scenario1_metrics)
    (<["yield" := PyInt 90]> (delete "yield_val" default_weights)) (PyInt 12) =
  calculate_master_score scenario1_metrics
    (delete "yield_val" default_weights) (PyInt 12).
Proof.
  apply (recognized_keys_only
           (<["ticker_id" := PyInt 7]> scenario1_metrics) scenario1_metrics
           (<["yield" := PyInt 90]> (delete "yield_val" default_weights))
           (delete "yield_val" default_weights) (PyInt 12)).
  - intros k Hk. apply lookup_insert_ne. intros <-.
    unfold metric_keys in Hk. rewrite !elem_of_cons, elem_of_nil in Hk.
    intuition discriminate.
  - intros k Hk. apply lookup_insert_ne. intros <-.
    unfold weight_keys in Hk. rewrite !elem_of_cons, elem_of_nil in Hk.
    intuition discriminate.
Defined.

(** ** The final score *)

Section FinalScore.
Import PyNumFacts.

(** A float that is not below zero has its floor equal to its truncation. *)
Lemma floor_trunc_nonneg f n :
  lt (PyFloat f) (PyInt 0) = false -> to_int f = Ok n -> floor f = Some n.
Proof.
  unfold lt, compare. destruct f as [s|s| |s m e]; simpl; try discriminate.
  - by intros _ [= <-].
  - destruct s; [|by intros _ [= <-]].
    unfold Zcompare_finite.
    assert (Hlt : forall b : Z, b < 0 -> CompOpp (0 ?= b) = Lt).
    { intros b Hb. destruct (Z.compare_spec 0 b); simpl; auto; lia. }
    destruct e as [|p|p]; simpl (0 * _).
    + rewrite Hlt by lia. discriminate.
    + pose proof (pow2_pos p). rewrite Hlt by nia. discriminate.
    + rewrite Hlt by lia. discriminate.
Qed.

(** The sign of a product by a positive finite factor is the sign of the
    other factor. *)
Lemma SFmul_not_lt_zero f m e :
  lt (PyFloat f) (PyInt 0) = false ->
  lt (PyFloat (SFmul prec emax f (S754_finite false m e))) (PyInt 0) = false.
Proof.
  unfold lt, compare.
  assert (Hlt : forall b : Z, b < 0 -> CompOpp (0 ?= b) = Lt).
  { intros b Hb. destruct (Z.compare_spec 0 b); simpl; auto; lia. }
  assert (Hge : forall b : Z, 0 <= b -> CompOpp (0 ?= b) <> Lt).
  { intros b Hb. destruct (Z.compare_spec 0 b); simpl; congruence || lia. }
  destruct f as [s|s| |s mf ef]; simpl; try done.
  - destruct s; simpl; done.
  - destruct s; simpl.
    + unfold Zcompare_finite. intros H. exfalso.
      destruct ef as [|p|p]; simpl (0 * _) in H.
      * rewrite Hlt in H by lia. discriminate.
      * pose proof (pow2_pos p). rewrite Hlt in H by nia. discriminate.
      * rewrite Hlt in H by lia. discriminate.
    + intros _. unfold binary_round_aux.
      destruct (shr_fexp _ _ _ _ _) as [mrs' e'].
      destruct (shr_fexp _ _ _ _ _) as [mrs'' e''].
      destruct (shr_m mrs'') as [|q|q]; simpl; try done.
      destruct (e'' <=? emax - prec); simpl; [|done].
      unfold Zcompare_finite.
      destruct e'' as [|p|p]; simpl (0 * _).
      * destruct (CompOpp _) eqn:Hc; try done;
          exfalso; (eapply Hge; [|exact Hc]); lia.
      * pose proof (pow2_pos p).
        destruct (CompOpp _) eqn:Hc; try done;
          exfalso; (eapply Hge; [|exact Hc]); nia.
      * destruct (CompOpp _) eqn:Hc; try done;
          exfalso; (eapply Hge; [|exact Hc]); lia.
Qed.

End FinalScore.

(** C3, as stated: finalScore is not floor(baseScore * riskMult).  With the
    only weight -1 on competition the report has baseScore -0.5, riskMult 1.0
    and finalScore 0 (floor gives -1); with the only weight 79.96 on profit
    it has baseScore 80.0, riskMult 1.0 and finalScore 79 (floor gives 80). *)
Lemma final_score_not_floor_of_reported :
  (exists r,
     calculate_master_score ∅ (<["competition" := PyInt (-1)]> zero_weights)
       (PyInt 12) = Ok r /\
     baseScore r = lit (-5) 10 /\ riskMult r = lit 10 10 /\
     finalScore r = 0 /\
     floor (SFmul prec emax (baseScore r) (riskMult r)) = Some (-1)) /\
  (exists r,
     calculate_master_score (<["net_profit_growth_5yr" := PyInt 20]> ∅)
       (<["profit" := PyFloat (lit 7996 100)]> zero_weights) (PyInt 12) = Ok r /\
     baseScore r = lit 800 10 /\ riskMult r = lit 10 10 /\
     finalScore r = 79 /\
     floor (SFmul prec emax (baseScore r) (riskMult r)) = Some 80).
Proof.
  split; (eexists; split; [vm_compute; reflexivity|]); vm_compute; done.
Qed.

(** C3, amended: finalScore is base_score * riskMult truncated toward zero,
    where base_score is the unrounded weighted sum whose rounding to one
    decimal is the reported baseScore; when base_score >= 0 this is also
    floor(base_score * riskMult). *)
Theorem final_score_truncates metrics weights target_return r :
  calculate_master_score metrics weights target_return = Ok r ->
  exists rs base,
    raw_scores (defaulted metrics) = Ok rs /\
    base_score rs weights = Ok base /\
    baseScore r = round1 base /\
    to_int (SFmul prec emax base (riskMult r)) = Ok (finalScore r) /\
    (ge (PyFloat base) (PyInt 0) = true ->
       floor (SFmul prec emax base (riskMult r)) = Some (finalScore r)).
Proof.
  intros Hr.
  apply score_inv in Hr as (rs & base & Hrs & Hbase & Hfinal & Hb & _ & Hrisk & _).
  exists rs, base. rewrite Hrisk. repeat split; try done.
  intros Hge. apply floor_trunc_nonneg; [|done].
  pose proof (risk_multiplier_set target_return (beta (defaulted metrics))) as Hset.
  apply PyNumFacts.ge_not_lt in Hge.
  repeat (apply elem_of_cons in Hset as [->|Hset]);
    try (by apply SFmul_not_lt_zero).
  by apply elem_of_nil in Hset.
Qed.

Lemma final_score_truncates_witness :
  exists r rs base,
    calculate_master_score ∅ (<["competition" := PyInt (-1)]> zero_weights)
      (PyInt 12) = Ok r /\
    raw_scores (defaulted ∅) = Ok rs /\
    base_score rs (<["competition" := PyInt (-1)]> zero_weights) = Ok base /\
    baseScore r = round1 base /\
    to_int (SFmul prec emax base (riskMult r)) = Ok (finalScore r).
Proof.
  run_score r E. exists r.
  destruct (final_score_truncates _ _ _ r E) as (rs & base & H1 & H2 & H3 & H4 & _).
  exists rs, base. auto.
Defined.

(** ** Totality *)

Section Totality.
Import PyNumFacts RoundFacts.

Lemma bind_eq {A B} (r : result A) (k : A -> result B) a :
  r = Ok a -> r ≫= k = k a.
Proof. by intros ->. Qed.

Lemma pow2_1000_pos : 0 < 2 ^ 1000.
Proof. apply Z.pow_pos_nonneg; lia. Qed.

Lemma to_float_in_range x :
  in_range x ->
  exists f, to_float x = Ok f /\
            (forall z, x = PyInt z -> z <> 0 -> is_zero f = false).
Proof.
  destruct x as [z|f]; simpl.
  - intros Hz.
    destruct (int_to_float_small z 1000) as (f & Hf & _ & Hnz);
      [by apply Zdigits2_abs_lt|lia|].
    exists f. split; [done|]. by intros ? [= <-].
  - intros _. exists f. by split.
Qed.

Lemma float_op_returns op x y :
  in_range x -> in_range y -> returns (float_op op x y).
Proof.
  intros Hx Hy. unfold float_op.
  destruct (to_float_in_range x Hx) as (f & -> & _).
  destruct (to_float_in_range y Hy) as (g & -> & _).
  eexists. reflexivity.
Qed.

Lemma sub_returns x y : in_range x -> in_range y -> returns (sub x y).
Proof.
  intros Hx Hy. destruct x, y; try by apply float_op_returns.
  eexists. reflexivity.
Qed.

(** A positive divisor is not a zero. *)
Lemma gt_zero_nonzero y :
  gt y (PyInt 0) = true ->
  match y with PyInt b => b <> 0 | PyFloat g => is_zero g = false end.
Proof.
  unfold gt, compare. destruct y as [b|g].
  - destruct (Z.compare_spec b 0); try done. lia.
  - by destruct g.
Qed.

Lemma mos_pct_returns stock_pe sect_pe :
  in_range stock_pe -> in_range sect_pe -> gt sect_pe (PyInt 0) = true ->
  returns (mos_pct stock_pe sect_pe).
Proof.
  intros Hst Hse Hgt. unfold mos_pct.
  apply gt_zero_nonzero in Hgt.
  destruct sect_pe as [b|g], stock_pe as [a|f].
  - (* int, int *)
    cbn [sub mbind result_bind truediv]. simpl in Hst, Hse.
    destruct (int_truediv_small (b - a) b 1001) as (q & -> & _);
      [done| |lia|by eexists].
    apply Zdigits2_abs_lt; [lia|].
    change (2 ^ 1001) with (2 * 2 ^ 1000). lia.
  - (* int sector, float stock *)
    unfold sub, float_op, truediv.
    destruct (to_float_in_range (PyInt b) Hse) as (fb & Hfb & Hnz).
    cbn [to_float] in Hfb.
    repeat (rewrite ?Hfb; cbn [to_float mbind result_bind mret result_ret]).
    rewrite (Hnz b eq_refl Hgt). by eexists.
  - (* float sector, int stock *)
    unfold sub, float_op, truediv.
    destruct (to_float_in_range (PyInt a) Hst) as (fa & Hfa & _).
    cbn [to_float] in Hfa.
    repeat (rewrite ?Hfa; cbn [to_float mbind result_bind mret result_ret]).
    rewrite Hgt. by eexists.
  - (* float, float *)
    unfold sub, float_op, truediv.
    cbn [to_float mbind result_bind mret result_ret].
    rewrite Hgt. by eexists.
Qed.

Lemma mos_score_returns stock_pe sect_pe :
  in_range stock_pe -> in_range sect_pe ->
  returns (mos_score stock_pe sect_pe).
Proof.
  intros Hst Hse. unfold mos_score.
  destruct (gt sect_pe (PyInt 0)) eqn:Hgt.
  - destruct (mos_pct_returns stock_pe sect_pe Hst Hse Hgt) as [pct ->].
    by eexists.
  - destruct (_ && _); by eexists.
Qed.

Lemma competition_score_returns x y :
  in_range x -> in_range y -> returns (competition_score x y).
Proof.
  intros Hx Hy. unfold competition_score.
  destruct (sub_returns x y Hx Hy) as [d ->]. by eexists.
Qed.

Lemma get_in_range (P : pynum -> Prop) (d : gmap string pynum) k dflt :
  (forall v, d !! k = Some v -> P v) -> P dflt -> P (get d k dflt).
Proof. unfold get. destruct (d !! k); simpl; auto. Qed.

Lemma raw_scores_returns metrics :
  (forall k v, k ∈ metric_keys -> metrics !! k = Some v -> in_range v) ->
  returns (raw_scores (defaulted metrics)).
Proof.
  intros H.
  assert (Hin : forall k dflt, k ∈ metric_keys -> in_range dflt ->
                               in_range (get metrics k dflt)).
  { intros k dflt Hk Hd. apply get_in_range; [|done]. intros v. by apply H. }
  assert (H0 : in_range (PyInt 0)) by (simpl; pose proof pow2_1000_pos; lia).
  unfold raw_scores, defaulted. cbn [pe_ratio sector_pe company_growth_rate
    industry_growth_3yr dividend_yield dividend_years_consecutive
    net_profit_growth_5yr].
  destruct (mos_score_returns (get metrics "pe_ratio" (PyInt 0))
              (get metrics "sector_pe" (PyInt 0))) as [mos ->];
    [apply Hin; [unfold metric_keys; rewrite !elem_of_cons; auto 10|done]..|].
  cbn [mbind result_bind].
  destruct (competition_score_returns
              (get metrics "company_growth_rate" (PyInt 0))
              (get metrics "industry_growth_3yr" (PyInt 0))) as [comp ->];
    [apply Hin; [unfold metric_keys; rewrite !elem_of_cons; auto 10|done]..|].
  by eexists.
Qed.

(** With int weights the weighted sum is an exact int. *)
Lemma base_score_int rs (weights : gmap string pynum) w1 w2 w3 w4 w5 :
  get weights "industry" (PyInt 15) = PyInt w1 ->
  get weights "profit" (PyInt 25) = PyInt w2 ->
  get weights "mos" (PyInt 25) = PyInt w3 ->
  get weights "yield_val" (PyInt 20) = PyInt w4 ->
  get weights "competition" (PyInt 15) = PyInt w5 ->
  base_score rs weights =
    f ← int_to_float
          (default 0 (rs !! "industry") * w1 + default 0 (rs !! "profit") * w2 +
           default 0 (rs !! "mos") * w3 + default 0 (rs !! "yield") * w4 +
           default 0 (rs !! "competition") * w5);
    Ok (SFdiv prec emax f f100_0).
Proof.
  intros E1 E2 E3 E4 E5. unfold base_score, item.
  rewrite E1, E2, E3, E4, E5.
  cbn [mul add mbind result_bind truediv to_float].
  destruct (int_to_float _); reflexivity.
Qed.

Lemma get_int_in_range (weights : gmap string pynum) k d :
  (forall v, weights !! k = Some v -> int_in_range v) ->
  Z.abs d < 2 ^ 1000 ->
  exists w, get weights k (PyInt d) = PyInt w /\ Z.abs w < 2 ^ 1000.
Proof.
  intros H Hd. unfold get. destruct (weights !! k) as [[w|f]|]; simpl.
  - exists w. split; [done|]. by apply (H (PyInt w)).
  - by destruct (H (PyFloat f)).
  - by exists d.
Qed.

Lemma tier_range (v : Z) (l : list Z) :
  v ∈ l -> forallb (fun x => (0 <=? x) && (x <=? 100)) l = true ->
  0 <= v <= 100.
Proof.
  intros Hv Hl. rewrite forallb_forall in Hl.
  apply list_elem_of_In, Hl, andb_prop in Hv as [H1 H2]. lia.
Qed.

Lemma sum_bound a b c d e P :
  0 < P -> Z.abs a <= 100 * P -> Z.abs b <= 100 * P -> Z.abs c <= 100 * P ->
  Z.abs d <= 100 * P -> Z.abs e <= 100 * P ->
  Z.abs (a + b + c + d + e) < 512 * P.
Proof. lia. Qed.

Lemma term_bound v w : 0 <= v <= 100 -> Z.abs w < 2 ^ 1000 ->
  Z.abs (v * w) <= 100 * 2 ^ 1000.
Proof. intros Hv Hw. rewrite Z.abs_mul. pose proof (Z.abs_nonneg w). nia. Qed.

Lemma base_score_returns metrics weights rs :
  raw_scores (defaulted metrics) = Ok rs ->
  (forall k v, k ∈ weight_keys -> weights !! k = Some v -> int_in_range v) ->
  exists base, base_score rs weights = Ok base /\ small 1011 base.
Proof.
  intros Hrs Hw.
  apply raw_scores_inv in Hrs as (mos & comp & Hmos & Hcomp & ->).
  pose proof pow2_1000_pos as Hp.
  assert (Hk : forall k d, k ∈ weight_keys -> Z.abs d < 2 ^ 1000 ->
            exists w, get weights k (PyInt d) = PyInt w /\ Z.abs w < 2 ^ 1000).
  { intros k d Hk Hd. apply get_int_in_range; [|done]. intros v. by apply Hw. }
  destruct (Hk "industry" 15) as (w1 & E1 & B1);
    [unfold weight_keys; rewrite !elem_of_cons; auto 10|lia|].
  destruct (Hk "profit" 25) as (w2 & E2 & B2);
    [unfold weight_keys; rewrite !elem_of_cons; auto 10|lia|].
  destruct (Hk "mos" 25) as (w3 & E3 & B3);
    [unfold weight_keys; rewrite !elem_of_cons; auto 10|lia|].
  destruct (Hk "yield_val" 20) as (w4 & E4 & B4);
    [unfold weight_keys; rewrite !elem_of_cons; auto 10|lia|].
  destruct (Hk "competition" 15) as (w5 & E5 & B5);
    [unfold weight_keys; rewrite !elem_of_cons; auto 10|lia|].
  rewrite (base_score_int _ _ _ _ _ _ _ E1 E2 E3 E4 E5).
  rewrite scores_dict_industry, scores_dict_profit, scores_dict_mos,
    scores_dict_yield, scores_dict_competition. cbn [default].
  pose proof (tier_range _ _ (industry_score_tier
    (industry_growth_3yr (defaulted metrics))) ltac:(by vm_compute)) as R1.
  pose proof (tier_range _ _ (profit_score_tier
    (net_profit_growth_5yr (defaulted metrics))) ltac:(by vm_compute)) as R2.
  pose proof (tier_range _ _ (mos_score_tier _ _ _ Hmos)
    ltac:(by vm_compute)) as R3.
  pose proof (tier_range _ _ (yield_score_tier
    (dividend_yield (defaulted metrics))
    (dividend_years_consecutive (defaulted metrics)))
    ltac:(by vm_compute)) as R4.
  pose proof (tier_range _ _ (competition_score_tier _ _ _ Hcomp)
    ltac:(by vm_compute)) as R5.
  pose proof (term_bound _ w1 R1 B1) as T1.
  pose proof (term_bound _ w2 R2 B2) as T2.
  pose proof (term_bound _ w3 R3 B3) as T3.
  pose proof (term_bound _ w4 R4 B4) as T4.
  pose proof (term_bound _ w5 R5 B5) as T5.
  clear R1 R2 R3 R4 R5 Hmos Hcomp.
  match goal with |- context [int_to_float ?S] =>
    destruct (int_to_float_small S 1009) as (f & -> & Hf & _)
  end.
  - apply Zdigits2_abs_lt; [lia|].
    change (2 ^ 1009) with (512 * 2 ^ 1000). by apply sum_bound.
  - lia.
  - cbn [mbind result_bind]. eexists. split; [reflexivity|].
    apply SFdiv_100_small; [|lia].
    by apply (small_mono (1009 + 1)).
Qed.

Lemma risk_multiplier_factor t b :
  exists mc ec, risk_multiplier t b = S754_finite false mc ec /\
                Zdigits2 (Z.pos mc) + ec <= 1 /\ ec <= 0.
Proof.
  pose proof (risk_multiplier_set t b) as H.
  rewrite !elem_of_cons, elem_of_nil in H.
  destruct H as [->|[->|[->|[->|[->|[]]]]]];
    (eexists _, _; split; [reflexivity|]; by vm_compute).
Qed.

(** *** No division by zero *)

Lemma bind_no_zdiv {A B} (r : result A) (k : A -> result B) :
  no_zdiv r -> (forall a, r = Ok a -> no_zdiv (k a)) -> no_zdiv (r ≫= k).
Proof.
  unfold no_zdiv. destruct r as [a|e]; simpl; [auto|]. intros H _ [= ->]. done.
Qed.

Lemma int_to_float_no_zdiv z : no_zdiv (int_to_float z).
Proof. unfold no_zdiv, int_to_float. by destruct (binary_normalize _ _ _ _ _). Qed.

Lemma to_float_no_zdiv x : no_zdiv (to_float x).
Proof. destruct x; [apply int_to_float_no_zdiv | done]. Qed.

Lemma float_op_no_zdiv op x y : no_zdiv (float_op op x y).
Proof.
  unfold float_op. apply bind_no_zdiv; [apply to_float_no_zdiv|]. intros f _.
  apply bind_no_zdiv; [apply to_float_no_zdiv|]. done.
Qed.

Lemma add_no_zdiv x y : no_zdiv (add x y).
Proof. destruct x, y; try apply float_op_no_zdiv. done. Qed.

Lemma sub_no_zdiv x y : no_zdiv (sub x y).
Proof. destruct x, y; try apply float_op_no_zdiv. done. Qed.

Lemma mul_no_zdiv x y : no_zdiv (mul x y).
Proof. destruct x, y; try apply float_op_no_zdiv. done. Qed.

Lemma truediv_no_zdiv x y :
  match y with PyInt b => b <> 0 | PyFloat g => is_zero g = false end ->
  no_zdiv (truediv x y).
Proof.
  intros Hy.
  assert (Hfloat : no_zdiv (f ← to_float x; g ← to_float y;
                             if is_zero g then Raise ZeroDivisionError
                             else mret (PyFloat (SFdiv prec emax f g)))).
  { apply bind_no_zdiv; [apply to_float_no_zdiv|]. intros f _.
    apply bind_no_zdiv; [apply to_float_no_zdiv|]. intros g Hg.
    assert (Hz : is_zero g = false).
    { destruct y as [b|g']; simpl in Hg.
      - by apply (int_to_float_nonzero b).
      - by injection Hg as <-. }
    by rewrite Hz. }
  destruct x as [a|f], y as [b|g]; try exact Hfloat.
  unfold truediv, int_truediv, no_zdiv.
  replace (b =? 0) with false by (symmetry; apply Z.eqb_neq; lia).
  by destruct (nearest_quotient a b).
Qed.

Lemma mos_score_no_zdiv stock_pe sect_pe : no_zdiv (mos_score stock_pe sect_pe).
Proof.
  unfold mos_score. destruct (gt sect_pe (PyInt 0)) eqn:Hgt.
  - apply bind_no_zdiv; [|done]. unfold mos_pct.
    apply bind_no_zdiv; [apply sub_no_zdiv|]. intros d _.
    by apply truediv_no_zdiv, gt_zero_nonzero.
  - by destruct (_ && _).
Qed.

Lemma raw_scores_no_zdiv m : no_zdiv (raw_scores m).
Proof.
  unfold raw_scores. apply bind_no_zdiv; [apply mos_score_no_zdiv|]. intros mos _.
  apply bind_no_zdiv; [|done]. unfold competition_score.
  apply bind_no_zdiv; [apply sub_no_zdiv|]. done.
Qed.

Lemma base_score_no_zdiv rs weights : no_zdiv (base_score rs weights).
Proof.
  unfold base_score.
  repeat (apply bind_no_zdiv;
          [first [apply mul_no_zdiv | apply add_no_zdiv]|intros ? _]).
  apply bind_no_zdiv; [by apply truediv_no_zdiv|]. intros q _.
  apply to_float_no_zdiv.
Qed.

Lemma to_int_no_zdiv f : no_zdiv (to_int f).
Proof. by destruct f. Qed.

End Totality.

(** C7, as stated: an int that does not fit a float makes the call raise
    OverflowError, through a weight (the weighted sum is divided by 100.0) or
    through a metric (the margin of safety is a true division). *)
Lemma huge_int_overflows :
  calculate_master_score ∅ (<["industry" := PyInt (10 ^ 400)]> ∅) (PyInt 12)
    = Raise OverflowError /\
  calculate_master_score
    (<["sector_pe" := PyInt 1]> (<["pe_ratio" := PyInt (- 10 ^ 400)]> ∅))
    default_weights (PyInt 12)
    = Raise OverflowError.
Proof. split; vm_compute; reflexivity. Qed.

(** C7, amended: no numeric input makes the call raise ZeroDivisionError
    (the division by sector_pe is guarded by sector_pe > 0, the other divisor
    is 100.0); and the call returns a report whenever the ints among the
    recognized metrics and the weights (all ints) have a magnitude below
    2^1000, for arbitrary float metrics (negative, zero, infinite, NaN) and
    an arbitrary target_return. *)
Theorem score_total_in_range metrics weights target_return :
  calculate_master_score metrics weights target_return
    <> Raise ZeroDivisionError /\
  ((forall k v, k ∈ metric_keys -> metrics !! k = Some v -> in_range v) ->
   (forall k v, k ∈ weight_keys -> weights !! k = Some v -> int_in_range v) ->
   returns (calculate_master_score metrics weights target_return)).
Proof.
  split.
  - unfold calculate_master_score.
    apply bind_no_zdiv; [apply raw_scores_no_zdiv|]. intros rs _.
    apply bind_no_zdiv; [apply base_score_no_zdiv|]. intros base _.
    apply bind_no_zdiv; [apply to_int_no_zdiv|]. done.
  - intros Hm Hw. unfold calculate_master_score.
    destruct (raw_scores_returns metrics Hm) as [rs Hrs].
    rewrite (bind_eq _ _ _ Hrs).
    destruct (base_score_returns metrics weights rs Hrs Hw) as (base & Hb & Hs).
    rewrite (bind_eq _ _ _ Hb).
    destruct (risk_multiplier_factor target_return (beta (defaulted metrics)))
      as (mc & ec & -> & Hmc & Hec).
    destruct (RoundFacts.small_to_int 1013
                (SFmul prec emax base (S754_finite false mc ec))) as [n Hn].
    { by apply (RoundFacts.SFmul_small base mc ec 1011). }
    rewrite (bind_eq _ _ _ Hn). by eexists.
Qed.

Lemma score_total_in_range_witness :
  returns (calculate_master_score degenerate_metrics unbalanced_weights
             (PyFloat (lit 125 10))).
Proof.
  destruct (score_total_in_range degenerate_metrics unbalanced_weights
              (PyFloat (lit 125 10))) as [_ H].
  apply H.
  - intros k v Hk Hv. unfold metric_keys in Hk.
    rewrite !elem_of_cons, elem_of_nil in Hk.
    destruct Hk as [->|[->|[->|[->|[->|[->|[->|[->|[]]]]]]]]];
      vm_compute in Hv;
      first [discriminate Hv | injection Hv as <-; by vm_compute].
  - intros k v Hk Hv. unfold weight_keys in Hk.
    rewrite !elem_of_cons, elem_of_nil in Hk.
    destruct Hk as [->|[->|[->|[->|[->|[]]]]]];
      vm_compute in Hv;
      first [discriminate Hv | injection Hv as <-; by vm_compute].
Defined.

(** ** The final score against the reported base score *)

Section FinalVsBase.
Import PyNumFacts RoundFacts RoundExact.

(** The unrounded base score is a quotient by [100.0]. *)
Lemma base_score_quotient rs weights base :
  base_score rs weights = Ok base ->
  exists f, base = SFdiv prec emax f f100_0.
Proof.
  unfold base_score. intros H.
  do 8 (apply bind_Ok in H as (? & _ & H)).
  apply bind_Ok in H as (s & _ & H).
  apply bind_Ok in H as (q & Hq & H).
  unfold truediv in Hq.
  assert (Hf : exists f, q = PyFloat (SFdiv prec emax f f100_0)).
  { destruct s as [z|f].
    - apply bind_Ok in Hq as (f & _ & Hq). cbn in Hq.
      injection Hq as <-. by exists f.
    - cbn in Hq. injection Hq as <-. by exists f. }
  destruct Hf as (f & ->). cbn in H. injection H as <-. by exists f.
Qed.

Lemma risk_multiplier_le_1 t b :
  exists mc ec, risk_multiplier t b = S754_finite false mc ec /\
                ec <= 0 /\ Z.pos mc <= 2 ^ (- ec) /\
                le (PyFloat (risk_multiplier t b)) (PyFloat f1_0) = true.
Proof.
  pose proof (risk_multiplier_set t b) as H.
  rewrite !elem_of_cons, elem_of_nil in H.
  destruct H as [->|[->|[->|[->|[->|[]]]]]];
    (eexists _, _; split; [reflexivity|]; by vm_compute).
Qed.

Lemma le_int_zero n s : n <= 0 -> le (PyInt n) (PyFloat (S754_zero s)) = true.
Proof.
  intros Hn. unfold le, compare, int_float_compare.
  destruct (Z.compare_spec n 0); (done || lia).
Qed.

Lemma negative_not_ge_zero p e :
  ge (PyFloat (S754_finite true p e)) (PyInt 0) = false.
Proof.
  unfold ge, compare, int_float_compare, Zcompare_finite.
  assert (Hneg : forall v, v < 0 -> (0 ?= v) = Gt)
    by (intros v Hv; by apply Z.compare_gt_iff).
  destruct e as [|k|k]; cbn [fmap option_fmap option_map].
  - change (2 ^ 0) with 1. by rewrite Hneg by lia.
  - pose proof (pow2_pos k). by rewrite Hneg by nia.
  - by rewrite Z.mul_0_l, Hneg by lia.
Qed.

(** A negative float whose rounding is not below zero rounds to a zero. *)
Lemma round1_negative mb eb :
  ge (PyFloat (round1 (S754_finite true mb eb))) (PyInt 0) = true ->
  exists s, round1 (S754_finite true mb eb) = S754_zero s.
Proof.
  unfold round1. destruct (tenths mb eb) as [|N|N] eqn:EN; [by eexists| |].
  - change (- Z.pos N) with (Z.neg N). unfold nearest_quotient.
    change (xorb (Z.neg N <? 0) (10 <? 0)) with true.
    destruct (SFdiv_core_binary prec emax _ _ _ _) as [[q e] l].
    unfold binary_round_aux.
    destruct (shr_fexp _ _ _ _ _) as [mrs' e'].
    destruct (shr_fexp _ _ _ _ _) as [mrs'' e''].
    destruct (shr_m mrs'') as [|p|p]; [by eexists| |done].
    destruct (e'' <=? emax - prec); [|done].
    by rewrite negative_not_ge_zero.
  - pose proof (tenths_ge mb eb). pose proof (trunc_mag_nonneg mb eb). lia.
Qed.

Lemma final_le_reported base c mc ec final :
  c = S754_finite false mc ec -> ec <= 0 -> Z.pos mc <= 2 ^ (- ec) ->
  (exists f, base = SFdiv prec emax f f100_0) ->
  to_int (SFmul prec emax base c) = Ok final ->
  ge (PyFloat (round1 base)) (PyInt 0) = true ->
  le (PyInt final) (PyFloat (round1 base)) = true.
Proof.
  intros -> Hec Hmc [f Hf] Hfinal Hge.
  destruct base as [s|s| |s mb eb]; try done.
  - (* a zero base score *)
    cbn in Hfinal. injection Hfinal as <-. by apply le_int_zero.
  - symmetry in Hf. apply SFdiv_canonical in Hf.
    pose proof (SFmul_le s mb eb mc ec Hf Hec Hmc) as Hle.
    destruct s.
    + (* a negative base score whose rounding is a zero *)
      destruct (round1_negative mb eb Hge) as [s' ->].
      apply le_int_zero.
      destruct (SFmul prec emax _ _) as [s|s| |s m e]; try done.
      * cbn in Hfinal. injection Hfinal as <-. lia.
      * destruct Hle as [-> _]. cbn in Hfinal. injection Hfinal as <-.
        pose proof (trunc_mag_nonneg m e). lia.
    + destruct (SFmul prec emax _ _) as [s|s| |s m e]; try done.
      * cbn in Hfinal. injection Hfinal as <-.
        apply round1_ge_trunc; [done|apply trunc_mag_nonneg].
      * destruct Hle as [-> Hle]. cbn in Hfinal. injection Hfinal as <-.
        by apply round1_ge_trunc.
Qed.

End FinalVsBase.

(** C4, as stated: with a negative weight the report can have finalScore
    above baseScore: baseScore -0.5 with finalScore 0, and (riskMult 0.5)
    baseScore -50.0 with finalScore -25. *)
Lemma negative_weight_final_above_base :
  (exists r,
     calculate_master_score ∅ (<["competition" := PyInt (-1)]> zero_weights)
       (PyInt 12) = Ok r /\
     baseScore r = lit (-5) 10 /\ finalScore r = 0 /\
     le (PyInt (finalScore r)) (PyFloat (baseScore r)) = false) /\
  (exists r,
     calculate_master_score (<["beta" := PyFloat (lit 20 10)]> ∅)
       (<["competition" := PyInt (-100)]> zero_weights) (PyInt 5) = Ok r /\
     baseScore r = lit (-500) 10 /\ riskMult r = lit 5 10 /\
     finalScore r = -25 /\
     le (PyInt (finalScore r)) (PyFloat (baseScore r)) = false).
Proof.
  split; (eexists; split; [vm_compute; reflexivity|]); vm_compute; done.
Qed.

(** C4, amended: riskMult is at most 1.0 in every report, and every report
    whose baseScore is not negative satisfies finalScore <= baseScore. *)
Theorem final_le_base_when_nonneg metrics weights target_return r :
  calculate_master_score metrics weights target_return = Ok r ->
  le (PyFloat (riskMult r)) (PyFloat f1_0) = true /\
  (ge (PyFloat (baseScore r)) (PyInt 0) = true ->
   le (PyInt (finalScore r)) (PyFloat (baseScore r)) = true).
Proof.
  intros Hr.
  apply score_inv in Hr as (rs & base & _ & Hb & Hfinal & -> & _ & -> & _).
  destruct (risk_multiplier_le_1 target_return (beta (defaulted metrics)))
    as (mc & ec & Hc & Hec & Hmc & Hle).
  split; [exact Hle|].
  apply (final_le_reported base _ mc ec (finalScore r) Hc Hec Hmc); [|done].
  by apply (base_score_quotient rs weights).
Qed.

Lemma final_le_base_when_nonneg_witness :
  exists r,
    calculate_master_score scenario1_metrics default_weights (PyInt 12) = Ok r /\
    le (PyInt (finalScore r)) (PyFloat (baseScore r)) = true.
Proof.
  run_score r E. exists r. split; [reflexivity|].
  destruct (final_le_base_when_nonneg _ _ _ r E) as [_ H]. apply H.
  pose proof scenario1_report_value as E'. rewrite E in E'.
  injection E' as ->. vm_compute. reflexivity.
Defined.

(** * Further properties of the scoring engine *)

(** ** Absent keys and the empty request *)

Section Defaults.

Lemma get_union_default (d dd : gmap string pynum) k dflt :
  dd !! k = Some dflt -> get (d ∪ dd) k dflt = get d k dflt.
Proof.
  intros Hk. unfold get. rewrite lookup_union, Hk.
  by destruct (d !! k).
Qed.

Lemma defaulted_union metrics :
  defaulted (metrics ∪ default_metrics) = defaulted metrics.
Proof. unfold defaulted. by rewrite !get_union_default. Qed.

Lemma base_score_union rs weights :
  base_score rs (weights ∪ default_weights) = base_score rs weights.
Proof. unfold base_score. by rewrite !get_union_default. Qed.

Lemma get_Some (d : gmap string pynum) k dflt v :
  d !! k = Some v -> get d k dflt = v.
Proof. unfold get. by intros ->. Qed.

Lemma get_insert_eq (d : gmap string pynum) k v dflt :
  get (<[k := v]> d) k dflt = v.
Proof. unfold get. by rewrite lookup_insert_eq. Qed.

Lemma get_insert_ne (d : gmap string pynum) k k' v dflt :
  k <> k' -> get (<[k := v]> d) k' dflt = get d k' dflt.
Proof. intros Hk. unfold get. by rewrite lookup_insert_ne. Qed.

End Defaults.

(** X1: an absent key behaves exactly as the key set to its default: filling
    the metrics in with 0 (1.0 for beta) and the weights with 15, 25, 25, 20,
    15 changes nothing, whatever the call does. *)
Theorem absent_keys_take_defaults metrics weights target_return :
  calculate_master_score (metrics ∪ default_metrics)
    (weights ∪ default_weights) target_return =
  calculate_master_score metrics weights target_return.
Proof.
  unfold calculate_master_score. rewrite defaulted_union.
  destruct (raw_scores (defaulted metrics)) as [rs|e]; [simpl|reflexivity].
  by rewrite base_score_union.
Qed.

(** X2: with no metrics and no weights the call returns, for every
    target_return, the sub-scores industry 60, profit 40, mos 0, yield 0,
    competition 50, baseScore 26.5 and grade "C"; the default beta 1.0 is
    multiplied by 1.0 and gives finalScore 26 in the Moderate band (which a
    NaN target_return falls into), by 0.9 and gives 23 otherwise. *)
Theorem empty_request target_return :
  calculate_master_score ∅ ∅ target_return =
  let moderate :=
    negb (lt target_return (PyInt 10)) && negb (ge target_return (PyInt 15)) in
  Ok {| baseScore := lit 265 10;
        finalScore := if moderate then 26 else 23;
        grade := "C";
        riskMult := if moderate then f1_0 else f0_9;
        rawScores := scores_dict 60 40 0 0 50 |}.
Proof.
  unfold calculate_master_score.
  assert (Hrs : raw_scores (defaulted ∅) = Ok (scores_dict 60 40 0 0 50))
    by (vm_compute; reflexivity).
  rewrite Hrs. cbn [mbind result_bind].
  assert (Hb : base_score (scores_dict 60 40 0 0 50) ∅ = Ok (lit 265 10))
    by (vm_compute; reflexivity).
  rewrite Hb. cbn [mbind result_bind].
  assert (Hbeta : beta (defaulted ∅) = PyFloat f1_0) by reflexivity.
  rewrite Hbeta. unfold risk_multiplier.
  destruct (lt target_return (PyInt 10)); [vm_compute; reflexivity|].
  destruct (ge target_return (PyInt 15)); vm_compute; reflexivity.
Qed.

(** ** The range of the scores *)

Section ScoreRange.

(** Sub-scores are multiples of 10, so a weighted sum is one too; the sums
    reachable with non-negative int weights of total at most 100 are checked
    one by one. *)
Lemma in_score_range_all :
  forallb (fun n => in_score_range (10 * Z.of_nat n)) (seq 0 (Z.to_nat 1001))
    = true.
Proof. vm_compute. reflexivity. Qed.

Lemma in_score_range_sum n : 0 <= n <= 1000 -> in_score_range (10 * n) = true.
Proof.
  intros Hn. pose proof in_score_range_all as H.
  rewrite forallb_forall in H.
  specialize (H (Z.to_nat n)). rewrite Z2Nat.id in H by lia.
  apply H, in_seq. lia.
Qed.

Lemma tier_tens (v : Z) (l : list Z) :
  v ∈ l ->
  forallb (fun x => (0 <=? x) && (x <=? 100) && (x mod 10 =? 0)) l = true ->
  exists k, v = 10 * k /\ 0 <= k <= 10.
Proof.
  intros Hv Hl. rewrite forallb_forall in Hl.
  apply list_elem_of_In, Hl in Hv.
  apply andb_prop in Hv as [Hv H3]. apply andb_prop in Hv as [H1 H2].
  exists (v / 10). apply Z.eqb_eq in H3.
  pose proof (Z.div_mod v 10 ltac:(lia)). lia.
Qed.

Lemma weighted_sum_tens k1 k2 k3 k4 k5 w1 w2 w3 w4 w5 :
  0 <= k1 <= 10 -> 0 <= k2 <= 10 -> 0 <= k3 <= 10 -> 0 <= k4 <= 10 ->
  0 <= k5 <= 10 ->
  0 <= w1 -> 0 <= w2 -> 0 <= w3 -> 0 <= w4 -> 0 <= w5 ->
  w1 + w2 + w3 + w4 + w5 <= 100 ->
  0 <= k1 * w1 + k2 * w2 + k3 * w3 + k4 * w4 + k5 * w5 <= 1000.
Proof. intros. nia. Qed.

End ScoreRange.

(** X3: with int weights that are not negative and whose total is at most
    100 (the defaults, or any weights that sum to 100), every report has
    0 <= finalScore <= 100 and 0 <= baseScore <= 100. *)
Theorem score_range_wellformed_weights
    metrics weights target_return r w1 w2 w3 w4 w5 :
  get weights "industry" (PyInt 15) = PyInt w1 ->
  get weights "profit" (PyInt 25) = PyInt w2 ->
  get weights "mos" (PyInt 25) = PyInt w3 ->
  get weights "yield_val" (PyInt 20) = PyInt w4 ->
  get weights "competition" (PyInt 15) = PyInt w5 ->
  0 <= w1 -> 0 <= w2 -> 0 <= w3 -> 0 <= w4 -> 0 <= w5 ->
  w1 + w2 + w3 + w4 + w5 <= 100 ->
  calculate_master_score metrics weights target_return = Ok r ->
  0 <= finalScore r <= 100 /\
  le (PyInt 0) (PyFloat (baseScore r)) = true /\
  le (PyFloat (baseScore r)) (PyInt 100) = true.
Proof.
  intros E1 E2 E3 E4 E5 P1 P2 P3 P4 P5 Hsum Hr.
  apply score_inv in Hr as (rs & base & Hrs & Hb & Hfinal & -> & _ & _ & _).
  apply raw_scores_inv in Hrs as (mos & comp & Hmos & Hcomp & ->).
  rewrite (base_score_int _ _ _ _ _ _ _ E1 E2 E3 E4 E5) in Hb.
  rewrite scores_dict_industry, scores_dict_profit, scores_dict_mos,
    scores_dict_yield, scores_dict_competition in Hb. cbn [default id] in Hb.
  destruct (tier_tens _ _ (industry_score_tier
    (industry_growth_3yr (defaulted metrics))) ltac:(by vm_compute))
    as (k1 & K1 & R1).
  destruct (tier_tens _ _ (profit_score_tier
    (net_profit_growth_5yr (defaulted metrics))) ltac:(by vm_compute))
    as (k2 & K2 & R2).
  destruct (tier_tens _ _ (mos_score_tier _ _ _ Hmos) ltac:(by vm_compute))
    as (k3 & -> & R3).
  destruct (tier_tens _ _ (yield_score_tier
    (dividend_yield (defaulted metrics))
    (dividend_years_consecutive (defaulted metrics))) ltac:(by vm_compute))
    as (k4 & K4 & R4).
  destruct (tier_tens _ _ (competition_score_tier _ _ _ Hcomp)
    ltac:(by vm_compute)) as (k5 & -> & R5).
  rewrite K1, K2, K4 in Hb. clear K1 K2 K4.
  pose proof (weighted_sum_tens k1 k2 k3 k4 k5 w1 w2 w3 w4 w5
                R1 R2 R3 R4 R5 P1 P2 P3 P4 P5 Hsum) as Hn.
  replace (10 * k1 * w1 + 10 * k2 * w2 + 10 * k3 * w3 + 10 * k4 * w4 +
           10 * k5 * w5)
    with (10 * (k1 * w1 + k2 * w2 + k3 * w3 + k4 * w4 + k5 * w5)) in Hb by lia.
  pose proof (in_score_range_sum _ Hn) as Hc. unfold in_score_range in Hc.
  destruct (int_to_float _) as [f|]; [|discriminate Hc].
  cbn [mbind result_bind] in Hb. injection Hb as <-.
  apply andb_prop in Hc as [Hc Hrisk]. apply andb_prop in Hc as [Hlo Hhi].
  split; [|by split].
  rewrite forallb_forall in Hrisk.
  specialize (Hrisk (risk_multiplier target_return (beta (defaulted metrics)))).
  rewrite Hfinal in Hrisk.
  assert (Hin : In (risk_multiplier target_return (beta (defaulted metrics)))
                   risk_values).
  { apply list_elem_of_In, risk_multiplier_set. }
  apply Hrisk, andb_prop in Hin as [H1 H2]. lia.
Qed.

Lemma score_range_wellformed_weights_witness :
  exists r,
    calculate_master_score scenario1_metrics default_weights (PyInt 12) = Ok r /\
    0 <= finalScore r <= 100.
Proof.
  run_score r E. exists r. split; [reflexivity|].
  apply (score_range_wellformed_weights scenario1_metrics default_weights
           (PyInt 12) r 15 25 25 20 15);
    first [reflexivity | lia | exact E].
Defined.

(** ** The grade against the reported base score *)

Section GradeVsBase.
Import PyNumFacts RoundFacts RoundExact.

Lemma le_int_float_mono a b f :
  a <= b -> le (PyInt b) (PyFloat f) = true -> le (PyInt a) (PyFloat f) = true.
Proof.
  intros Hab. unfold le, compare.
  destruct (int_float_compare b f) as [c|] eqn:Hb; [|done]. intros Hc.
  destruct (int_float_compare_mono a b f c Hab Hb) as (c' & -> & Hc').
  - by destruct c.
  - by destruct c'.
Qed.

(** A positive final score is not above the reported base score. *)
Lemma final_pos_le_reported base c mc ec final :
  c = S754_finite false mc ec -> ec <= 0 -> Z.pos mc <= 2 ^ (- ec) ->
  (exists f, base = SFdiv prec emax f f100_0) ->
  to_int (SFmul prec emax base c) = Ok final ->
  0 < final ->
  le (PyInt final) (PyFloat (round1 base)) = true.
Proof.
  intros -> Hec Hmc [f Hf] Hfinal Hpos.
  destruct base as [s|s| |s mb eb]; try done.
  - cbn in Hfinal. injection Hfinal as <-. lia.
  - symmetry in Hf. apply SFdiv_canonical in Hf.
    pose proof (SFmul_le s mb eb mc ec Hf Hec Hmc) as Hle.
    destruct (SFmul prec emax _ _) as [s'|s'| |s' m e]; try done.
    + cbn in Hfinal. injection Hfinal as <-. lia.
    + destruct Hle as [-> Hle]. cbn in Hfinal. injection Hfinal as <-.
      destruct s.
      * pose proof (trunc_mag_nonneg m e). lia.
      * by apply round1_ge_trunc.
Qed.

End GradeVsBase.

(** X4: the risk multiplier never upgrades a stock: a report graded "A" has
    baseScore >= 80 and a report graded "B" has baseScore >= 60, whatever the
    weights. *)
Theorem risk_never_upgrades metrics weights target_return r :
  calculate_master_score metrics weights target_return = Ok r ->
  (grade r = "A" -> le (PyInt 80) (PyFloat (baseScore r)) = true) /\
  (grade r = "B" -> le (PyInt 60) (PyFloat (baseScore r)) = true).
Proof.
  intros Hr.
  apply score_inv in Hr as (rs & base & _ & Hb & Hfinal & -> & -> & _ & _).
  destruct (risk_multiplier_le_1 target_return (beta (defaulted metrics)))
    as (mc & ec & Hc & Hec & Hmc & _).
  destruct (grade_of_spec _ _ Hfinal) as (HA & HB & _).
  pose proof (base_score_quotient rs weights base Hb) as Hq.
  split; intros Hg.
  - apply HA in Hg.
    apply (le_int_float_mono 80 (finalScore r)); [done|].
    apply (final_pos_le_reported base _ mc ec (finalScore r) Hc);
      (done || lia).
  - apply HB in Hg.
    apply (le_int_float_mono 60 (finalScore r)); [lia|].
    apply (final_pos_le_reported base _ mc ec (finalScore r) Hc);
      (done || lia).
Qed.

Lemma risk_never_upgrades_witness :
  exists r,
    calculate_master_score scenario1_metrics default_weights (PyInt 12) = Ok r /\
    le (PyInt 80) (PyFloat (baseScore r)) = true.
Proof.
  run_score r E. exists r. split; [reflexivity|].
  destruct (risk_never_upgrades _ _ _ r E) as [H _]. apply H.
  pose proof scenario1_report_value as E'. rewrite E in E'.
  by injection E' as ->.
Defined.

(** ** What target_return and beta can change *)

(** X5: target_return acts through its band only: two targets that fall on
    the same side of 10 and of 15 give the same outcome. *)
Theorem same_band_same_report metrics weights t1 t2 :
  lt t1 (PyInt 10) = lt t2 (PyInt 10) ->
  ge t1 (PyInt 15) = ge t2 (PyInt 15) ->
  calculate_master_score metrics weights t1 =
  calculate_master_score metrics weights t2.
Proof.
  intros H10 H15. unfold calculate_master_score, risk_multiplier.
  by rewrite H10, H15.
Qed.

Lemma same_band_same_report_witness :
  calculate_master_score scenario1_metrics default_weights (PyInt 10) =
  calculate_master_score scenario1_metrics default_weights
    (PyFloat (lit 1499 100)).
Proof.
  apply (same_band_same_report scenario1_metrics default_weights (PyInt 10)
           (PyFloat (lit 1499 100))); vm_compute; reflexivity.
Defined.

Section NoOverflow.
Import PyNumFacts RoundFacts RoundExact.

(** The sub-scores do not read beta. *)
Lemma raw_scores_insert_beta metrics b :
  raw_scores (defaulted (<["beta" := b]> metrics)) =
  raw_scores (defaulted metrics).
Proof.
  unfold raw_scores, defaulted.
  cbn [industry_growth_3yr net_profit_growth_5yr pe_ratio sector_pe
       dividend_yield dividend_years_consecutive company_growth_rate].
  by rewrite !get_insert_ne.
Qed.

Lemma binary_round_aux_exponent s mx ex lx s' m e :
  binary_round_aux prec emax s mx ex lx = S754_finite s' m e -> e <= 971.
Proof.
  unfold binary_round_aux.
  destruct (shr_fexp _ _ _ _ _) as [mrs' e1].
  destruct (shr_fexp _ _ _ _ _) as [mrs'' e2].
  destruct (shr_m mrs''); try done.
  destruct (e2 <=? emax - prec) eqn:He; [|done].
  intros [= _ _ <-]. apply Z.leb_le in He. unfold emax, prec in He. lia.
Qed.

Lemma SFdiv_exponent f g s m e :
  SFdiv prec emax f g = S754_finite s m e -> e <= 971.
Proof.
  destruct f as [sf|sf| |sf mf ef], g as [sg|sg| |sg mg eg]; try done.
  unfold SFdiv. destruct (SFdiv_core_binary _ _ _ _ _ _) as [[q e'] l].
  apply binary_round_aux_exponent.
Qed.

(** The product of a binary64 value by a factor of at most 1 does not
    overflow. *)
Lemma SFmul_le_1_finite sb mb eb mc ec :
  fexp64 (Zdigits2 (Z.pos mb) + eb) = eb -> eb <= 971 ->
  ec <= 0 -> Z.pos mc <= 2 ^ (- ec) ->
  returns (to_int (SFmul prec emax (S754_finite sb mb eb)
                     (S754_finite false mc ec))).
Proof.
  intros Hcan Heb Hec Hmc. cbn [SFmul].
  destruct (binary_round_aux_exact_spec (xorb sb false)
              (Z.pos (mb * mc)) (eb + ec) loc_Exact ltac:(lia))
    as (m2 & m3 & Hb & Hx & H3 & ->).
  cbv zeta in Hb, Hx, H3.
  set (mx := Z.pos (mb * mc)) in *. set (ex := eb + ec) in *.
  set (e1 := Z.max ex (fexp64 (Zdigits2 mx + ex))) in *.
  set (e2 := Z.max e1 (fexp64 (Zdigits2 m2 + e1))) in *.
  assert (He1 : ex <= e1) by (unfold e1; lia).
  assert (He2 : e1 <= e2) by (unfold e2; lia).
  pose proof (Z.pow_pos_nonneg 2 (e1 - ex) ltac:(lia) ltac:(lia)) as Hp1.
  pose proof (Z.pow_pos_nonneg 2 (e2 - e1) ltac:(lia) ltac:(lia)) as Hp2.
  pose proof (Z.pow_pos_nonneg 2 (- ec) ltac:(lia) ltac:(lia)) as Hpc.
  set (fl := mx / 2 ^ (e1 - ex)) in *.
  assert (Hfl : 0 <= fl) by (apply Z.div_pos; lia).
  destruct m3 as [|p|p]; [by eexists| |nia].
  assert (Hgoal : e2 <= 971);
    [|apply Z.leb_le in Hgoal; rewrite Hgoal; by eexists].
  assert (Hdmb : Zdigits2 (Z.pos mb) <= 53) by (unfold fexp64 in Hcan; lia).
  assert (Hmb : Z.pos mb < 2 ^ 53) by (apply Zdigits2_lt_pow2; lia).
  assert (Hmx : mx <= Z.pos mb * 2 ^ (- ec)) by (unfold mx; nia).
  assert (HD : Zdigits2 mx <= Zdigits2 (Z.pos mb) - ec).
  { pose proof (Zdigits2_mul_pow2 (Z.pos mb) (- ec) ltac:(lia) ltac:(lia)) as Hd.
    pose proof (Zdigits2_mono mx (Z.pos mb * 2 ^ (- ec)) ltac:(lia)). lia. }
  assert (He1' : e1 <= 971) by (unfold e1, ex, fexp64; lia).
  assert (Hdfl : Zdigits2 fl = Z.max 0 (Zdigits2 mx - (e1 - ex))).
  { unfold fl. apply Zdigits2_div_pow2; lia. }
  assert (Hdfl53 : Zdigits2 fl <= 53) by (unfold e1, fexp64 in *; lia).
  pose proof (Zdigits2_succ fl Hfl) as Hsucc.
  assert (Hm2 : Zdigits2 m2 <= Zdigits2 (fl + 1))
    by (apply Zdigits2_mono; lia).
  destruct (Z.le_gt_cases (Zdigits2 m2 + e1) 1024) as [Hok|Hbig];
    [unfold e2, fexp64; lia|].
  exfalso.
  (* the rounding would go up to 2^53 at the largest exponent *)
  assert (Hup : m2 = fl + 1).
  { destruct (Z.eq_dec m2 fl) as [->|]; [|lia].
    unfold e1, ex, fexp64 in *. lia. }
  assert (Hbump : Zdigits2 (fl + 1) = Zdigits2 fl + 1)
    by (unfold e1, ex, fexp64 in *; lia).
  apply Zdigits2_succ_pow2 in Hbump; [|done].
  assert (Hd53 : Zdigits2 fl = 53) by (unfold e1, ex, fexp64 in *; lia).
  assert (E971 : e1 = 971) by (unfold e1, ex, fexp64 in *; lia).
  assert (Eeb : eb = 971) by (unfold e1, ex, fexp64 in *; lia).
  assert (Hsh : e1 - ex = - ec) by (unfold ex; lia).
  rewrite Hd53 in Hbump.
  assert (Hflv : fl = 2 ^ 53 - 1) by lia.
  assert (Hlow : fl * 2 ^ (- ec) <= mx).
  { unfold fl. rewrite Hsh. rewrite Z.mul_comm. apply Z.mul_div_le. lia. }
  assert (Hmxv : mx = fl * 2 ^ (- ec)) by nia.
  assert (Hmod : mx mod 2 ^ (e1 - ex) = 0).
  { rewrite Hsh, Hmxv. apply Z.mod_mul. lia. }
  specialize (Hx eq_refl Hmod). lia.
Qed.

(** Whether the final score converts to an int does not depend on the
    risk multiplier. *)
Lemma final_returns_any_risk rs weights base t1 b1 t2 b2 :
  base_score rs weights = Ok base ->
  returns (to_int (SFmul prec emax base (risk_multiplier t1 b1))) ->
  returns (to_int (SFmul prec emax base (risk_multiplier t2 b2))).
Proof.
  intros Hb [n Hfinal].
  destruct (risk_multiplier_le_1 t1 b1) as (mc1 & ec1 & Hc1 & _).
  rewrite Hc1 in Hfinal.
  destruct (risk_multiplier_le_1 t2 b2) as (mc & ec & -> & Hec & Hmc & _).
  destruct (base_score_quotient rs weights base Hb) as [f Hf].
  destruct base as [s|s| |s mb eb]; try done.
  - by eexists.
  - symmetry in Hf. apply SFmul_le_1_finite; try done.
    + by apply SFdiv_canonical in Hf.
    + by apply SFdiv_exponent in Hf.
Qed.

End NoOverflow.

(** X6: neither target_return nor beta decides whether the call returns, nor
    what the sub-scores and baseScore are: when a call returns a report, the
    call with any other target_return and any other beta returns a report
    with the same rawScores and the same baseScore. *)
Theorem report_whatever_the_risk metrics weights t1 t2 b r1 :
  calculate_master_score metrics weights t1 = Ok r1 ->
  exists r2,
    calculate_master_score (<["beta" := b]> metrics) weights t2 = Ok r2 /\
    rawScores r2 = rawScores r1 /\ baseScore r2 = baseScore r1.
Proof.
  intros H1.
  apply score_inv in H1 as (rs & base & Hrs & Hb & Hfinal & -> & _ & _ & ->).
  unfold calculate_master_score.
  rewrite raw_scores_insert_beta, Hrs. cbn [mbind result_bind]. rewrite Hb.
  cbn [mbind result_bind].
  destruct (final_returns_any_risk rs weights base
              t1 (beta (defaulted metrics))
              t2 (beta (defaulted (<["beta" := b]> metrics))) Hb
              ltac:(by eexists)) as [n ->].
  by eexists.
Qed.

Lemma report_whatever_the_risk_witness :
  exists r1 r2,
    calculate_master_score scenario1_metrics default_weights (PyInt 12) = Ok r1 /\
    calculate_master_score (<["beta" := PyFloat (lit 30 10)]> scenario1_metrics)
      default_weights (PyInt 5) = Ok r2 /\
    rawScores r2 = rawScores r1 /\ baseScore r2 = baseScore r1.
Proof.
  destruct (calculate_master_score scenario1_metrics default_weights (PyInt 12))
    as [r1|] eqn:E1; [|exfalso; vm_compute in E1; discriminate E1].
  destruct (report_whatever_the_risk scenario1_metrics default_weights
              (PyInt 12) (PyInt 5) (PyFloat (lit 30 10)) r1 E1)
    as (r2 & E2 & Hraw & Hbase).
  exists r1, r2. split; [reflexivity|]. split; [exact E2|].
  exact (conj Hraw Hbase).
Defined.

(** ** Monotonicity *)

Module OrderFacts.
Import PyNum PyNumFacts RoundFacts.

Lemma mul_compare_r a b p : 0 < p -> (a * p ?= b * p) = (a ?= b).
Proof.
  intros Hp. destruct (Z.compare_spec a b);
    [apply Z.compare_eq_iff|apply Z.compare_lt_iff|apply Z.compare_gt_iff]; nia.
Qed.

Lemma Zcompare_finite_scaled k s m e E :
  0 <= E -> 0 <= e + E ->
  Zcompare_finite k s m e =
    (k * 2 ^ E ?= (if s then Z.neg m else Z.pos m) * 2 ^ (e + E)).
Proof.
  intros HE HeE. unfold Zcompare_finite.
  set (v := if s then Z.neg m else Z.pos m).
  pose proof (Z.pow_pos_nonneg 2 E ltac:(lia) HE) as HpE.
  destruct e as [|p|p].
  - rewrite Z.add_0_l, Z.pow_0_r, Z.mul_1_r.
    by rewrite mul_compare_r.
  - rewrite Z.pow_add_r, Z.mul_assoc by lia.
    by rewrite mul_compare_r.
  - assert (Hs : 2 ^ E = 2 ^ Z.pos p * 2 ^ (Z.neg p + E)).
    { rewrite <- Z.pow_add_r by lia. f_equal. lia. }
    rewrite Hs, Z.mul_assoc, mul_compare_r; [done|].
    apply Z.pow_pos_nonneg; lia.
Qed.

Lemma canonical_bounds m e :
  fexp64 (Zdigits2 (Z.pos m) + e) = e ->
  Z.pos m < 2 ^ 53 /\ -1074 <= e /\ (-1074 < e -> 2 ^ 52 <= Z.pos m).
Proof.
  intros Hc. unfold fexp64 in Hc.
  split; [apply Zdigits2_lt_pow2; lia|]. split; [lia|].
  intros He. apply Zdigits2_le_pow2; lia.
Qed.

(** Magnitudes of canonical floats are ordered by exponent first. *)
Lemma canonical_lt m1 e1 m2 e2 E :
  fexp64 (Zdigits2 (Z.pos m1) + e1) = e1 ->
  fexp64 (Zdigits2 (Z.pos m2) + e2) = e2 ->
  0 <= e1 + E -> e1 < e2 ->
  Z.pos m1 * 2 ^ (e1 + E) < Z.pos m2 * 2 ^ (e2 + E).
Proof.
  intros H1 H2 HE Hlt.
  destruct (canonical_bounds m1 e1 H1) as (B1 & L1 & _).
  destruct (canonical_bounds m2 e2 H2) as (_ & _ & B2).
  specialize (B2 ltac:(lia)).
  pose proof (Z.pow_pos_nonneg 2 (e1 + E) ltac:(lia) HE) as Hp.
  assert (Hs : 2 ^ (e2 + E) = 2 ^ (e2 - e1) * 2 ^ (e1 + E)).
  { rewrite <- Z.pow_add_r by lia. f_equal. lia. }
  assert (H2' : 2 ^ 1 <= 2 ^ (e2 - e1)) by (apply Z.pow_le_mono_r; lia).
  change (2 ^ 1) with 2 in H2'. change (2 ^ 53) with (2 * 2 ^ 52) in B1.
  rewrite Hs. nia.
Qed.

Lemma Pcompare_scaled m1 m2 P :
  0 < P -> Pos.compare_cont Eq m1 m2 = (Z.pos m1 * P ?= Z.pos m2 * P).
Proof. intros HP. by rewrite mul_compare_r. Qed.

(** On canonical floats the library's comparison is the comparison of the
    values, as the mixed comparisons are. *)
Lemma compare_exact x y E :
  finite_valued x -> finite_valued y -> canonical x -> canonical y ->
  clears E x -> clears E y ->
  compare x y = Some (scaled x E ?= scaled y E).
Proof.
  intros Fx Fy Cx Cy [HE Hx] [_ Hy].
  pose proof (Z.pow_pos_nonneg 2 E ltac:(lia) HE) as HpE.
  destruct x as [a|[sa|sa| |sa ma ea]], y as [b|[sb|sb| |sb mb eb]];
    try done; cbn [exponent] in Hx, Hy; unfold compare, scaled.
  - by rewrite mul_compare_r.
  - cbn [int_float_compare]. f_equal.
    by rewrite <- (mul_compare_r a 0 (2 ^ E)), Z.mul_0_l.
  - cbn [int_float_compare]. f_equal. by apply Zcompare_finite_scaled.
  - cbn [int_float_compare fmap option_fmap option_map]. f_equal.
    rewrite <- (mul_compare_r b 0 (2 ^ E)), Z.mul_0_l by done.
    symmetry. apply Z.compare_antisym.
  - cbn [SFcompare]. f_equal.
    pose proof (Z.pow_pos_nonneg 2 (eb + E) ltac:(lia) Hy) as Hp.
    destruct sb; symmetry; [apply Z.compare_gt_iff|apply Z.compare_lt_iff]; nia.
  - cbn [int_float_compare fmap option_fmap option_map]. f_equal.
    rewrite (Zcompare_finite_scaled b sa ma ea E) by done.
    symmetry. apply Z.compare_antisym.
  - cbn [SFcompare]. f_equal.
    pose proof (Z.pow_pos_nonneg 2 (ea + E) ltac:(lia) Hx) as Hp.
    destruct sa; symmetry; [apply Z.compare_lt_iff|apply Z.compare_gt_iff]; nia.
  - cbn [SFcompare]. f_equal. cbn in Cx, Cy.
    pose proof (Z.pow_pos_nonneg 2 (ea + E) ltac:(lia) Hx) as Hpa.
    pose proof (Z.pow_pos_nonneg 2 (eb + E) ltac:(lia) Hy) as Hpb.
    destruct sa, sb.
    + (* both negative *)
      destruct (Z.compare_spec ea eb) as [->|Hlt|Hgt].
      * rewrite (Pcompare_scaled ma mb (2 ^ (eb + E))) by done.
        destruct (Z.compare_spec (Z.pos ma * 2 ^ (eb + E))
                    (Z.pos mb * 2 ^ (eb + E))); cbn [CompOpp]; symmetry;
          [apply Z.compare_eq_iff|apply Z.compare_gt_iff|apply Z.compare_lt_iff];
          lia.
      * pose proof (canonical_lt ma ea mb eb E Cx Cy Hx Hlt).
        symmetry. apply Z.compare_gt_iff. lia.
      * pose proof (canonical_lt mb eb ma ea E Cy Cx Hy ltac:(lia)).
        symmetry. apply Z.compare_lt_iff. lia.
    + symmetry. apply Z.compare_lt_iff. nia.
    + symmetry. apply Z.compare_gt_iff. nia.
    + destruct (Z.compare_spec ea eb) as [->|Hlt|Hgt].
      * by apply Pcompare_scaled.
      * pose proof (canonical_lt ma ea mb eb E Cx Cy Hx Hlt).
        symmetry. apply Z.compare_lt_iff. lia.
      * pose proof (canonical_lt mb eb ma ea E Cy Cx Hy ltac:(lia)).
        symmetry. apply Z.compare_gt_iff. lia.
Qed.

Lemma clears_max x y z :
  let E := Z.max 0 (Z.max (- exponent x) (Z.max (- exponent y) (- exponent z))) in
  clears E x /\ clears E y /\ clears E z.
Proof. unfold clears. lia. Qed.

(** The three comparisons of canonical finite numbers, on a common scale. *)
Lemma compare_exact3 a b c :
  finite_valued a -> finite_valued b -> finite_valued c ->
  canonical a -> canonical b -> canonical c ->
  exists E,
    compare a b = Some (scaled a E ?= scaled b E) /\
    compare a c = Some (scaled a E ?= scaled c E) /\
    compare b c = Some (scaled b E ?= scaled c E).
Proof.
  intros Fa Fb Fc Ca Cb Cc.
  destruct (clears_max a b c) as (Ha & Hb & Hc).
  eexists. split; [|split]; by apply compare_exact.
Qed.

(** What is at least [c] stays so when it grows. *)
Lemma ge_mono a b c :
  finite_valued c -> canonical a -> canonical b -> canonical c ->
  le a b = true -> ge a c = true -> ge b c = true.
Proof.
  intros Fc Ca Cb Cc.
  assert (Hfin : finite_valued a -> finite_valued b ->
                 le a b = true -> ge a c = true -> ge b c = true).
  { intros Fa Fb.
    destruct (compare_exact3 a b c Fa Fb Fc Ca Cb Cc) as (E & Hab & Hac & Hbc).
    unfold le, ge. rewrite Hab, Hac, Hbc.
    destruct (Z.compare_spec (scaled a E) (scaled b E)),
      (Z.compare_spec (scaled a E) (scaled c E)),
      (Z.compare_spec (scaled b E) (scaled c E)); try done; lia. }
  destruct a as [a|[sa|sa| |sa ma ea]], b as [b|[sb|sb| |sb mb eb]];
    try (by apply Hfin); clear Hfin; unfold le, ge, compare;
    destruct c as [c|[sc|sc| |sc mc ec]]; try done;
    repeat match goal with s : bool |- _ => destruct s end; done.
Qed.

Lemma gt_mono a b c :
  finite_valued c -> canonical a -> canonical b -> canonical c ->
  le a b = true -> gt a c = true -> gt b c = true.
Proof.
  intros Fc Ca Cb Cc.
  assert (Hfin : finite_valued a -> finite_valued b ->
                 le a b = true -> gt a c = true -> gt b c = true).
  { intros Fa Fb.
    destruct (compare_exact3 a b c Fa Fb Fc Ca Cb Cc) as (E & Hab & Hac & Hbc).
    unfold le, gt. rewrite Hab, Hac, Hbc.
    destruct (Z.compare_spec (scaled a E) (scaled b E)),
      (Z.compare_spec (scaled a E) (scaled c E)),
      (Z.compare_spec (scaled b E) (scaled c E)); try done; lia. }
  destruct a as [a|[sa|sa| |sa ma ea]], b as [b|[sb|sb| |sb mb eb]];
    try (by apply Hfin); clear Hfin; unfold le, gt, compare;
    destruct c as [c|[sc|sc| |sc mc ec]]; try done;
    repeat match goal with s : bool |- _ => destruct s end; done.
Qed.

(** What is below [c] stays so when it shrinks. *)
Lemma lt_mono a b c :
  finite_valued c -> canonical a -> canonical b -> canonical c ->
  le a b = true -> lt b c = true -> lt a c = true.
Proof.
  intros Fc Ca Cb Cc.
  assert (Hfin : finite_valued a -> finite_valued b ->
                 le a b = true -> lt b c = true -> lt a c = true).
  { intros Fa Fb.
    destruct (compare_exact3 a b c Fa Fb Fc Ca Cb Cc) as (E & Hab & Hac & Hbc).
    unfold le, lt. rewrite Hab, Hac, Hbc.
    destruct (Z.compare_spec (scaled a E) (scaled b E)),
      (Z.compare_spec (scaled a E) (scaled c E)),
      (Z.compare_spec (scaled b E) (scaled c E)); try done; lia. }
  destruct a as [a|[sa|sa| |sa ma ea]], b as [b|[sb|sb| |sb mb eb]];
    try (by apply Hfin); clear Hfin; unfold le, lt, compare;
    destruct c as [c|[sc|sc| |sc mc ec]]; try done;
    repeat match goal with s : bool |- _ => destruct s end; done.
Qed.

End OrderFacts.

(** Settles an inequality between two tier cascades from the implications
    between their tests. *)
Ltac mono_tiers :=
  repeat match goal with
  | H : ?x = true -> ?y = true |- _ =>
    destruct x; [specialize (H eq_refl); rewrite H | clear H]
  end;
  repeat case_match; lia.

Section Monotone.
Import OrderFacts.

Lemma industry_score_mono a b :
  canonical a -> canonical b -> le a b = true ->
  industry_score a <= industry_score b.
Proof.
  intros Ca Cb Hle. unfold industry_score.
  pose proof (ge_mono a b (PyInt 20) I Ca Cb I Hle).
  pose proof (ge_mono a b (PyInt 10) I Ca Cb I Hle).
  pose proof (ge_mono a b (PyInt 0) I Ca Cb I Hle).
  mono_tiers.
Qed.

Lemma profit_score_mono a b :
  canonical a -> canonical b -> le a b = true ->
  profit_score a <= profit_score b.
Proof.
  intros Ca Cb Hle. unfold profit_score.
  pose proof (ge_mono a b (PyInt 20) I Ca Cb I Hle).
  pose proof (ge_mono a b (PyInt 10) I Ca Cb I Hle).
  pose proof (ge_mono a b (PyInt 5) I Ca Cb I Hle).
  pose proof (ge_mono a b (PyInt 0) I Ca Cb I Hle).
  mono_tiers.
Qed.

Lemma competition_tier_mono a b :
  canonical a -> canonical b -> le a b = true ->
  competition_tier a <= competition_tier b.
Proof.
  intros Ca Cb Hle. unfold competition_tier.
  pose proof (ge_mono a b (PyInt 15) I Ca Cb I Hle).
  pose proof (ge_mono a b (PyInt 5) I Ca Cb I Hle).
  pose proof (ge_mono a b (PyInt (-5)) I Ca Cb I Hle).
  mono_tiers.
Qed.

Lemma mos_tier_mono a b :
  canonical a -> canonical b -> le a b = true ->
  mos_tier a <= mos_tier b.
Proof.
  intros Ca Cb Hle. unfold mos_tier.
  pose proof (gt_mono a b (PyFloat f0_20) I Ca Cb eq_refl Hle).
  pose proof (ge_mono a b (PyFloat f0_10) I Ca Cb eq_refl Hle).
  pose proof (ge_mono a b (PyFloat (SFopp f0_10)) I Ca Cb eq_refl Hle).
  mono_tiers.
Qed.

Lemma yield_score_mono_yield y1 y2 n :
  canonical y1 -> canonical y2 -> le y1 y2 = true ->
  yield_score y1 n <= yield_score y2 n.
Proof.
  intros C1 C2 Hy. unfold yield_score.
  pose proof (ge_mono y1 y2 (PyInt 8) I C1 C2 I Hy).
  pose proof (ge_mono y1 y2 (PyInt 5) I C1 C2 I Hy).
  pose proof (ge_mono y1 y2 (PyInt 3) I C1 C2 I Hy).
  mono_tiers.
Qed.

Lemma yield_score_mono_years y n1 n2 :
  canonical n1 -> canonical n2 -> le n1 n2 = true ->
  yield_score y n1 <= yield_score y n2.
Proof.
  intros D1 D2 Hn. unfold yield_score.
  pose proof (lt_mono n1 n2 (PyInt 5) I D1 D2 I Hn).
  mono_tiers.
Qed.

End Monotone.

(** X7: every tier cascade is monotone in the quantity it grades: for
    a <= b, the industry and profit sub-scores of b are not below those of a,
    nor is the mos tier of a margin of safety b, the competition tier of a
    growth difference b, the yield sub-score of a yield b (for any number of
    dividend years) or of a number of dividend years b (for any yield). *)
Theorem subscores_monotone a b :
  canonical a -> canonical b -> le a b = true ->
  industry_score a <= industry_score b /\
  profit_score a <= profit_score b /\
  mos_tier a <= mos_tier b /\
  competition_tier a <= competition_tier b /\
  (forall n, yield_score a n <= yield_score b n) /\
  (forall y, yield_score y a <= yield_score y b).
Proof.
  intros Ca Cb Hle.
  split; [by apply industry_score_mono|].
  split; [by apply profit_score_mono|].
  split; [by apply mos_tier_mono|].
  split; [by apply competition_tier_mono|].
  split; intros ?;
    [by apply yield_score_mono_yield | by apply yield_score_mono_years].
Qed.

Lemma subscores_monotone_witness :
  profit_score (PyFloat (lit 45 10)) <= profit_score (PyInt 12) /\
  mos_tier (PyFloat (lit 45 10)) <= mos_tier (PyInt 12).
Proof.
  destruct (subscores_monotone (PyFloat (lit 45 10)) (PyInt 12))
    as (_ & Hp & Hm & _); [by vm_compute..|].
  exact (conj Hp Hm).
Defined.

Section Improve.
Import OrderFacts.

Lemma nondecreasing_seq (f : nat -> Z) len a i :
  nondecreasing (map f (seq a len)) = true ->
  (a <= i)%nat -> (S i < a + len)%nat -> f i <= f (S i).
Proof.
  revert a. induction len as [|len IH]; intros a Hs Ha Hi; [lia|].
  destruct len as [|len]; [lia|].
  cbn [seq map nondecreasing] in Hs. apply andb_prop in Hs as [H1 H2].
  destruct (decide (i = a)) as [->|Hne].
  - by apply Z.leb_le.
  - apply (IH (S a)); [exact H2|lia..].
Qed.

(** Under each multiplier the final score is checked to be non-decreasing
    along the weighted sums 0, 10, ..., 10000. *)
Lemma final_of_steps :
  forallb (fun c =>
    nondecreasing (map (fun n => final_of (10 * Z.of_nat n) c)
                     (seq 0 (Z.to_nat 1001)))) risk_values = true.
Proof. vm_compute. reflexivity. Qed.

Lemma final_of_step c n :
  c ∈ risk_values -> 0 <= n < 1000 ->
  final_of (10 * n) c <= final_of (10 * (n + 1)) c.
Proof.
  intros Hc Hn. pose proof final_of_steps as H.
  rewrite forallb_forall in H. apply list_elem_of_In, H in Hc.
  pose proof (nondecreasing_seq _ _ 0%nat (Z.to_nat n) Hc
                ltac:(lia) ltac:(lia)) as Hs.
  cbv beta in Hs. rewrite Nat2Z.inj_succ, Z2Nat.id in Hs by lia.
  exact Hs.
Qed.

Lemma final_of_mono c n n' :
  c ∈ risk_values -> 0 <= n <= n' -> n' <= 1000 ->
  final_of (10 * n) c <= final_of (10 * n') c.
Proof.
  intros Hc [Hn Hle] Hn'.
  replace n' with (n + Z.of_nat (Z.to_nat (n' - n))) in * by lia.
  induction (Z.to_nat (n' - n)) as [|d IH].
  - replace (n + Z.of_nat 0) with n by lia. lia.
  - etransitivity; [apply IH; lia|].
    replace (n + Z.of_nat (S d)) with (n + Z.of_nat d + 1) by lia.
    apply final_of_step; [done|lia].
Qed.

(** The final score of a report, as a function of the weighted sum. *)
Lemma report_final_of metrics weights target_return r w1 w2 w3 w4 w5 :
  get weights "industry" (PyInt 15) = PyInt w1 ->
  get weights "profit" (PyInt 25) = PyInt w2 ->
  get weights "mos" (PyInt 25) = PyInt w3 ->
  get weights "yield_val" (PyInt 20) = PyInt w4 ->
  get weights "competition" (PyInt 15) = PyInt w5 ->
  calculate_master_score metrics weights target_return = Ok r ->
  let m := defaulted metrics in
  exists k3 k5,
    mos_score (pe_ratio m) (sector_pe m) = Ok (10 * k3) /\
    competition_score (company_growth_rate m) (industry_growth_3yr m)
      = Ok (10 * k5) /\
    0 <= k3 <= 10 /\ 0 <= k5 <= 10 /\
    finalScore r =
      final_of (industry_score (industry_growth_3yr m) * w1 +
                profit_score (net_profit_growth_5yr m) * w2 +
                10 * k3 * w3 +
                yield_score (dividend_yield m) (dividend_years_consecutive m) * w4 +
                10 * k5 * w5)
        (risk_multiplier target_return (beta m)).
Proof.
  intros E1 E2 E3 E4 E5 Hr m. subst m.
  apply score_inv in Hr as (rs & base & Hrs & Hb & Hfinal & _).
  apply raw_scores_inv in Hrs as (mos & comp & Hmos & Hcomp & ->).
  rewrite (base_score_int _ _ _ _ _ _ _ E1 E2 E3 E4 E5) in Hb.
  rewrite scores_dict_industry, scores_dict_profit, scores_dict_mos,
    scores_dict_yield, scores_dict_competition in Hb. cbn [default id] in Hb.
  destruct (tier_tens _ _ (mos_score_tier _ _ _ Hmos) ltac:(by vm_compute))
    as (k3 & -> & R3).
  destruct (tier_tens _ _ (competition_score_tier _ _ _ Hcomp)
    ltac:(by vm_compute)) as (k5 & -> & R5).
  exists k3, k5. repeat split; try done; try lia.
  unfold final_of.
  destruct (int_to_float _) as [f|]; [|discriminate Hb].
  cbn [mbind result_bind] in Hb. injection Hb as <-. by rewrite Hfinal.
Qed.

Lemma final_of_sums c i p1 p2 k3 y1 y2 k5 w1 w2 w3 w4 w5 :
  c ∈ risk_values ->
  i ∈ [0; 60; 80; 100] ->
  p1 ∈ [0; 40; 60; 80; 100] -> p2 ∈ [0; 40; 60; 80; 100] ->
  y1 ∈ [0; 30; 60; 80; 100] -> y2 ∈ [0; 30; 60; 80; 100] ->
  0 <= k3 <= 10 -> 0 <= k5 <= 10 -> p1 <= p2 -> y1 <= y2 ->
  0 <= w1 -> 0 <= w2 -> 0 <= w3 -> 0 <= w4 -> 0 <= w5 ->
  w1 + w2 + w3 + w4 + w5 <= 100 ->
  final_of (i * w1 + p1 * w2 + 10 * k3 * w3 + y1 * w4 + 10 * k5 * w5) c <=
  final_of (i * w1 + p2 * w2 + 10 * k3 * w3 + y2 * w4 + 10 * k5 * w5) c.
Proof.
  intros Hc Hi Hp1 Hp2 Hy1 Hy2 R3 R5 Hp Hy P1 P2 P3 P4 P5 Hsum.
  destruct (tier_tens _ _ Hi ltac:(by vm_compute)) as (k1 & -> & R1).
  destruct (tier_tens _ _ Hp1 ltac:(by vm_compute)) as (a2 & -> & A2).
  destruct (tier_tens _ _ Hp2 ltac:(by vm_compute)) as (b2 & -> & B2).
  destruct (tier_tens _ _ Hy1 ltac:(by vm_compute)) as (a4 & -> & A4).
  destruct (tier_tens _ _ Hy2 ltac:(by vm_compute)) as (b4 & -> & B4).
  pose proof (weighted_sum_tens k1 a2 k3 a4 k5 w1 w2 w3 w4 w5
                R1 A2 R3 A4 R5 P1 P2 P3 P4 P5 Hsum) as Ha.
  pose proof (weighted_sum_tens k1 b2 k3 b4 k5 w1 w2 w3 w4 w5
                R1 B2 R3 B4 R5 P1 P2 P3 P4 P5 Hsum) as Hb.
  replace (10 * k1 * w1 + 10 * a2 * w2 + 10 * k3 * w3 + 10 * a4 * w4 +
           10 * k5 * w5)
    with (10 * (k1 * w1 + a2 * w2 + k3 * w3 + a4 * w4 + k5 * w5)) by lia.
  replace (10 * k1 * w1 + 10 * b2 * w2 + 10 * k3 * w3 + 10 * b4 * w4 +
           10 * k5 * w5)
    with (10 * (k1 * w1 + b2 * w2 + k3 * w3 + b4 * w4 + k5 * w5)) by lia.
  apply final_of_mono; [done| |lia]. nia.
Qed.

(** With well-formed weights a call returns as soon as its sub-scores
    do. *)
Lemma score_returns_wellformed metrics weights target_return w1 w2 w3 w4 w5 :
  get weights "industry" (PyInt 15) = PyInt w1 ->
  get weights "profit" (PyInt 25) = PyInt w2 ->
  get weights "mos" (PyInt 25) = PyInt w3 ->
  get weights "yield_val" (PyInt 20) = PyInt w4 ->
  get weights "competition" (PyInt 15) = PyInt w5 ->
  0 <= w1 -> 0 <= w2 -> 0 <= w3 -> 0 <= w4 -> 0 <= w5 ->
  w1 + w2 + w3 + w4 + w5 <= 100 ->
  returns (raw_scores (defaulted metrics)) ->
  returns (calculate_master_score metrics weights target_return).
Proof.
  intros E1 E2 E3 E4 E5 P1 P2 P3 P4 P5 Hsum [rs Hrs].
  unfold calculate_master_score. rewrite Hrs. cbn [mbind result_bind].
  apply raw_scores_inv in Hrs as (mos & comp & Hmos & Hcomp & ->).
  rewrite (base_score_int _ _ _ _ _ _ _ E1 E2 E3 E4 E5).
  rewrite scores_dict_industry, scores_dict_profit, scores_dict_mos,
    scores_dict_yield, scores_dict_competition. cbn [default id].
  destruct (tier_tens _ _ (industry_score_tier
    (industry_growth_3yr (defaulted metrics))) ltac:(by vm_compute))
    as (k1 & -> & R1).
  destruct (tier_tens _ _ (profit_score_tier
    (net_profit_growth_5yr (defaulted metrics))) ltac:(by vm_compute))
    as (k2 & -> & R2).
  destruct (tier_tens _ _ (mos_score_tier _ _ _ Hmos) ltac:(by vm_compute))
    as (k3 & -> & R3).
  destruct (tier_tens _ _ (yield_score_tier
    (dividend_yield (defaulted metrics))
    (dividend_years_consecutive (defaulted metrics))) ltac:(by vm_compute))
    as (k4 & -> & R4).
  destruct (tier_tens _ _ (competition_score_tier _ _ _ Hcomp)
    ltac:(by vm_compute)) as (k5 & -> & R5).
  pose proof (weighted_sum_tens k1 k2 k3 k4 k5 w1 w2 w3 w4 w5
                R1 R2 R3 R4 R5 P1 P2 P3 P4 P5 Hsum) as Hn.
  replace (10 * k1 * w1 + 10 * k2 * w2 + 10 * k3 * w3 + 10 * k4 * w4 +
           10 * k5 * w5)
    with (10 * (k1 * w1 + k2 * w2 + k3 * w3 + k4 * w4 + k5 * w5)) by lia.
  pose proof (in_score_range_sum _ Hn) as Hc. unfold in_score_range in Hc.
  destruct (int_to_float _) as [f|]; [|discriminate Hc].
  cbn [mbind result_bind].
  apply andb_prop in Hc as [_ Hrisk]. rewrite forallb_forall in Hrisk.
  specialize (Hrisk (risk_multiplier target_return (beta (defaulted metrics)))
                (proj1 (list_elem_of_In _ _) (risk_multiplier_set _ _))).
  destruct (to_int _); [by eexists|discriminate Hrisk].
Qed.

(** The sub-scores are still computed when one of these metrics changes. *)
Lemma raw_scores_returns_insert metrics k b :
  k ∈ ["net_profit_growth_5yr"; "dividend_yield";
       "dividend_years_consecutive"] ->
  returns (raw_scores (defaulted metrics)) ->
  returns (raw_scores (defaulted (<[k := b]> metrics))).
Proof.
  intros Hk [rs Hrs].
  apply raw_scores_inv in Hrs as (mos & comp & Hmos & Hcomp & _).
  unfold raw_scores, defaulted in *.
  cbn [industry_growth_3yr net_profit_growth_5yr pe_ratio sector_pe
       dividend_yield dividend_years_consecutive company_growth_rate] in *.
  rewrite !elem_of_cons, elem_of_nil in Hk.
  destruct Hk as [->|[->|[->|[]]]];
    rewrite ?get_insert_eq, ?get_insert_ne by done;
    rewrite Hmos; cbn [mbind result_bind]; rewrite Hcomp; by eexists.
Qed.

Lemma final_mono_both
    metrics weights target_return k a b r1 r2 w1 w2 w3 w4 w5 :
  k ∈ ["net_profit_growth_5yr"; "dividend_yield";
       "dividend_years_consecutive"] ->
  get metrics k (PyInt 0) = a -> canonical a -> canonical b ->
  le a b = true ->
  get weights "industry" (PyInt 15) = PyInt w1 ->
  get weights "profit" (PyInt 25) = PyInt w2 ->
  get weights "mos" (PyInt 25) = PyInt w3 ->
  get weights "yield_val" (PyInt 20) = PyInt w4 ->
  get weights "competition" (PyInt 15) = PyInt w5 ->
  0 <= w1 -> 0 <= w2 -> 0 <= w3 -> 0 <= w4 -> 0 <= w5 ->
  w1 + w2 + w3 + w4 + w5 <= 100 ->
  calculate_master_score metrics weights target_return = Ok r1 ->
  calculate_master_score (<[k := b]> metrics) weights target_return = Ok r2 ->
  finalScore r1 <= finalScore r2.
Proof.
  intros Hk Ha Ca Cb Hle E1 E2 E3 E4 E5 P1 P2 P3 P4 P5 Hsum Hr1 Hr2.
  destruct (report_final_of _ _ _ _ _ _ _ _ _ E1 E2 E3 E4 E5 Hr1)
    as (k3 & k5 & Hmos & Hcomp & R3 & R5 & ->).
  destruct (report_final_of _ _ _ _ _ _ _ _ _ E1 E2 E3 E4 E5 Hr2)
    as (k3' & k5' & Hmos' & Hcomp' & _ & _ & ->).
  clear Hr1 Hr2. unfold defaulted in *.
  cbn [industry_growth_3yr net_profit_growth_5yr pe_ratio sector_pe
       dividend_yield dividend_years_consecutive company_growth_rate beta] in *.
  pose proof (risk_multiplier_set target_return (get metrics "beta" (PyFloat f1_0)))
    as Hc.
  pose proof (industry_score_tier (get metrics "industry_growth_3yr" (PyInt 0)))
    as Hi.
  rewrite !elem_of_cons, elem_of_nil in Hk.
  destruct Hk as [->|[->|[->|[]]]];
    rewrite ?get_insert_eq, ?get_insert_ne in * by done;
    rewrite Hmos in Hmos'; injection Hmos' as Hk3;
    rewrite Hcomp in Hcomp'; injection Hcomp' as Hk5;
    assert (k3' = k3) as -> by lia; assert (k5' = k5) as -> by lia;
    subst a;
    (apply final_of_sums; try done; try lia;
     try apply profit_score_tier; try apply yield_score_tier).
  - by apply profit_score_mono.
  - by apply yield_score_mono_yield.
  - by apply yield_score_mono_years.
Qed.

End Improve.

(** X8: with int weights that are not negative and whose total is at most
    100, raising the profit growth, the dividend yield or the number of
    consecutive dividend years of a request that returns a report gives a
    request that returns a report too, whose finalScore is not lower. *)
Theorem better_metric_never_lowers_final
    metrics weights target_return k a b r1 w1 w2 w3 w4 w5 :
  k ∈ ["net_profit_growth_5yr"; "dividend_yield";
       "dividend_years_consecutive"] ->
  get metrics k (PyInt 0) = a -> canonical a -> canonical b ->
  le a b = true ->
  get weights "industry" (PyInt 15) = PyInt w1 ->
  get weights "profit" (PyInt 25) = PyInt w2 ->
  get weights "mos" (PyInt 25) = PyInt w3 ->
  get weights "yield_val" (PyInt 20) = PyInt w4 ->
  get weights "competition" (PyInt 15) = PyInt w5 ->
  0 <= w1 -> 0 <= w2 -> 0 <= w3 -> 0 <= w4 -> 0 <= w5 ->
  w1 + w2 + w3 + w4 + w5 <= 100 ->
  calculate_master_score metrics weights target_return = Ok r1 ->
  exists r2,
    calculate_master_score (<[k := b]> metrics) weights target_return = Ok r2 /\
    finalScore r1 <= finalScore r2.
Proof.
  intros Hk Ha Ca Cb Hle E1 E2 E3 E4 E5 P1 P2 P3 P4 P5 Hsum Hr1.
  assert (Hrs : returns (raw_scores (defaulted metrics))).
  { apply score_inv in Hr1 as (rs & _ & Hrs & _). by exists rs. }
  destruct (score_returns_wellformed (<[k := b]> metrics) weights target_return
              w1 w2 w3 w4 w5 E1 E2 E3 E4 E5 P1 P2 P3 P4 P5 Hsum
              (raw_scores_returns_insert metrics k b Hk Hrs)) as [r2 Hr2].
  exists r2. split; [exact Hr2|].
  exact (final_mono_both metrics weights target_return k a b r1 r2
           w1 w2 w3 w4 w5 Hk Ha Ca Cb Hle E1 E2 E3 E4 E5 P1 P2 P3 P4 P5 Hsum
           Hr1 Hr2).
Qed.

(** Industry growth is not among these metrics: it also enters the growth
    difference of the competition sub-score, and raising it from 4 to 6
    against a company growth of 10 lowers finalScore from 31 to 26. *)
Example industry_growth_can_lower_final :
  let metrics g : gmap string pynum :=
    <["industry_growth_3yr" := PyInt g]>
      (<["company_growth_rate" := PyInt 10]> ∅) in
  exists r1 r2,
    calculate_master_score (metrics 4) default_weights (PyInt 12) = Ok r1 /\
    calculate_master_score (metrics 6) default_weights (PyInt 12) = Ok r2 /\
    finalScore r1 = 31 /\ finalScore r2 = 26.
Proof.
  eexists _, _. split; [vm_compute; reflexivity|].
  split; [vm_compute; reflexivity|]. by split.
Qed.

Lemma better_metric_never_lowers_final_witness :
  exists r1 r2,
    calculate_master_score ∅ default_weights (PyInt 12) = Ok r1 /\
    calculate_master_score (<["dividend_years_consecutive" := PyInt 7]> ∅)
      default_weights (PyInt 12) = Ok r2 /\
    finalScore r1 <= finalScore r2.
Proof.
  destruct (calculate_master_score ∅ default_weights (PyInt 12))
    as [r1|] eqn:E1; [|exfalso; vm_compute in E1; discriminate E1].
  destruct (better_metric_never_lowers_final ∅ default_weights (PyInt 12)
              "dividend_years_consecutive" (PyInt 0) (PyInt 7) r1
              15 25 25 20 15) as (r2 & E2 & Hle);
    first [ reflexivity | lia | exact I | exact E1
          | rewrite !elem_of_cons; auto | idtac ].
  exists r1, r2. split; [reflexivity|]. split; [exact E2|exact Hle].
Defined.

(** ** A P/E that is not positive *)

Section FullMos.
Import PyNumFacts RoundFacts RoundExact.

(** A quotient of two positive ints is canonical and, when the dividend is
    not below the divisor, not below 1. *)
Lemma nearest_quotient_ge_1 x b :
  0 < b <= x ->
  le (PyInt 1) (PyFloat (nearest_quotient x b)) = true /\
  (forall s m e, nearest_quotient x b = S754_finite s m e ->
                 s = false /\ fexp64 (Zdigits2 (Z.pos m) + e) = e).
Proof.
  intros Hbx. unfold nearest_quotient.
  replace (xorb (x <? 0) (b <? 0)) with false.
  2:{ replace (x <? 0) with false by (symmetry; apply Z.ltb_ge; lia).
      replace (b <? 0) with false by (symmetry; apply Z.ltb_ge; lia). done. }
  destruct x as [|px|px]; [lia| |lia].
  destruct (SFdiv_core_binary_spec (Z.abs (Z.pos px)) 0 (Z.abs b) 0)
    as (l & ->); [lia..|].
  rewrite !Z.add_0_r, Z.sub_0_r.
  replace (Z.abs b) with b by lia. change (Z.abs (Z.pos px)) with (Z.pos px).
  set (x := Z.pos px) in *.
  set (e' := Z.min (fexp64 (Zdigits2 x - Zdigits2 b)) 0).
  assert (He' : e' <= 0) by (unfold e'; lia).
  pose proof (Z.pow_pos_nonneg 2 (- e') ltac:(lia) ltac:(lia)) as Hpe.
  replace (0 - e') with (- e') by lia.
  set (q := x * 2 ^ (- e') / b).
  assert (Hq : 2 ^ (- e') <= q).
  { unfold q. apply Z.div_le_lower_bound; [lia|]. nia. }
  pose proof (Zdigits2_div_lower (x * 2 ^ (- e')) b ltac:(nia) ltac:(lia))
    as Hdq.
  rewrite Zdigits2_mul_pow2 in Hdq by lia. fold q in Hdq.
  split.
  - set (E1 := Z.max e' (fexp64 (Zdigits2 q + e'))).
    destruct (Z.le_gt_cases E1 0) as [HE|HE].
    + pose proof (Z.pow_pos_nonneg 2 (- E1) ltac:(lia) ltac:(lia)) as HpE.
      assert (HE' : e' <= E1) by (unfold E1; lia).
      pose proof (Z.pow_pos_nonneg 2 (E1 - e') ltac:(lia) ltac:(lia)) as HpE'.
      assert (Hsplit : 2 ^ (- e') = 2 ^ (- E1) * 2 ^ (E1 - e')).
      { rewrite <- Z.pow_add_r by lia. f_equal. lia. }
      apply (binary_round_aux_ge q e' l (2 ^ (- E1)) 1); fold E1; try lia.
    + assert (HE1 : E1 = Zdigits2 q + e' - 53) by (unfold E1, fexp64 in *; lia).
      assert (H2 : 2 ^ (E1 - e') <= q).
      { apply Zdigits2_le_pow2; lia. }
      pose proof (Z.pow_pos_nonneg 2 E1 ltac:(lia) ltac:(lia)) as HpE.
      apply (binary_round_aux_ge q e' l 1 1); fold E1; try lia.
  - intros s m e Hr. split.
    + unfold binary_round_aux in Hr.
      destruct (shr_fexp _ _ _ _ _) as [mrs' e1].
      destruct (shr_fexp _ _ _ _ _) as [mrs'' e2].
      destruct (shr_m mrs''); try done.
      destruct (e2 <=? emax - prec); [|done]. by injection Hr as <- _ _.
    + apply binary_round_aux_canonical in Hr; [done|lia|].
      unfold e', fexp64 in *. lia.
Qed.

(** A canonical float that is not below 1 is above 0.20. *)
Lemma ge_1_gt_f0_20 m e :
  fexp64 (Zdigits2 (Z.pos m) + e) = e ->
  le (PyInt 1) (PyFloat (S754_finite false m e)) = true ->
  gt (PyFloat (S754_finite false m e)) (PyFloat f0_20) = true.
Proof.
  intros Hcan Hle.
  assert (He : -55 < e).
  { destruct e as [|k|k]; try lia.
    unfold le, compare, int_float_compare, Zcompare_finite in Hle.
    assert (H2 : 2 ^ Z.pos k <= Z.pos m).
    { destruct (Z.compare_spec (1 * 2 ^ Z.pos k) (Z.pos m)); (lia || done). }
    assert (Hd : Zdigits2 (Z.pos m) <= 53) by (unfold fexp64 in Hcan; lia).
    apply Zdigits2_lt_pow2 in Hd; [|lia..].
    assert (Hk : ~ 53 <= Z.pos k); [|lia].
    intros Hk. pose proof (Z.pow_le_mono_r 2 53 (Z.pos k) ltac:(lia) Hk). lia. }
  unfold gt, compare, f0_20, SFcompare.
  by replace (e ?= -55) with Gt by (symmetry; apply Z.compare_gt_iff; lia).
Qed.

Lemma mos_score_nonpositive_pe pe se v :
  pe <= 0 < se -> mos_score (PyInt pe) (PyInt se) = Ok v -> v = 100.
Proof.
  intros Hpe. unfold mos_score, gt, compare.
  replace (se ?= 0) with Gt by (symmetry; apply Z.compare_gt_iff; lia).
  unfold mos_pct. cbn [sub mbind result_bind truediv]. unfold int_truediv.
  replace (se =? 0) with false by (symmetry; apply Z.eqb_neq; lia).
  destruct (nearest_quotient_ge_1 (se - pe) se ltac:(lia)) as [Hge Hcan].
  destruct (nearest_quotient (se - pe) se) as [s|s| |s m e]; try done.
  destruct (Hcan s m e eq_refl) as [-> Hc].
  cbn [fmap result_fmap mbind result_bind mret result_ret].
  intros [= <-]. unfold mos_tier. by rewrite (ge_1_gt_f0_20 m e Hc Hge).
Qed.

End FullMos.

(** X9: with an int sector P/E above 0, an int P/E that is zero or negative
    (a company without earnings, or an absent pe_ratio, which defaults to 0)
    gets the full mos sub-score 100 in every report. *)
Theorem nonpositive_pe_scores_full_mos metrics weights target_return r pe se :
  metrics !! "sector_pe" = Some (PyInt se) ->
  get metrics "pe_ratio" (PyInt 0) = PyInt pe ->
  pe <= 0 < se ->
  calculate_master_score metrics weights target_return = Ok r ->
  rawScores r !! "mos" = Some 100.
Proof.
  intros Hse Hp Hpe Hr.
  apply score_inv in Hr as (rs & base & Hrs & _ & _ & _ & _ & _ & ->).
  apply raw_scores_inv in Hrs as (mos & comp & Hmos & _ & ->).
  rewrite scores_dict_mos. f_equal.
  unfold defaulted in Hmos. cbn [pe_ratio sector_pe] in Hmos.
  rewrite Hp in Hmos. unfold get in Hmos at 1. rewrite Hse in Hmos.
  by apply (mos_score_nonpositive_pe pe se).
Qed.

(** An absent P/E and a negative one, against a sector P/E of 15. *)
Lemma nonpositive_pe_scores_full_mos_witness :
  (exists r,
     calculate_master_score (<["sector_pe" := PyInt 15]> ∅) ∅ (PyInt 12) = Ok r /\
     rawScores r !! "mos" = Some 100) /\
  (exists r,
     calculate_master_score
       (<["sector_pe" := PyInt 15]> (<["pe_ratio" := PyInt (-40)]> ∅)) ∅
       (PyInt 12) = Ok r /\
     rawScores r !! "mos" = Some 100).
Proof.
  split.
  - run_score r E. exists r. split; [reflexivity|].
    apply (nonpositive_pe_scores_full_mos (<["sector_pe" := PyInt 15]> ∅) ∅
             (PyInt 12) r 0 15); [reflexivity | reflexivity | lia | exact E].
  - run_score r E. exists r. split; [reflexivity|].
    apply (nonpositive_pe_scores_full_mos
             (<["sector_pe" := PyInt 15]> (<["pe_ratio" := PyInt (-40)]> ∅)) ∅
             (PyInt 12) r (-40) 15);
      [reflexivity | reflexivity | lia | exact E].
Defined.

(** ** NaN inputs *)

Section NaN.

Lemma compare_nan_l y : compare nan y = None.
Proof. by destruct y. Qed.

Lemma ge_nan_l y : ge nan y = false.
Proof. unfold ge. by rewrite compare_nan_l. Qed.

Lemma gt_nan_l y : gt nan y = false.
Proof. unfold gt. by rewrite compare_nan_l. Qed.

Lemma lt_nan_l y : lt nan y = false.
Proof. unfold lt. by rewrite compare_nan_l. Qed.

Lemma le_nan_l y : le nan y = false.
Proof. unfold le. by rewrite compare_nan_l. Qed.

Lemma sub_nan_r x d : sub x nan = Ok d -> d = nan.
Proof.
  destruct x as [z|f]; unfold sub, float_op, to_float.
  - destruct (int_to_float z) as [a|]; [|done]. cbn. intros [= <-]. by destruct a.
  - cbn. intros [= <-]. by destruct f.
Qed.

Lemma sub_nan_l y d : sub nan y = Ok d -> d = nan.
Proof.
  destruct y as [z|f]; unfold sub, float_op, to_float; cbn.
  - destruct (int_to_float z); [|done]. cbn. by intros [= <-].
  - by intros [= <-].
Qed.

Lemma truediv_nan_l y q : truediv nan y = Ok q -> q = nan.
Proof.
  destruct y as [z|f]; unfold truediv, to_float; cbn.
  - destruct (int_to_float z) as [g|]; [|done]. cbn.
    destruct (is_zero g); [done|]. by intros [= <-].
  - destruct (is_zero f); [done|]. by intros [= <-].
Qed.

Lemma mul_nan_r x v : mul x nan = Ok v -> v = nan.
Proof.
  destruct x as [z|f]; unfold mul, float_op, to_float.
  - destruct (int_to_float z) as [a|]; [|done]. cbn. intros [= <-]. by destruct a.
  - cbn. intros [= <-]. by destruct f.
Qed.

Lemma add_nan_r x v : add x nan = Ok v -> v = nan.
Proof.
  destruct x as [z|f]; unfold add, float_op, to_float.
  - destruct (int_to_float z) as [a|]; [|done]. cbn. intros [= <-]. by destruct a.
  - cbn. intros [= <-]. by destruct f.
Qed.

Lemma add_nan_l y v : add nan y = Ok v -> v = nan.
Proof.
  destruct y as [z|f]; unfold add, float_op, to_float; cbn.
  - destruct (int_to_float z); [|done]. cbn. by intros [= <-].
  - by intros [= <-].
Qed.

Lemma SFmul_nan_l f : SFmul prec emax S754_nan f = S754_nan.
Proof. by destruct f. Qed.

(** A NaN weight makes the weighted sum a NaN. *)
Lemma base_score_nan_weight rs weights k base :
  k ∈ weight_keys -> weights !! k = Some nan ->
  base_score rs weights = Ok base -> base = S754_nan.
Proof.
  intros Hk Hw H. unfold base_score in H.
  apply bind_Ok in H as (t1 & Ht1 & H).
  apply bind_Ok in H as (t2 & Ht2 & H).
  apply bind_Ok in H as (s1 & Hs1 & H).
  apply bind_Ok in H as (t3 & Ht3 & H).
  apply bind_Ok in H as (s2 & Hs2 & H).
  apply bind_Ok in H as (t4 & Ht4 & H).
  apply bind_Ok in H as (s3 & Hs3 & H).
  apply bind_Ok in H as (t5 & Ht5 & H).
  apply bind_Ok in H as (s4 & Hs4 & H).
  apply bind_Ok in H as (q & Hq & H).
  assert (Hend : s4 = nan -> base = S754_nan).
  { intros ->. apply truediv_nan_l in Hq as ->. by injection H as <-. }
  apply Hend. clear Hend Hq H.
  unfold weight_keys in Hk. rewrite !elem_of_cons, elem_of_nil in Hk.
  destruct Hk as [->|[->|[->|[->|[->|[]]]]]];
    rewrite (get_Some _ _ _ _ Hw) in *.
  - apply mul_nan_r in Ht1 as ->. apply add_nan_l in Hs1 as ->.
    apply add_nan_l in Hs2 as ->. apply add_nan_l in Hs3 as ->.
    by apply add_nan_l in Hs4 as ->.
  - apply mul_nan_r in Ht2 as ->. apply add_nan_r in Hs1 as ->.
    apply add_nan_l in Hs2 as ->. apply add_nan_l in Hs3 as ->.
    by apply add_nan_l in Hs4 as ->.
  - apply mul_nan_r in Ht3 as ->. apply add_nan_r in Hs2 as ->.
    apply add_nan_l in Hs3 as ->. by apply add_nan_l in Hs4 as ->.
  - apply mul_nan_r in Ht4 as ->. apply add_nan_r in Hs3 as ->.
    by apply add_nan_l in Hs4 as ->.
  - apply mul_nan_r in Ht5 as ->. by apply add_nan_r in Hs4 as ->.
Qed.

Lemma score_no_zdiv metrics weights target_return :
  no_zdiv (calculate_master_score metrics weights target_return).
Proof.
  unfold calculate_master_score.
  apply bind_no_zdiv; [apply raw_scores_no_zdiv|]. intros rs _.
  apply bind_no_zdiv; [apply base_score_no_zdiv|]. intros base _.
  apply bind_no_zdiv; [apply to_int_no_zdiv|]. done.
Qed.

End NaN.

(** X10: every test on a NaN metric fails, so the metric falls to the last
    branch of its cascade: a NaN industry growth scores industry 0 and
    competition 20, a NaN profit growth scores 0, a NaN P/E scores mos 0, a
    NaN sector P/E is taken as absent sector data, a NaN yield scores 30 for
    a payer of 5 years or more, a NaN company growth scores competition 20;
    and a NaN number of dividend years is not caught by the 5-year rule: the
    yield is graded as that of a qualifying payer. *)
Theorem nan_metric_subscores metrics weights target_return r :
  calculate_master_score metrics weights target_return = Ok r ->
  let m := defaulted metrics in
  (metrics !! "industry_growth_3yr" = Some nan ->
     rawScores r !! "industry" = Some 0 /\
     rawScores r !! "competition" = Some 20) /\
  (metrics !! "net_profit_growth_5yr" = Some nan ->
     rawScores r !! "profit" = Some 0) /\
  (metrics !! "pe_ratio" = Some nan -> rawScores r !! "mos" = Some 0) /\
  (metrics !! "sector_pe" = Some nan ->
     rawScores r !! "mos" =
       Some (if gt (pe_ratio m) (PyInt 0) && lt (pe_ratio m) (PyInt 20)
             then 50 else 0)) /\
  (metrics !! "dividend_yield" = Some nan ->
     rawScores r !! "yield" =
       Some (if lt (dividend_years_consecutive m) (PyInt 5) then 0 else 30)) /\
  (metrics !! "dividend_years_consecutive" = Some nan ->
     rawScores r !! "yield" =
       Some (if ge (dividend_yield m) (PyInt 8) then 100
             else if ge (dividend_yield m) (PyInt 5) then 80
             else if ge (dividend_yield m) (PyInt 3) then 60
             else 30)) /\
  (metrics !! "company_growth_rate" = Some nan ->
     rawScores r !! "competition" = Some 20).
Proof.
  intros Hr m. subst m.
  apply score_inv in Hr as (rs & base & Hrs & _ & _ & _ & _ & _ & ->).
  apply raw_scores_inv in Hrs as (mos & comp & Hmos & Hcomp & ->).
  rewrite scores_dict_industry, scores_dict_profit, scores_dict_mos,
    scores_dict_yield, !scores_dict_competition.
  unfold defaulted in *.
  cbn [industry_growth_3yr net_profit_growth_5yr pe_ratio sector_pe
       dividend_yield dividend_years_consecutive company_growth_rate] in *.
  repeat apply conj.
  - intros H. rewrite (get_Some _ _ _ _ H) in *. split.
    + unfold industry_score. by rewrite !ge_nan_l.
    + unfold competition_score in Hcomp.
      apply bind_Ok in Hcomp as (d & Hd & [= <-]).
      apply sub_nan_r in Hd as ->. unfold competition_tier.
      by rewrite !ge_nan_l.
  - intros H. rewrite (get_Some _ _ _ _ H). unfold profit_score.
    by rewrite !ge_nan_l.
  - intros H. rewrite (get_Some _ _ _ _ H) in Hmos. unfold mos_score in Hmos.
    destruct (gt _ (PyInt 0)).
    + apply bind_Ok in Hmos as (pct & Hpct & [= <-]).
      apply bind_Ok in Hpct as (d & Hd & Hpct).
      apply sub_nan_r in Hd as ->. apply truediv_nan_l in Hpct as ->.
      unfold mos_tier. by rewrite gt_nan_l, !ge_nan_l.
    + rewrite gt_nan_l in Hmos. by injection Hmos as <-.
  - intros H. rewrite (get_Some _ _ _ _ H) in Hmos. unfold mos_score in Hmos.
    rewrite gt_nan_l in Hmos. by destruct (_ && _); injection Hmos as <-.
  - intros H. rewrite (get_Some _ _ _ _ H). unfold yield_score.
    by rewrite !ge_nan_l.
  - intros H. rewrite (get_Some _ _ _ _ H). unfold yield_score.
    by rewrite lt_nan_l.
  - intros H. rewrite (get_Some _ _ _ _ H) in Hcomp.
    unfold competition_score in Hcomp.
    apply bind_Ok in Hcomp as (d & Hd & [= <-]).
    apply sub_nan_l in Hd as ->. unfold competition_tier.
    by rewrite !ge_nan_l.
Qed.

Lemma nan_metric_subscores_witness :
  exists r,
    calculate_master_score
      (<["industry_growth_3yr" := nan]>
         (<["dividend_years_consecutive" := nan]>
            (<["dividend_yield" := PyInt 9]> ∅))) ∅ (PyInt 12) = Ok r /\
    rawScores r !! "industry" = Some 0 /\
    rawScores r !! "competition" = Some 20 /\
    rawScores r !! "yield" = Some 100.
Proof.
  run_score r E. exists r. split; [reflexivity|].
  destruct (nan_metric_subscores _ _ _ r E) as (Hi & _ & _ & _ & _ & Hy & _).
  destruct (Hi ltac:(vm_compute; reflexivity)) as [H1 H2].
  pose proof (Hy ltac:(vm_compute; reflexivity)) as H3.
  exact (conj H1 (conj H2 H3)).
Defined.

(** X11: a NaN beta is multiplied by the lowest factor of the band (0.5
    Conservative, 0.6 Aggressive, 0.8 Moderate), and a NaN target_return is
    treated as Moderate. *)
Theorem nan_beta_or_target metrics weights target_return r :
  calculate_master_score metrics weights target_return = Ok r ->
  (metrics !! "beta" = Some nan ->
     riskMult r = if lt target_return (PyInt 10) then f0_5
                  else if ge target_return (PyInt 15) then f0_6
                  else f0_8) /\
  (target_return = nan ->
     riskMult r =
       if ge (beta (defaulted metrics)) (PyFloat f0_7) &&
          le (beta (defaulted metrics)) (PyFloat f1_5)
       then f1_0 else f0_8).
Proof.
  intros Hr.
  apply score_inv in Hr as (rs & base & _ & _ & _ & _ & _ & -> & _).
  unfold risk_multiplier. split.
  - intros Hb. unfold defaulted. cbn [beta]. rewrite (get_Some _ _ _ _ Hb).
    by rewrite lt_nan_l, le_nan_l, !ge_nan_l.
  - intros ->. by rewrite lt_nan_l, ge_nan_l.
Qed.

Lemma nan_beta_or_target_witness :
  (exists r,
     calculate_master_score (<["beta" := nan]> ∅) ∅ (PyInt 5) = Ok r /\
     riskMult r = f0_5) /\
  (exists r,
     calculate_master_score (<["beta" := PyFloat f1_2]> ∅) ∅ nan = Ok r /\
     riskMult r = f1_0).
Proof.
  split.
  - run_score r E. exists r. split; [reflexivity|].
    destruct (nan_beta_or_target _ _ _ r E) as [H _].
    exact (H ltac:(vm_compute; reflexivity)).
  - run_score r E. exists r. split; [reflexivity|].
    destruct (nan_beta_or_target _ _ _ r E) as [_ H].
    exact (H eq_refl).
Defined.

(** X12: a NaN under any of the five weight keys makes the call raise: the
    weighted sum is a NaN, which [int] refuses with ValueError, unless an
    OverflowError is raised before. *)
Theorem nan_weight_raises metrics weights target_return k :
  k ∈ weight_keys -> weights !! k = Some nan ->
  calculate_master_score metrics weights target_return = Raise ValueError \/
  calculate_master_score metrics weights target_return = Raise OverflowError.
Proof.
  intros Hk Hw.
  pose proof (score_no_zdiv metrics weights target_return) as Hz.
  unfold no_zdiv in Hz.
  destruct (calculate_master_score metrics weights target_return)
    as [r|[]] eqn:E; [|by right|by left|done].
  exfalso. apply score_inv in E as (rs & base & _ & Hb & Hf & _).
  apply (base_score_nan_weight rs weights k base Hk Hw) in Hb as ->.
  by rewrite SFmul_nan_l in Hf.
Qed.

Lemma nan_weight_raises_witness :
  calculate_master_score scenario1_metrics (<["mos" := nan]> default_weights)
    (PyInt 12) = Raise ValueError.
Proof.
  destruct (nan_weight_raises scenario1_metrics
              (<["mos" := nan]> default_weights) (PyInt 12) "mos") as [H|H].
  - unfold weight_keys. rewrite !elem_of_cons. auto.
  - reflexivity.
  - exact H.
  - exfalso. vm_compute in H. discriminate H.
Defined.

(** * The project store *)

Section StoreFacts.
Import Database.
Variable dumps : ProjectData -> string.
Variable loads : string -> result json.

Lemma ids_sql_delete i t :
  ids (sql_delete i t) = filter (fun j => j <> i) (ids t).
Proof.
  unfold ids, sql_delete. induction t as [|r t IH]; [done|].
  rewrite filter_cons. cbn [map]. rewrite filter_cons.
  destruct (decide (row_id r <> i)); cbn [map]; by rewrite IH.
Qed.

Lemma sql_delete_absent i t : i ∉ ids t -> sql_delete i t = t.
Proof.
  unfold ids, sql_delete. induction t as [|r t IH]; [done|].
  cbn [map]. rewrite not_elem_of_cons. intros [Hne Hnot].
  rewrite filter_cons_True by done. by rewrite IH.
Qed.

Lemma sql_delete_not_elem i t : i ∉ ids (sql_delete i t).
Proof. rewrite ids_sql_delete, list_elem_of_filter. by intros [? _]. Qed.

Lemma sql_delete_twice i t : sql_delete i (sql_delete i t) = sql_delete i t.
Proof. apply sql_delete_absent, sql_delete_not_elem. Qed.

Lemma sql_delete_insert r t :
  sql_delete (row_id r) (sql_insert_or_replace r t) = sql_delete (row_id r) t.
Proof.
  unfold sql_insert_or_replace, sql_delete at 1.
  rewrite filter_app. fold (sql_delete (row_id r) (sql_delete (row_id r) t)).
  rewrite sql_delete_twice.
  rewrite filter_cons_False by (by intros []).
  by rewrite filter_nil, app_nil_r.
Qed.

Lemma NoDup_sql_delete i t : NoDup (ids t) -> NoDup (ids (sql_delete i t)).
Proof. rewrite ids_sql_delete. apply NoDup_filter. Qed.

Lemma ids_save_project p t :
  ids (save_project dumps p t) = ids (delete_project (id p) t) ++ [id p].
Proof.
  unfold save_project, sql_insert_or_replace, delete_project, ids.
  by rewrite map_app.
Qed.

Lemma load_all_app l1 l2 :
  load_all loads (l1 ++ l2) =
  ps ← load_all loads l1; qs ← load_all loads l2; mret (ps ++ qs).
Proof.
  induction l1 as [|d l1 IH]; cbn [load_all app].
  - cbn. by destruct (load_all loads l2).
  - destruct (loads d) as [p|e]; [|done]. cbn [mbind result_bind].
    rewrite IH. destruct (load_all loads l1) as [ps|e]; [|done].
    cbn [mbind result_bind]. by destruct (load_all loads l2).
Qed.

(** X13: every table the store reaches from a fresh database file holds at
    most one row per id, and each row is indexed by the id and the name of
    the project whose dump it stores. *)
Theorem store_invariant t :
  reachable dumps t ->
  NoDup (ids t) /\
  (forall r, r ∈ t ->
     exists p, row_id r = id p /\ row_name r = name p /\ row_data r = dumps p).
Proof.
  induction 1 as [|p t _ [IHn IHr]|i t _ [IHn IHr]].
  - split; [constructor|]. intros r Hr. by apply elem_of_nil in Hr.
  - split.
    + rewrite ids_save_project. apply NoDup_app. split; [|split].
      * by apply NoDup_sql_delete.
      * intros j Hj Hin. apply list_elem_of_singleton in Hin as ->.
        by apply sql_delete_not_elem in Hj.
      * apply NoDup_singleton.
    + intros r Hr. unfold save_project, sql_insert_or_replace in Hr.
      apply elem_of_app in Hr as [Hr|Hr].
      * apply list_elem_of_filter in Hr as [_ Hr]. by apply IHr.
      * apply list_elem_of_singleton in Hr as ->. by exists p.
  - split; [by apply NoDup_sql_delete|].
    intros r Hr. apply list_elem_of_filter in Hr as [_ Hr]. by apply IHr.
Qed.

(** X14: saving is an upsert: the listing after [save_project] is the
    listing of the other projects, in their order, followed by the saved
    project as [json.loads] reads its dump back; an earlier version of the
    project is gone. *)
Theorem save_then_list p t :
  get_all_projects loads (save_project dumps p t) =
  (rest ← get_all_projects loads (delete_project (id p) t);
   saved ← loads (dumps p);
   mret (rest ++ [saved])).
Proof.
  unfold get_all_projects, save_project, sql_insert_or_replace, delete_project,
    sql_select_data.
  rewrite map_app, load_all_app. cbn [map load_all row_data row_id].
  destruct (load_all loads (map row_data (sql_delete (id p) t))) as [ps|e];
    [|reflexivity].
  cbn [mbind result_bind]. destruct (loads (dumps p)); reflexivity.
Qed.

(** X15: deleting an id the table does not hold changes nothing (and raises
    nothing), deleting twice is deleting once, and after a delete the id is
    gone. *)
Theorem delete_project_laws i t :
  (i ∉ ids t -> delete_project i t = t) /\
  delete_project i (delete_project i t) = delete_project i t /\
  i ∉ ids (delete_project i t).
Proof.
  split; [apply sql_delete_absent|].
  split; [apply sql_delete_twice | apply sql_delete_not_elem].
Qed.

(** X16: deleting a project that was just saved leaves the table as a
    delete without the save would; when the project was new, the table is
    the one before the save. *)
Theorem delete_undoes_save p t :
  delete_project (id p) (save_project dumps p t) = delete_project (id p) t /\
  (id p ∉ ids t -> delete_project (id p) (save_project dumps p t) = t).
Proof.
  assert (H : delete_project (id p) (save_project dumps p t)
              = delete_project (id p) t).
  { unfold delete_project, save_project. apply (sql_delete_insert
      {| row_id := id p; row_name := name p; row_data := dumps p |}). }
  split; [exact H|]. intros Hp. rewrite H. by apply sql_delete_absent.
Qed.

(** X17: the last save of an id wins: a save followed by a save of the same
    id leaves the table the second save alone would. *)
Theorem last_write_wins p1 p2 t :
  id p1 = id p2 ->
  save_project dumps p2 (save_project dumps p1 t) = save_project dumps p2 t.
Proof.
  intros Hid. unfold save_project at 1 3. unfold sql_insert_or_replace.
  cbn [row_id]. f_equal. rewrite <- Hid. unfold save_project.
  apply (sql_delete_insert
    {| row_id := id p1; row_name := name p1; row_data := dumps p1 |}).
Qed.

End StoreFacts.

Lemma store_invariant_witness :
  NoDup (Database.ids
           (Database.save_project Database.name (sample_project "p1" "Growth")
              (Database.save_project Database.name (sample_project "p1" "Old")
                 (Database.init_db None)))).
Proof.
  destruct (store_invariant Database.name
              (Database.save_project Database.name (sample_project "p1" "Growth")
                 (Database.save_project Database.name
                    (sample_project "p1" "Old") (Database.init_db None))))
    as [H _]; [|exact H].
  apply Database.reach_save, Database.reach_save, Database.reach_init.
Defined.

Lemma delete_project_laws_witness :
  Database.delete_project "p2"
    (Database.save_project Database.name (sample_project "p1" "Growth") []) =
  Database.save_project Database.name (sample_project "p1" "Growth") [].
Proof.
  destruct (delete_project_laws "p2"
              (Database.save_project Database.name
                 (sample_project "p1" "Growth") [])) as [H _].
  apply H. cbn. rewrite not_elem_of_cons.
  split; [discriminate|apply not_elem_of_nil].
Defined.

Lemma delete_undoes_save_witness :
  Database.delete_project "p1"
    (Database.save_project Database.name (sample_project "p1" "Growth") []) = [].
Proof.
  destruct (delete_undoes_save Database.name (sample_project "p1" "Growth") [])
    as [_ H].
  apply H, not_elem_of_nil.
Defined.

Lemma last_write_wins_witness :
  Database.save_project Database.name (sample_project "p1" "Growth")
    (Database.save_project Database.name (sample_project "p1" "Old") []) =
  Database.save_project Database.name (sample_project "p1" "Growth") [].
Proof.
  apply (last_write_wins Database.name (sample_project "p1" "Old")
           (sample_project "p1" "Growth") []).
  reflexivity.
Defined.
